(** * newspaper4k: the [Article] lifecycle controller

    A shallow embedding of [newspaper/article.py]: the download resolver
    ([download], [_parse_scheme_http], [_parse_scheme_file],
    [_detect_protection]), the parse pipeline ([parse], [fetch_images],
    [set_movies]), the NLP post-processing ([nlp]), the validity classifier
    ([is_valid_body], [is_media_news]), the truncating property setters and
    the pickling protocol ([__getstate__], [__setstate__]).

    Conventions.
    - A Python [str] is a [string]; [int] is [Z]; [float] is the carrier of
      the [PyFloat] class (instances: binary64 and the rationals).
    - A method of [Article] is a function of the object [a : Article]
      returning the mutated object.  Methods that touch the outside world also
      take and return the [trace] of accesses made so far; what the network or
      the file system answers may depend on that trace.
    - An exception becomes [Raise] in the [result] type, or [Raised] with
      the object as the failed call left it. A collaborator is a total
      function: of the exceptions one may raise, those that [article.py]
      catches ([RequestException], [OSError]) are part of its answer.
    - The modules [network], [urls], [parsers], [utils], [nlp], [extractors],
      [cleaners], [outputformatters] and [readability] are not part of this
      file: their functions are the fields of the class [Collaborators], and
      the general statements hold for every instance of it; [demo_world] is
      a small instance to run the model in.  The stateful [ContentExtractor]
      is an abstract state threaded through its calls. *)

From Stdlib Require Import String Ascii List ZArith Bool Lia.
From Stdlib Require Import Permutation Sorted QArith PrimFloat.
From Stdlib Require DecimalString.
Import ListNotations.

Local Open Scope string_scope.
Local Open Scope list_scope.
Local Open Scope Z_scope.

Set Implicit Arguments.
Set Warnings "-register-all,-inexact-float".

(* ================================================================== *)
(** ** Python values *)

(** [if s:] on a string. *)
Definition str_truthy (s : string) : bool :=
  match s with EmptyString => false | String _ _ => true end.

(** [if o:] on an [Optional[str]]. *)
Definition opt_truthy (o : option string) : bool :=
  match o with Some s => str_truthy s | None => false end.

(** The first [n] characters. *)
Fixpoint str_take (n : nat) (s : string) : string :=
  match n, s with
  | O, _ => EmptyString
  | S _, EmptyString => EmptyString
  | S n', String c r => String c (str_take n' r)
  end.

(** [s[:n]]: a negative bound counts from the end. *)
Definition str_slice_to (n : Z) (s : string) : string :=
  if 0 <=? n then str_take (Z.to_nat n) s
  else str_take (Z.to_nat (Z.of_nat (String.length s) + n)) s.

(** [l[:n]] on a list. *)
Definition list_slice_to {A : Type} (n : Z) (l : list A) : list A :=
  if 0 <=? n then firstn (Z.to_nat n) l
  else firstn (Z.to_nat (Z.of_nat (List.length l) + n)) l.

(** [needle in hay] on strings. *)
Fixpoint str_contains (needle hay : string) : bool :=
  if String.prefix needle hay then true
  else match hay with
       | EmptyString => false
       | String _ rest => str_contains needle rest
       end.

(** [s.split(sep)] for a one-character separator. *)
Fixpoint str_split (sep : ascii) (s : string) : list string :=
  match s with
  | EmptyString => [EmptyString]
  | String c rest =>
      if Ascii.eqb c sep then EmptyString :: str_split sep rest
      else match str_split sep rest with
           | w :: ws => String c w :: ws
           | [] => [String c EmptyString]
           end
  end.

(** [sep.join(parts)]. *)
Fixpoint str_join (sep : string) (parts : list string) : string :=
  match parts with
  | [] => EmptyString
  | [p] => p
  | p :: rest => (p ++ sep ++ str_join sep rest)%string
  end.

(** [str(n)] on an integer. *)
Definition str_of_int (n : Z) : string :=
  DecimalString.NilZero.string_of_int (Z.to_int n).

(** An [Optional[str]] inside an f-string: [None] prints as its name. *)
Definition fmt_opt (o : option string) : string :=
  match o with Some s => s | None => "None" end.

(** [a or b] on an optional string and a string. *)
Definition opt_or (o : option string) (d : string) : string :=
  match o with
  | Some s => if str_truthy s then s else d
  | None => d
  end.

(** What the [html] setter may be handed. *)
Inductive html_value : Type :=
| HNone
| HStr (s : string)
| HBytes (b : string).

Definition html_value_truthy (v : html_value) : bool :=
  match v with
  | HNone => false
  | HStr s => str_truthy s
  | HBytes b => str_truthy b
  end.

(** Exceptions that [article.py] raises or lets escape. *)
Inductive exn : Type :=
| ArticleException (msg : string)
| AttributeError (msg : string)
| KeyError (key : string).

Inductive result (A : Type) : Type :=
| Ok (a : A)
| Raise (e : exn).
Arguments Ok {A} a.
Arguments Raise {A} e.

(* ================================================================== *)
(** ** Dicts in insertion order *)

Section Dict.
Variable V : Type.

Definition dict := list (string * V).

(** [d.get(k)] *)
Fixpoint dict_get (k : string) (d : dict) : option V :=
  match d with
  | [] => None
  | (k', v) :: rest => if String.eqb k k' then Some v else dict_get k rest
  end.

(** [d[k] = v]: an existing key keeps its position, a new one goes last. *)
Fixpoint dict_set (k : string) (v : V) (d : dict) : dict :=
  match d with
  | [] => [(k, v)]
  | (k', v') :: rest =>
      if String.eqb k k' then (k', v) :: rest
      else (k', v') :: dict_set k v rest
  end.

(** [dict(items)] *)
Definition dict_of_items (items : list (string * V)) : dict :=
  fold_left (fun d kv => dict_set (fst kv) (snd kv) d) items [].

Definition dict_keys (d : dict) : list string := map fst d.
End Dict.

(* ================================================================== *)
(** ** Floats *)

(** The arithmetic [nlp] performs on keyword scores: [x + v], [x / 2] and
    the comparison the sort uses. *)
Class PyFloat : Type := {
  pyfloat : Type;
  float_add : pyfloat -> pyfloat -> pyfloat;
  float_half : pyfloat -> pyfloat;
  float_ltb : pyfloat -> pyfloat -> bool
}.

(** IEEE 754 binary64, the floats of CPython. *)
Definition binary64 : PyFloat := {|
  pyfloat := PrimFloat.float;
  float_add := PrimFloat.add;
  float_half := fun x => PrimFloat.div x 2%float;
  float_ltb := PrimFloat.ltb
|}.

(** Exact rationals: the same arithmetic without rounding. *)
Definition rational : PyFloat := {|
  pyfloat := Q;
  float_add := Qplus;
  float_half := fun x => Qdiv x (2 # 1);
  float_ltb := fun x y => negb (Qle_bool y x)
|}.

(* ================================================================== *)
(** ** Configuration, download state, DOM *)

(** The fields of [Configuration] that [article.py] reads or writes. *)
Record Configuration : Type := mkConfiguration {
  follow_meta_refresh : bool;
  use_meta_language : bool;
  language : string;
  max_title : Z;
  max_text : Z;
  max_summary : Z;
  max_summary_sent : Z;
  max_keywords : Z;
  max_authors : Z;
  min_word_count : Z;
  min_sent_count : Z
}.

Definition set_language (v : string) (c : Configuration) : Configuration :=
  mkConfiguration (follow_meta_refresh c) (use_meta_language c) v
    (max_title c) (max_text c) (max_summary c) (max_summary_sent c)
    (max_keywords c) (max_authors c) (min_word_count c) (min_sent_count c).

Inductive ArticleDownloadState : Type :=
| NOT_STARTED
| FAILED_RESPONSE
| SUCCESS.

(** An element of the DOM: tag, attributes, text, children. *)
Inductive Element : Type :=
| Elem (tag : string) (attrib : list (string * string)) (text : string)
       (children : list Element).

Definition attrib_of (e : Element) : list (string * string) :=
  match e with Elem _ at_ _ _ => at_ end.

Definition children_of (e : Element) : list Element :=
  match e with Elem _ _ _ cs => cs end.

(** [node.get(name)] *)
Definition elem_get (name : string) (e : Element) : option string :=
  dict_get name (attrib_of e).

(** [node.set(name, value)] on a node taken by itself. *)
Definition elem_set (name value : string) (e : Element) : Element :=
  match e with
  | Elem t at_ tx cs => Elem t (dict_set name value at_) tx cs
  end.

(** A node inside a tree is named by the child indices leading to it. *)
Definition path := list nat.

Fixpoint node_at (e : Element) (p : path) : option Element :=
  match p with
  | [] => Some e
  | i :: p' =>
      match nth_error (children_of e) i with
      | Some c => node_at c p'
      | None => None
      end
  end.

Fixpoint replace_nth {A : Type} (i : nat) (x : A) (l : list A) : list A :=
  match l, i with
  | [], _ => []
  | _ :: t, O => x :: t
  | h :: t, S i' => h :: replace_nth i' x t
  end.

(** [node.set(name, value)] on the node at [p]: the tree that holds the node
    changes with it. *)
Fixpoint set_attr_at (name value : string) (p : path) (e : Element) : Element :=
  match p with
  | [] => elem_set name value e
  | i :: p' =>
      match e with
      | Elem t at_ tx cs =>
          match nth_error cs i with
          | Some c => Elem t at_ tx (replace_nth i (set_attr_at name value p' c) cs)
          | None => e
          end
      end
  end.

(** The complemented node is built off-tree by the extractor; after
    unpickling it is a node found in [doc]. *)
Inductive node_handle : Type :=
| OffTree (e : Element)
| InDoc (p : path).

(** The paths of the children's nodes, child [i] first: each child's own
    paths behind its index. *)
Fixpoint child_paths (i : nat) (paths_of_children : list (list path)) : list path :=
  match paths_of_children with
  | [] => []
  | ps :: rest => map (cons i) ps ++ child_paths (S i) rest
  end.

(** Every node of a tree, in document order (a node before its children,
    children left to right). *)
Fixpoint all_paths (e : Element) : list path :=
  match e with
  | Elem _ _ _ cs => [] :: child_paths O (map all_paths cs)
  end.

Definition has_attribs (attribs : list (string * string)) (e : Element) : bool :=
  forallb (fun kv =>
             match elem_get (fst kv) e with
             | Some v => String.eqb v (snd kv)
             | None => false
             end) attribs.

Definition carries (attribs : list (string * string)) (doc : Element) (p : path) : bool :=
  match node_at doc p with
  | Some n => has_attribs attribs n
  | None => false
  end.

(** Modelled from the spec: [parsers.get_elements_by_attribs] belongs to
    [newspaper/parsers.py], which is not embedded here; the spec has it as
    [findByAttribute(Tree, name, value) -> [Node]], the nodes carrying the
    attribute, searched in document order. *)
Definition get_elements_by_attribs (doc : Element) (attribs : list (string * string))
  : list path :=
  filter (carries attribs doc) (all_paths doc).

(* ================================================================== *)
(** ** The outside world and the collaborators *)

(** One access to the outside world. *)
Inductive access : Type :=
| Fetch (url : string)       (* network.get_html_status(url, config) *)
| FetchHtml (url : string)   (* network.get_html(url) *)
| ReadFile (path : string).  (* open(path).read() *)

Definition trace := list access.

(** [network.get_html_status]: the body, the status code and the URLs of
    the redirect chain, or a [requests.exceptions.RequestException]. *)
Inductive fetch_result : Type :=
| Response (html : string) (status_code : Z) (history : list string)
| RequestException (msg : string).

(** [open(path).read()]: the content, or an [OSError] with its [strerror]. *)
Inductive file_result : Type :=
| FileContent (content : string)
| OSError (strerror : option string).

(** What [extractor.get_metadata] returns. *)
Record Metadata : Type := mkMetadata {
  md_language : string;
  md_site_name : string;
  md_description : string;
  md_canonical_link : string;
  md_keywords : list string;
  md_tags : list string;
  md_data : list (string * string)
}.

(** A video object as far as [set_movies] looks at it. *)
Record Video : Type := mkVideo { src : option string }.

Class Collaborators {F : PyFloat} : Type := {
  (* network, file system, urllib *)
  get_html_status : trace -> string -> Configuration -> fetch_result;
  get_html : trace -> string -> string;
  read_file : trace -> string -> file_result;
  urlparse_scheme : string -> string;
  urlparse_path : string -> string;
  (* utils *)
  extract_meta_refresh : string -> option string;
  get_available_languages : list string;
  (* urls *)
  get_scheme : string -> option string;
  get_domain : string -> string;
  prepare_url : string -> string -> string;
  (* parsers, lxml *)
  fromstring : string -> option Element;
  xpath : Element -> string -> list Element;
  node_to_string : option Element -> string;
  get_unicode_html : string -> string;
  (* extractors.ContentExtractor *)
  Extractor : Type;
  ContentExtractor : Configuration -> Extractor;
  get_title : Extractor -> Element -> string * Extractor;
  get_authors : Extractor -> Element -> list string * Extractor;
  get_metadata : Extractor -> string -> Element -> Metadata * Extractor;
  get_publishing_date : Extractor -> string -> Element -> option string * Extractor;
  calculate_best_node : Extractor -> option Element -> option path * Extractor;
  top_node_complemented : Extractor -> option Element;
  get_videos : Extractor -> option Element -> option path
               -> list (option Video) * Extractor;
  parse_images : Extractor -> string -> option Element -> option path -> Extractor;
  meta_image : Extractor -> string;
  extractor_top_image : Extractor -> string;
  extractor_images : Extractor -> list string;
  favicon : Extractor -> string;
  meta_data_type : Extractor -> string;
  (* readability.Document, cleaners, outputformatters *)
  readability_summary : string -> string;
  clean : Configuration -> option Element -> option Element;
  get_formatted : Configuration -> option (Element * path) -> string
                  -> string * string;
  (* newspaper.text, nlp *)
  StopWords : Type;
  stopwords_for : string -> StopWords;
  nlp_keywords : string -> StopWords -> Z -> dict pyfloat;
  nlp_summarize : string -> string -> StopWords -> Z -> list string
}.

(* ================================================================== *)
(** ** The Article object *)

Section ArticleModel.
Context {F : PyFloat} {W : Collaborators}.

(** The attributes [__init__] creates, in its order. *)
Record Article : Type := mkArticle {
  config : Configuration;
  extractor : Extractor;
  source_url : string;
  url : string;
  original_url : string;
  _title : string;
  read_more_link : string;
  top_image : string;
  meta_img : string;
  images : list string;
  movies : list string;
  _text : string;
  text_cleaned : string;
  keywords : list string;
  keyword_scores : dict pyfloat;
  meta_keywords : list string;
  tags : list string;
  authors : list string;
  publish_date : option string;
  _summary : string;
  _html : string;
  article_html : string;
  is_parsed : bool;
  download_state : ArticleDownloadState;
  download_exception_msg : option string;
  history : list string;
  meta_description : string;
  meta_lang : string;
  meta_favicon : string;
  meta_site_name : string;
  meta_data : list (string * string);
  canonical_link : string;
  top_node : option path;                     (* a node of [doc] *)
  clean_top_node : option path;               (* a node of [clean_doc] *)
  _top_node_complemented : option node_handle;
  doc : option Element;
  clean_doc : option Element
}.

(** [self.<field> = v] for a plain attribute. *)
Local Ltac assign_attr field v a :=
  let e := constr:(mkArticle
    (config a) (extractor a) (source_url a) (url a) (original_url a)
    (_title a) (read_more_link a) (top_image a) (meta_img a) (images a)
    (movies a) (_text a) (text_cleaned a) (keywords a) (keyword_scores a)
    (meta_keywords a) (tags a) (authors a) (publish_date a) (_summary a)
    (_html a) (article_html a) (is_parsed a) (download_state a)
    (download_exception_msg a) (history a) (meta_description a) (meta_lang a)
    (meta_favicon a) (meta_site_name a) (meta_data a) (canonical_link a)
    (top_node a) (clean_top_node a) (_top_node_complemented a) (doc a)
    (clean_doc a)) in
  match eval pattern (field a) in e with
  | ?g _ => let r := eval cbv beta in (g v) in exact r
  end.

Definition set_config v (a : Article) : Article := ltac:(assign_attr config v a).
Definition set_extractor v (a : Article) : Article := ltac:(assign_attr extractor v a).
Definition set_url v (a : Article) : Article := ltac:(assign_attr url v a).
Definition set__title v (a : Article) : Article := ltac:(assign_attr _title v a).
Definition set_top_image v (a : Article) : Article := ltac:(assign_attr top_image v a).
Definition set_meta_img v (a : Article) : Article := ltac:(assign_attr meta_img v a).
Definition set_images v (a : Article) : Article := ltac:(assign_attr images v a).
Definition set_movies_attr v (a : Article) : Article := ltac:(assign_attr movies v a).
Definition set__text v (a : Article) : Article := ltac:(assign_attr _text v a).
Definition set_text_cleaned v (a : Article) : Article := ltac:(assign_attr text_cleaned v a).
Definition set_keywords v (a : Article) : Article := ltac:(assign_attr keywords v a).
Definition set_keyword_scores v (a : Article) : Article := ltac:(assign_attr keyword_scores v a).
Definition set_meta_keywords v (a : Article) : Article := ltac:(assign_attr meta_keywords v a).
Definition set_tags v (a : Article) : Article := ltac:(assign_attr tags v a).
Definition set_authors v (a : Article) : Article := ltac:(assign_attr authors v a).
Definition set_publish_date v (a : Article) : Article := ltac:(assign_attr publish_date v a).
Definition set__summary v (a : Article) : Article := ltac:(assign_attr _summary v a).
Definition set__html v (a : Article) : Article := ltac:(assign_attr _html v a).
Definition set_article_html v (a : Article) : Article := ltac:(assign_attr article_html v a).
Definition set_is_parsed v (a : Article) : Article := ltac:(assign_attr is_parsed v a).
Definition set_download_state v (a : Article) : Article := ltac:(assign_attr download_state v a).
Definition set_download_exception_msg v (a : Article) : Article :=
  ltac:(assign_attr download_exception_msg v a).
Definition set_history v (a : Article) : Article := ltac:(assign_attr history v a).
Definition set_meta_description v (a : Article) : Article := ltac:(assign_attr meta_description v a).
Definition set_meta_lang v (a : Article) : Article := ltac:(assign_attr meta_lang v a).
Definition set_meta_favicon v (a : Article) : Article := ltac:(assign_attr meta_favicon v a).
Definition set_meta_site_name v (a : Article) : Article := ltac:(assign_attr meta_site_name v a).
Definition set_meta_data v (a : Article) : Article := ltac:(assign_attr meta_data v a).
Definition set_canonical_link v (a : Article) : Article := ltac:(assign_attr canonical_link v a).
Definition set_top_node v (a : Article) : Article := ltac:(assign_attr top_node v a).
Definition set_clean_top_node v (a : Article) : Article := ltac:(assign_attr clean_top_node v a).
Definition set__top_node_complemented v (a : Article) : Article :=
  ltac:(assign_attr _top_node_complemented v a).
Definition set_doc v (a : Article) : Article := ltac:(assign_attr doc v a).
Definition set_clean_doc v (a : Article) : Article := ltac:(assign_attr clean_doc v a).

(** What a method leaves behind: it returns, or it raises with the object
    (and the world) as mutated up to that point. *)
Inductive outcome (S : Type) : Type :=
| Return (s : S)
| Raised (e : exn) (s : S).
Arguments Return {S} s.
Arguments Raised {S} e s.

Definition final_state {S : Type} (o : outcome S) : S :=
  match o with Return s => s | Raised _ s => s end.

(* ------------------------------------------------------------------ *)
(** *** Properties *)

(** [value[:limit] if value else ""] *)
Definition clipped (limit : Z) (value : option string) : string :=
  match value with
  | Some v => if str_truthy v then str_slice_to limit v else ""
  | None => ""
  end.

Definition title (a : Article) : string := _title a.
Definition text (a : Article) : string := _text a.
Definition html (a : Article) : string := _html a.
Definition summary (a : Article) : string := _summary a.

(** [@title.setter] *)
Definition set_title (value : option string) (a : Article) : Article :=
  set__title (clipped (max_title (config a)) value) a.

(** [@text.setter] *)
Definition set_text (value : option string) (a : Article) : Article :=
  set__text (clipped (max_text (config a)) value) a.

(** [@summary.setter] *)
Definition set_summary (value : option string) (a : Article) : Article :=
  set__summary (clipped (max_summary (config a)) value) a.

(** [@html.setter] *)
Definition set_html (value : html_value) (a : Article) : Article :=
  let a := set_download_state SUCCESS a in
  if html_value_truthy value then
    match value with
    | HBytes b => set__html (get_unicode_html b) a
    | HStr v => set__html v a
    | HNone => set__html "" a
    end
  else set__html "" a.

(* ------------------------------------------------------------------ *)
(** *** Construction *)

(** [Article.__init__(url, title, source_url, read_more_link, config)].
    [config] is the configuration after the keyword overrides have been
    applied to it. *)
Definition __init__ (url_ title_ : string) (source_url_ : option string)
    (read_more_link_ : string) (config_ : Configuration) : result Article :=
  let extractor_ := ContentExtractor config_ in
  let source_url_ :=
    match source_url_ with
    | Some EmptyString =>
        let scheme := match get_scheme url_ with Some sc => sc | None => "http" end in
        Some (scheme ++ "://" ++ get_domain url_)%string
    | other => other
    end in
  match source_url_ with
  | None => Raise (ArticleException "input url bad format")
  | Some EmptyString => Raise (ArticleException "input url bad format")
  | Some source =>
      let url' := prepare_url url_ source in
      Ok (set_title (Some title_)
            (mkArticle config_ extractor_ source url' url' title_ read_more_link_
               "" "" [] [] "" "" [] [] [] [] [] None "" "" "" false NOT_STARTED
               None [] "" "" "" "" [] "" None None None None None))
  end.

(* ------------------------------------------------------------------ *)
(** *** Download *)

Definition _parse_scheme_file (a : Article) (path_ : string) (w : trace)
  : option string * Article * trace :=
  let w' := w ++ [ReadFile path_] in
  match read_file w path_ with
  | FileContent content => (Some content, a, w')
  | OSError strerror =>
      let a := set_download_state FAILED_RESPONSE a in
      let a := set_download_exception_msg strerror a in
      (None, a, w')
  end.

Definition _detect_protection (html_ : string) : option string :=
  if str_contains "cloudflare" html_ then Some "Cloudflare"
  else if str_contains "/cdn-cgi/challenge-platform/h/b/orchestrate/chl_page" html_
  then Some "Cloudflare"
  else if str_contains "cloud-flare" html_ then Some "Cloudflare"
  else if str_contains "CloudFront" html_ then Some "CloudFront"
  else if str_contains "perimeterx" html_ then Some "PerimeterX"
  else None.

Definition _parse_scheme_http (a : Article) (url_ : option string) (w : trace)
  : option string * Article * trace :=
  let target := opt_or url_ (url a) in
  let w' := w ++ [Fetch target] in
  match get_html_status w target (config a) with
  | Response html_ status_code history_ =>
      let a := set_history history_ a in
      if 400 <=? status_code then
        let a := set_download_state FAILED_RESPONSE a in
        let protection := _detect_protection html_ in
        let a :=
          if opt_truthy protection then
            set_download_exception_msg
              (Some ("Website protected with " ++ fmt_opt protection
                     ++ ", url: " ++ fmt_opt url_)%string) a
          else
            set_download_exception_msg
              (Some ("Status code " ++ str_of_int status_code
                     ++ " for url " ++ fmt_opt url_)%string) a in
        (None, a, w')
      else (Some html_, a, w')
  | RequestException e =>
      let a := set_download_state FAILED_RESPONSE a in
      let a := set_download_exception_msg (Some e) a in
      (None, a, w')
  end.

(** Lines 389-403: the HTML to work on, fetched unless the caller gave it. *)
Definition obtain_html (a : Article) (w : trace) (input_html : option string)
  : option string * Article * trace :=
  match input_html with
  | None =>
      if String.eqb (urlparse_scheme (url a)) "file"
      then _parse_scheme_file a (urlparse_path (url a)) w
      else _parse_scheme_http a None w
  | Some given => (Some given, a, w)
  end.

(** Lines 415-440: the loop over the nodes the read-more selector matched. *)
Fixpoint read_more_loop (nodes : list Element) (a : Article) (html_ : string)
    (w : trace) : string * Article * trace :=
  match nodes with
  | [] => (html_, a, w)
  | read_more_node :: rest =>
      if opt_truthy (elem_get "href" read_more_node) then
        let new_url := fmt_opt (elem_get "href" read_more_node) in
        let new_url := prepare_url new_url (url a) in
        match _parse_scheme_http a (Some new_url) w with
        | (Some html', a, w) => (html', set_url new_url a, w)   (* break *)
        | (None, a, w) => (html_, a, w)                         (* break *)
        end
      else read_more_loop rest a html_ w
  end.

(** Lines 413-440. [doc.xpath] on the [None] that [fromstring] may return
    is an [AttributeError]. *)
Definition follow_read_more (a : Article) (w : trace) (html_ : string)
    (ignore_read_more : bool) : exn + string * Article * trace :=
  if negb ignore_read_more && str_truthy (read_more_link a) then
    match fromstring html_ with
    | None => inl (AttributeError "'NoneType' object has no attribute 'xpath'")
    | Some doc_ => inr (read_more_loop (xpath doc_ (read_more_link a)) a html_ w)
    end
  else inr (html_, a, w).

(** Lines 405-407: the meta-refresh target to follow, if any. *)
Definition meta_refresh_target (a : Article) (html_ : string) (recursion_counter : Z)
  : option string :=
  if follow_meta_refresh (config a) then
    let meta_refresh_url := extract_meta_refresh html_ in
    if opt_truthy meta_refresh_url && (recursion_counter <? 1)
    then meta_refresh_url
    else None
  else None.

(** Lines 442-446: store the HTML, force the title if one was given. *)
Definition finish_download (title_ : option string) (html_ : string) (a : Article)
  : Article :=
  let a := set_html (HStr html_) a in
  match title_ with
  | Some t => set_title (Some t) a
  | None => a
  end.

(** [download], with a bound on the depth of its recursion; [None] when the
    bound is hit. *)
Fixpoint download_fuel (fuel : nat) (a : Article) (w : trace)
    (input_html title_ : option string) (recursion_counter : Z)
    (ignore_read_more : bool) : option (outcome (Article * trace)) :=
  match fuel with
  | O => None
  | S fuel' =>
      match obtain_html a w input_html with
      | (None, a, w) => Some (Return (a, w))
      | (Some html_, a, w) =>
          match meta_refresh_target a html_ recursion_counter with
          | Some meta_refresh_url =>
              download_fuel fuel' a (w ++ [FetchHtml meta_refresh_url])
                (Some (get_html w meta_refresh_url)) None (recursion_counter + 1) false
          | None =>
              match follow_read_more a w html_ ignore_read_more with
              | inl e => Some (Raised e (a, w))
              | inr (html_, a, w) => Some (Return (finish_download title_ html_ a, w))
              end
          end
      end
  end.

(** The recursion is at most [1 - recursion_counter] deep. *)
Definition download_depth (recursion_counter : Z) : nat :=
  S (Z.to_nat (1 - recursion_counter)).

(** [Article.download(input_html, title, recursion_counter, ignore_read_more)] *)
Definition download (a : Article) (w : trace) (input_html title_ : option string)
    (recursion_counter : Z) (ignore_read_more : bool) : outcome (Article * trace) :=
  match download_fuel (download_depth recursion_counter) a w input_html title_
          recursion_counter ignore_read_more with
  | Some o => o
  | None => Return (a, w)
  end.

(* ------------------------------------------------------------------ *)
(** *** Parse *)

Definition throw_if_not_downloaded_verbose (a : Article) : option exn :=
  match download_state a with
  | NOT_STARTED => Some (ArticleException "You must `download()` an article first!")
  | FAILED_RESPONSE =>
      Some (ArticleException
              ("Article `download()` failed with "
               ++ fmt_opt (download_exception_msg a) ++ " on URL " ++ url a)%string)
  | SUCCESS => None
  end.

Definition throw_if_not_parsed_verbose (a : Article) : option exn :=
  if negb (is_parsed a)
  then Some (ArticleException "You must `parse()` an article first!")
  else None.

(** [set_movies]: keep the [src] of every video object that has one. *)
Definition set_movies (movie_objects : list (option Video)) (a : Article) : Article :=
  let movie_urls :=
    flat_map (fun o => match o with
                       | Some v => if opt_truthy (src v) then [fmt_opt (src v)] else []
                       | None => []
                       end) movie_objects in
  set_movies_attr movie_urls a.

Definition fetch_images (a : Article) : Article :=
  let a := set_extractor
             (parse_images (extractor a) (url a) (clean_doc a) (clean_top_node a)) a in
  let a := set_meta_img (meta_image (extractor a)) a in
  let a := set_top_image (extractor_top_image (extractor a)) a in
  let a := set_images (extractor_images (extractor a)) a in
  set_meta_favicon (favicon (extractor a)) a.

(** The element [self._top_node_complemented] stands for. *)
Definition complemented_element (a : Article) : option Element :=
  match _top_node_complemented a with
  | Some (OffTree e) => Some e
  | Some (InDoc p) => match doc a with Some d => node_at d p | None => None end
  | None => None
  end.

(** An off-tree node, and a node of a tree, as handed to a collaborator. *)
Definition off_tree (n : option Element) : option (Element * path) :=
  option_map (fun e => (e, @nil nat)) n.

Definition in_tree (tree : option Element) (n : option path) : option (Element * path) :=
  match tree, n with
  | Some d, Some p => Some (d, p)
  | _, _ => None
  end.

(** Lines 471-490: title, authors, metadata and date, read from
    [clean_doc] ([d]). The title is also kept as extracted, for the
    formatter. *)
Definition parse_metadata (d : Element) (a : Article) : string * Article :=
  let '(title_, ex) := get_title (extractor a) d in
  let a := set_title (Some title_) (set_extractor ex a) in
  let '(authors_, ex) := get_authors (extractor a) d in
  let a := set_authors (list_slice_to (max_authors (config a)) authors_)
             (set_extractor ex a) in
  let '(metadata, ex) := get_metadata (extractor a) (url a) d in
  let a := set_extractor ex a in
  let a :=
    if existsb (String.eqb (md_language metadata)) get_available_languages then
      let a := set_meta_lang (md_language metadata) a in
      if use_meta_language (config a)
      then set_config (set_language (md_language metadata) (config a)) a
      else a
    else a in
  let a := set_meta_site_name (md_site_name metadata) a in
  let a := set_meta_description (md_description metadata) a in
  let a := set_canonical_link (md_canonical_link metadata) a in
  let a := set_meta_keywords (md_keywords metadata) a in
  let a := set_tags (md_tags metadata) a in
  let a := set_meta_data (md_data metadata) a in
  let '(date_, ex) := get_publishing_date (extractor a) (url a) d in
  (title_, set_publish_date date_ (set_extractor ex a)).

(** Lines 492-505: the readability document replaces [doc], [clean_doc] is
    cleaned, and the best node is computed on each. *)
Definition parse_nodes (a : Article) : Article :=
  let html_readability := readability_summary (html a) in
  let a := set_doc (fromstring html_readability) a in
  let a := set_clean_doc (clean (config a) (clean_doc a)) a in
  let '(top, ex) := calculate_best_node (extractor a) (doc a) in
  let a := set_top_node top (set_extractor ex a) in
  let a := set__top_node_complemented
             (option_map OffTree (top_node_complemented (extractor a))) a in
  let '(clean_top, ex) := calculate_best_node (extractor a) (clean_doc a) in
  set_clean_top_node clean_top (set_extractor ex a).

(** Line 507. *)
Definition parse_videos (a : Article) : Article :=
  let '(videos, ex) := get_videos (extractor a) (doc a) (top_node a) in
  set_movies videos (set_extractor ex a).

(** Lines 511-522: the texts, when there is a top node. *)
Definition parse_text (title_ : string) (a : Article) : Article :=
  match top_node a with
  | Some _ =>
      let a := set__top_node_complemented
                 (option_map OffTree (clean (config a) (complemented_element a))) a in
      let '(text_, article_html_) :=
        get_formatted (config a) (off_tree (complemented_element a)) title_ in
      let a := set_article_html article_html_ a in
      let a := set_text (Some text_) a in
      let '(text_, _) :=
        get_formatted (config a) (in_tree (clean_doc a) (clean_top_node a)) title_ in
      set_text_cleaned (clipped (max_text (config a)) (Some text_)) a
  | None => a
  end.

(** Lines 468-525: what [parse] does once [doc] exists; [d] is [clean_doc],
    the copy of it. *)
Definition parse_document (d : Element) (a : Article) : Article :=
  let '(title_, a) := parse_metadata d a in
  let a := parse_nodes a in
  let a := parse_videos a in
  let a := fetch_images a in
  let a := parse_text title_ a in
  set_is_parsed true a.

(** [Article.parse()] *)
Definition parse (a : Article) : outcome Article :=
  match throw_if_not_downloaded_verbose a with
  | Some e => Raised e a
  | None =>
      let a := set_doc (fromstring (html a)) a in
      let a := set_clean_doc (doc a) a in          (* copy.deepcopy(self.doc) *)
      match doc a with
      | None => Return (set_is_parsed true a)      (* `parse` call failed *)
      | Some d => Return (parse_document d a)      (* [clean_doc] is [d] too *)
      end
  end.

(* ------------------------------------------------------------------ *)
(** *** Validity *)

Definition safe_urls : list string :=
  ["/video"; "/slide"; "/gallery"; "/powerpoint"; "/fashion"; "/glamour"; "/cloth"].

Definition is_media_news (a : Article) : bool :=
  existsb (fun s => str_contains s (url a)) safe_urls.

Definition must_parse_msg : string :=
  "must parse article before checking                                     if it's body is valid!".

(** [Article.is_valid_body()].  A [str] title is never [None]. *)
Definition is_valid_body (a : Article) : result bool :=
  if negb (is_parsed a) then Raise (ArticleException must_parse_msg)
  else
    let meta_type := meta_data_type (extractor a) in
    let wordcount := str_split " " (text a) in
    let sentcount := str_split "." (text a) in
    if String.eqb meta_type "article"
       && (min_word_count (config a) <? Z.of_nat (List.length wordcount))
    then Ok true
    else if negb (is_media_news a) && negb (str_truthy (text a)) then Ok false
    else if Z.of_nat (List.length (str_split " " (title a))) <? 2 then Ok false
    else if Z.of_nat (List.length wordcount) <? min_word_count (config a) then Ok false
    else if Z.of_nat (List.length sentcount) <? min_sent_count (config a) then Ok false
    else if negb (str_truthy (html a)) then Ok false
    else Ok true.

(* ------------------------------------------------------------------ *)
(** *** NLP *)

(** Lines 613-620: fold the title's keyword scores into the text's. *)
Definition merge_keywords (keywords_ title_keywords : dict pyfloat) : dict pyfloat :=
  fold_left
    (fun kws kv =>
       match dict_get (fst kv) kws with
       | Some x => dict_set (fst kv) (float_half (float_add x (snd kv))) kws
       | None => dict_set (fst kv) (snd kv) kws
       end)
    title_keywords keywords_.

(** [sorted(items, key=lambda x: x[1], reverse=True)]: a stable sort, so an
    item goes in front of the later items that do not score higher. *)
Fixpoint insert_by_score (x : string * pyfloat) (l : list (string * pyfloat))
  : list (string * pyfloat) :=
  match l with
  | [] => [x]
  | y :: rest =>
      if float_ltb (snd x) (snd y) then y :: insert_by_score x rest
      else x :: y :: rest
  end.

Definition sorted_by_score (items : list (string * pyfloat)) : list (string * pyfloat) :=
  fold_right insert_by_score [] items.

(** Lines 612-623: the ranked keywords of a text and a title. *)
Definition ranked_keywords (text_keywords title_keywords : dict pyfloat) (limit : Z)
  : list (string * pyfloat) :=
  let keywords_ := merge_keywords text_keywords title_keywords in
  let keywords_ := sorted_by_score keywords_ in
  list_slice_to limit keywords_.

Definition newline : string := String (ascii_of_nat 10) EmptyString.

(** [Article.nlp()] *)
Definition nlp (a : Article) : outcome Article :=
  match throw_if_not_downloaded_verbose a with
  | Some e => Raised e a
  | None =>
      match throw_if_not_parsed_verbose a with
      | Some e => Raised e a
      | None =>
          let stopwords := stopwords_for (language (config a)) in
          let keywords_ :=
            ranked_keywords
              (nlp_keywords (text a) stopwords (max_keywords (config a)))
              (nlp_keywords (title a) stopwords (max_keywords (config a)))
              (max_keywords (config a)) in
          let a := set_keywords (map fst keywords_) a in
          let a := set_keyword_scores (dict_of_items keywords_) a in
          let max_sents := max_summary_sent (config a) in
          let summary_sents := nlp_summarize (title a) (text a) stopwords max_sents in
          Return (set_summary (Some (str_join newline summary_sents)) a)
      end
  end.

(* ------------------------------------------------------------------ *)
(** *** Pickling *)

(** The state dict: the attributes that survive [__getstate__], with the
    two keys it adds. *)
Record Snapshot : Type := mkSnapshot {
  st_config : Configuration;
  st_source_url : string;
  st_url : string;
  st_original_url : string;
  st__title : string;
  st_read_more_link : string;
  st_top_image : string;
  st_meta_img : string;
  st_images : list string;
  st_movies : list string;
  st__text : string;
  st_text_cleaned : string;
  st_keywords : list string;
  st_keyword_scores : dict pyfloat;
  st_meta_keywords : list string;
  st_tags : list string;
  st_authors : list string;
  st_publish_date : option string;
  st__summary : string;
  st__html : string;
  st_article_html : string;
  st_is_parsed : bool;
  st_download_state : ArticleDownloadState;
  st_download_exception_msg : option string;
  st_history : list string;
  st_meta_description : string;
  st_meta_lang : string;
  st_meta_favicon : string;
  st_meta_site_name : string;
  st_meta_data : list (string * string);
  st_canonical_link : string;
  st___parsed_state : bool;
  st__doc_html : option string
}.

(** [self.__dict__.copy()] less the popped keys, plus the two added. *)
Definition state_dict (a : Article) (parsed_state : bool) (doc_html : option string)
  : Snapshot :=
  mkSnapshot (config a) (source_url a) (url a) (original_url a) (_title a)
    (read_more_link a) (top_image a) (meta_img a) (images a) (movies a)
    (_text a) (text_cleaned a) (keywords a) (keyword_scores a) (meta_keywords a)
    (tags a) (authors a) (publish_date a) (_summary a) (_html a) (article_html a)
    (is_parsed a) (download_state a) (download_exception_msg a) (history a)
    (meta_description a) (meta_lang a) (meta_favicon a) (meta_site_name a)
    (meta_data a) (canonical_link a) parsed_state doc_html.

Definition top_node_sentinel : list (string * string) :=
  [("__newspaper_top_node", "xxx")].
Definition complemented_sentinel : list (string * string) :=
  [("__newspaper_top_node_complemented", "xxx")].

(** [Article.__getstate__()]: the object as the call leaves it, and the
    state dict or the exception. [top_node] is a node of [doc], so marking it
    marks [doc]; marking the complemented node marks [doc] only when the
    node is one of [doc]. *)
Definition __getstate__ (a : Article) : Article * result Snapshot :=
  match download_state a, top_node a with
  | SUCCESS, Some p =>
      let a := set_doc
                 (option_map (set_attr_at "__newspaper_top_node" "xxx" p) (doc a)) a in
      match _top_node_complemented a with
      | None => (a, Raise (AttributeError "'NoneType' object has no attribute 'set'"))
      | Some (OffTree c) =>
          let a := set__top_node_complemented
                     (Some (OffTree
                              (elem_set "__newspaper_top_node_complemented" "xxx" c))) a in
          (a, Ok (state_dict a true (Some (node_to_string (doc a)))))
      | Some (InDoc q) =>
          let a := set_doc
                     (option_map
                        (set_attr_at "__newspaper_top_node_complemented" "xxx" q)
                        (doc a)) a in
          (a, Ok (state_dict a true (Some (node_to_string (doc a)))))
      end
  | _, _ => (a, Ok (state_dict a false None))
  end.

(** The first element of a list, [None] for the empty list: [nodes[0]]
    under [if nodes:]. *)
Definition first_node (nodes : list path) : option path :=
  match nodes with
  | [] => None
  | n :: _ => Some n
  end.

(** [Article.__setstate__(state)] on the blank object that unpickling
    creates. *)
Definition __setstate__ (state : Snapshot) : result Article :=
  let a :=
    mkArticle (st_config state) (ContentExtractor (st_config state))
      (st_source_url state) (st_url state) (st_original_url state)
      (st__title state) (st_read_more_link state) (st_top_image state)
      (st_meta_img state) (st_images state) (st_movies state) (st__text state)
      (st_text_cleaned state) (st_keywords state) (st_keyword_scores state)
      (st_meta_keywords state) (st_tags state) (st_authors state)
      (st_publish_date state) (st__summary state) (st__html state)
      (st_article_html state) (st_is_parsed state) (st_download_state state)
      (st_download_exception_msg state) (st_history state)
      (st_meta_description state) (st_meta_lang state) (st_meta_favicon state)
      (st_meta_site_name state) (st_meta_data state) (st_canonical_link state)
      None None None None None in
  if st___parsed_state state then
    match st__doc_html state with
    | None => Raise (KeyError "_doc_html")
    | Some doc_html =>
        let a := set_doc (fromstring doc_html) a in
        match doc a with
        | None => Raise (AttributeError "'NoneType' object has no attribute 'xpath'")
        | Some d =>
            let nodes := get_elements_by_attribs d top_node_sentinel in
            let a := match first_node nodes with
                     | Some n => set_top_node (Some n) a
                     | None => a
                     end in
            let nodes := get_elements_by_attribs d complemented_sentinel in
            let a := match first_node nodes with
                     | Some n => set__top_node_complemented (Some (InDoc n)) a
                     | None => a
                     end in
            Ok a
        end
    end
  else Ok a.

(* ------------------------------------------------------------------ *)
(** *** Callers *)

(** An assignment a caller makes to one of the four text attributes.
    [title], [text] and [summary] are properties; [text_cleaned] is a plain
    attribute. *)
Inductive assignment : Type :=
| AssignTitle (value : option string)
| AssignText (value : option string)
| AssignTextCleaned (value : string)
| AssignSummary (value : option string).

Definition assign (x : assignment) (a : Article) : Article :=
  match x with
  | AssignTitle v => set_title v a
  | AssignText v => set_text v a
  | AssignTextCleaned v => set_text_cleaned v a
  | AssignSummary v => set_summary v a
  end.

Definition assign_all (xs : list assignment) (a : Article) : Article :=
  fold_left (fun a x => assign x a) xs a.




(* ------------------------------------------------------------------ *)
(** *** Other methods *)

(** [Article.build()]: [download], [parse] and [nlp] in succession; an
    exception ends it. *)
Definition build (a : Article) (w : trace) : outcome (Article * trace) :=
  match download a w None None 0 false with
  | Raised e s => Raised e s
  | Return (a, w) =>
      match parse a with
      | Raised e a => Raised e (a, w)
      | Return a =>
          match nlp a with
          | Raised e a => Raised e (a, w)
          | Return a => Return (a, w)
          end
      end
  end.

(** [Article.imgs] and [Article.top_img], the legacy names. *)
Definition imgs (a : Article) : list string := images a.
Definition top_img (a : Article) : string := top_image a.

(** [sorted(l)] on a list of strings. *)
Fixpoint insert_str (x : string) (l : list string) : list string :=
  match l with
  | [] => [x]
  | y :: rest => if String.leb x y then x :: y :: rest else y :: insert_str x rest
  end.

Definition sorted_str (l : list string) : list string := fold_right insert_str [] l.

(** [l1 == l2] on lists of strings. *)
Fixpoint list_str_eqb (l1 l2 : list string) : bool :=
  match l1, l2 with
  | [], [] => true
  | x :: r1, y :: r2 => String.eqb x y && list_str_eqb r1 r2
  | _, _ => false
  end.

Definition opt_str_eqb (o1 o2 : option string) : bool :=
  match o1, o2 with
  | None, None => true
  | Some x, Some y => String.eqb x y
  | _, _ => false
  end.

(** [Article.__eq__(other)] for an [other] that is an [Article]. *)
Definition __eq__ (a other : Article) : bool :=
  String.eqb (url a) (url other)
  && String.eqb (title a) (title other)
  && String.eqb (text a) (text other)
  && String.eqb (top_image a) (top_image other)
  && list_str_eqb (sorted_str (movies a)) (sorted_str (movies other))
  && list_str_eqb (sorted_str (authors a)) (sorted_str (authors other))
  && list_str_eqb (sorted_str (keywords a)) (sorted_str (keywords other))
  && list_str_eqb (sorted_str (images a)) (sorted_str (images other))
  && opt_str_eqb (publish_date a) (publish_date other).

(** [Article.__str__()] *)
Definition __str__ (a : Article) : string :=
  let repr_ := ("__Title__: " ++ title a)%string in
  if 100 <? Z.of_nat (String.length (text a)) then
    (repr_ ++ newline ++ newline ++ " " ++ str_slice_to 50 (text a) ++ " [...] "
     ++ str_slice_to (-50) (text a))%string
  else (repr_ ++ newline ++ newline ++ " " ++ text a)%string.

(** [needle] occurs in [hay]: some text, [needle], some more text. *)
Definition occurs_in (needle hay : string) : Prop :=
  exists before after, hay = (before ++ needle ++ after)%string.

(** The markers [_detect_protection] looks for. *)
Definition cloudflare_markers : list string :=
  ["cloudflare"; "/cdn-cgi/challenge-platform/h/b/orchestrate/chl_page"; "cloud-flare"].

(** The article with the attributes [parse] writes blanked out; of the
    configuration it blanks the language. *)
Definition outside_parse (a : Article) : Article :=
  let c := set_language "" (config a) in
  mkArticle c (ContentExtractor c) (source_url a) (url a) (original_url a) ""
    (read_more_link a) "" "" [] [] "" "" (keywords a) (keyword_scores a) [] [] []
    None (_summary a) (_html a) "" false (download_state a)
    (download_exception_msg a) (history a) "" "" "" "" [] "" None None None None
    None.

(** The article with the attributes [nlp] writes blanked out. *)
Definition outside_nlp (a : Article) : Article :=
  set_keywords [] (set_keyword_scores [] (set__summary "" a)).

(** The attributes of the node at [p], when there is one. *)
Definition attribs_at (d : Element) (p : path) : option (list (string * string)) :=
  option_map attrib_of (node_at d p).

(* ------------------------------------------------------------------ *)
(** *** Observations used in the statements *)

(** A meta-refresh hop in a trace. *)
Definition is_hop (x : access) : bool :=
  match x with FetchHtml _ => true | _ => false end.

Definition hops (t : trace) : nat := List.length (filter is_hop t).

(** The article with the attributes [download] writes blanked out: two
    articles with the same image differ in those attributes at most. *)
Definition outside_download (a : Article) : Article :=
  set_url "" (set__title "" (set__html "" (set_download_state NOT_STARTED
    (set_download_exception_msg None (set_history [] a))))).

(** A matched node without a usable [href]. *)
Definition no_href (n : Element) : bool := negb (opt_truthy (elem_get "href" n)).

(** Everything [parse] derives from the document is as [__init__] left it. *)
Definition derived_fields_empty (a : Article) : Prop :=
  text a = "" /\ text_cleaned a = "" /\ article_html a = "" /\ authors a = [] /\
  publish_date a = None /\ movies a = [] /\ images a = [] /\ top_image a = "" /\
  meta_img a = "" /\ meta_favicon a = "" /\ meta_description a = "" /\
  meta_lang a = "" /\ meta_site_name a = "" /\ meta_data a = [] /\
  canonical_link a = "" /\ meta_keywords a = [] /\ tags a = [] /\
  keywords a = [] /\ keyword_scores a = [] /\ summary a = "" /\
  top_node a = None /\ clean_top_node a = None /\
  _top_node_complemented a = None /\ doc a = None /\ clean_doc a = None.

(** The classifier as the spec words it: the rules in their priority order,
    each a condition and the verdict it gives; the first rule whose condition
    holds decides, and the article is valid when none does. *)
Definition word_count (a : Article) : Z :=
  Z.of_nat (List.length (str_split " " (text a))).
Definition sentence_count (a : Article) : Z :=
  Z.of_nat (List.length (str_split "." (text a))).
Definition title_token_count (a : Article) : Z :=
  Z.of_nat (List.length (str_split " " (title a))).

Definition validity_rules (a : Article) : list (bool * bool) :=
  [ (String.eqb (meta_data_type (extractor a)) "article"
     && (min_word_count (config a) <? word_count a), true);
    (negb (is_media_news a) && String.eqb (text a) "", false);
    (title_token_count a <? 2, false);
    (word_count a <? min_word_count (config a), false);
    (sentence_count a <? min_sent_count (config a), false);
    (String.eqb (html a) "", false) ].

Fixpoint first_match (rules : list (bool * bool)) (otherwise : bool) : bool :=
  match rules with
  | [] => otherwise
  | (condition, verdict) :: rest =>
      if condition then verdict else first_match rest otherwise
  end.

Definition is_valid_body_spec (a : Article) : result bool :=
  if is_parsed a then Ok (first_match (validity_rules a) true)
  else Raise (ArticleException must_parse_msg).

(** [o] is the first node of [d] in document order that carries [attribs],
    and [None] when no node of [d] carries them. *)
Definition first_in_document_order (attribs : list (string * string)) (d : Element)
    (o : option path) : Prop :=
  match o with
  | Some p =>
      exists before after,
        all_paths d = before ++ p :: after /\
        carries attribs d p = true /\
        forall q, In q before -> carries attribs d q = false
  | None => forall q, In q (all_paths d) -> carries attribs d q = false
  end.


End ArticleModel.

(* ================================================================== *)
(** ** A small world to run the model in *)

Definition url_a : string := "http://example.com/a".
Definition url_b : string := "http://example.com/b".
Definition url_c : string := "http://example.com/c".
Definition url_full : string := "http://example.com/full".
Definition url_missing : string := "http://example.com/missing".

Definition page_a : string :=
  "<meta http-equiv='refresh' content='0;url=http://example.com/b'>".
Definition page_b : string :=
  "<meta http-equiv='refresh' content='0;url=http://example.com/c'>".
Definition page_c : string := "<p>the end of the chain</p>".
Definition page_full : string := "<p>the full story. it has two sentences.</p>".
Definition page_preview : string :=
  "<a class='more'>more</a><a class='more' href='http://example.com/full'>full</a>".

Definition page_marked : string :=
  "<html><div id='1' __newspaper_top_node='xxx'/><div id='2' __newspaper_top_node='xxx'/></html>".

Definition more_selector : string := "//a[@class='more']".

Definition marked_doc : Element :=
  Elem "html" [] ""
    [ Elem "div" [("id", "1"); ("__newspaper_top_node", "xxx")] "" [];
      Elem "div" [("id", "2"); ("__newspaper_top_node", "xxx")] "" [] ].

Definition preview_doc : Element :=
  Elem "html" [] ""
    [ Elem "a" [("class", "more")] "more" [];
      Elem "a" [("class", "more"); ("href", url_full)] "full" [] ].

Definition demo_config : Configuration := {|
  follow_meta_refresh := true;
  use_meta_language := true;
  language := "en";
  max_title := 20;
  max_text := 10;
  max_summary := 15;
  max_summary_sent := 5;
  max_keywords := 2;
  max_authors := 1;
  min_word_count := 3;
  min_sent_count := 2
|}.

(** Modelled from the spec: [urls.prepare_url] belongs to
    [newspaper/urls.py], which is not embedded here; the spec has it
    normalise a URL by resolving it against a base URL. Here a reference that
    begins with a slash is joined to the base and any other is taken as it
    is. *)
Definition demo_prepare_url (reference base : string) : string :=
  if String.prefix "/" reference then (base ++ reference)%string else reference.

Definition demo_text_keywords : dict (@pyfloat rational) :=
  [("a", 8 # 10); ("b", 4 # 10)]%Q.
Definition demo_title_keywords : dict (@pyfloat rational) :=
  [("a", 2 # 10); ("c", 5 # 10)]%Q.

Definition demo_world : Collaborators (F := rational) := {|
  get_html_status := fun _ u _ =>
    if String.eqb u url_a then Response page_a 200 []
    else if String.eqb u url_full then Response page_full 200 [url_full]
    else if String.eqb u url_c then Response page_c 200 []
    else Response "not found" 404 [];
  get_html := fun _ u =>
    if String.eqb u url_b then page_b
    else if String.eqb u url_c then page_c
    else "";
  read_file := fun _ _ => OSError (Some "No such file or directory");
  urlparse_scheme := fun u => if String.prefix "file:" u then "file" else "http";
  urlparse_path := fun u => u;
  extract_meta_refresh := fun h =>
    if String.eqb h page_a then Some url_b
    else if String.eqb h page_b then Some url_c
    else None;
  get_available_languages := ["en"; "de"];
  get_scheme := fun _ => Some "http";
  get_domain := fun _ => "example.com";
  prepare_url := demo_prepare_url;
  fromstring := fun h =>
    if String.eqb h "" then None
    else if String.eqb h page_preview then Some preview_doc
    else if String.eqb h page_marked then Some marked_doc
    else Some (Elem "html" [] h []);
  xpath := fun d sel =>
    if String.eqb sel more_selector
    then filter (has_attribs [("class", "more")]) (children_of d)
    else [];
  node_to_string := fun d =>
    match d with
    | Some (Elem _ _ tx _) => tx
    | None => ""
    end;
  get_unicode_html := fun b => b;
  Extractor := unit;
  ContentExtractor := fun _ => tt;
  get_title := fun _ _ => ("A headline that is longer than the limit", tt);
  get_authors := fun _ _ => (["Ada"; "Grace"], tt);
  get_metadata := fun _ _ _ => (mkMetadata "de" "Example" "" "" [] [] [], tt);
  get_publishing_date := fun _ _ _ => (None, tt);
  calculate_best_node := fun _ d =>
    (match d with Some _ => Some [] | None => None end, tt);
  top_node_complemented := fun _ => Some (Elem "div" [] "body" []);
  get_videos := fun _ _ _ => ([Some (mkVideo (Some "http://example.com/v")); None], tt);
  parse_images := fun _ _ _ _ => tt;
  meta_image := fun _ => "";
  extractor_top_image := fun _ => "";
  extractor_images := fun _ => [];
  favicon := fun _ => "";
  meta_data_type := fun _ => "article";
  readability_summary := fun h => h;
  clean := fun _ d => d;
  get_formatted := fun _ _ _ => ("The full story. It has two sentences.", "<div></div>");
  StopWords := unit;
  stopwords_for := fun _ => tt;
  nlp_keywords := fun t _ _ =>
    if String.eqb t "" then []
    else if String.prefix "A headline" t then demo_title_keywords
    else demo_text_keywords;
  nlp_summarize := fun _ _ _ _ => ["The full story."; "It has two sentences."]
|}.

#[local] Existing Instance rational.
#[local] Existing Instance demo_world.

(** [Article(url, source_url="http://example.com", read_more_link=...)]
    under [demo_config], as its constructor leaves it. *)
Definition demo_article (url_ read_more_link_ : string) : Article :=
  match __init__ url_ "" (Some "http://example.com") read_more_link_ demo_config with
  | Ok a => a
  | Raise _ =>
      mkArticle demo_config tt "" "" "" "" "" "" "" [] [] "" "" [] [] [] [] []
        None "" "" "" false NOT_STARTED None [] "" "" "" "" [] "" None None None
        None None
  end.

(** The article on [url_full], downloaded, and then parsed. *)
Definition demo_downloaded : Article :=
  fst (final_state (download (demo_article url_full "") [] None None 0 false)).

Definition demo_parsed : Article := final_state (parse demo_downloaded).

(** A state dict taken in the parsed state, holding [page_marked]. *)
Definition demo_state : Snapshot := state_dict demo_parsed true (Some page_marked).

(** *** A second world

    The network is down, the extractor finds no top node, and the two
    stored documents parse back from what [node_to_string] makes of them. *)

Definition page_of (name : string) : Element :=
  Elem "html" [] name
    [ Elem "div" [("id", "1")] "" []; Elem "div" [("id", "2")] "story" [] ].

Definition stored_top : Element :=
  set_attr_at "__newspaper_top_node" "xxx" [1%nat] (page_of "top").

Definition stored_both : Element :=
  set_attr_at "__newspaper_top_node_complemented" "xxx" [0%nat]
    (set_attr_at "__newspaper_top_node" "xxx" [1%nat] (page_of "both")).

Definition offline_world : Collaborators (F := rational) := {|
  get_html_status := fun _ _ _ => RequestException "connection refused";
  get_html := fun _ _ => "";
  read_file := fun _ _ => FileContent "<p>read from the disk</p>";
  urlparse_scheme := fun u => if String.prefix "file:" u then "file" else "http";
  urlparse_path := fun u => u;
  extract_meta_refresh := fun _ => None;
  get_available_languages := ["en"; "de"];
  get_scheme := fun _ => Some "http";
  get_domain := fun _ => "example.com";
  prepare_url := demo_prepare_url;
  fromstring := fun h =>
    if String.eqb h "" then None
    else if String.eqb h page_preview then Some preview_doc
    else if String.eqb h "top" then Some stored_top
    else if String.eqb h "both" then Some stored_both
    else Some (Elem "html" [] h []);
  xpath := fun d sel =>
    if String.eqb sel more_selector
    then filter (has_attribs [("class", "more")]) (children_of d)
    else [];
  node_to_string := fun d =>
    match d with
    | Some (Elem _ _ tx _) => tx
    | None => ""
    end;
  get_unicode_html := fun b => b;
  Extractor := unit;
  ContentExtractor := fun _ => tt;
  get_title := fun _ _ => ("Offline", tt);
  get_authors := fun _ _ => ([], tt);
  get_metadata := fun _ _ _ => (mkMetadata "" "" "" "" [] [] [], tt);
  get_publishing_date := fun _ _ _ => (None, tt);
  calculate_best_node := fun _ _ => (None, tt);
  top_node_complemented := fun _ => None;
  get_videos := fun _ _ _ => ([], tt);
  parse_images := fun _ _ _ _ => tt;
  meta_image := fun _ => "";
  extractor_top_image := fun _ => "";
  extractor_images := fun _ => [];
  favicon := fun _ => "";
  meta_data_type := fun _ => "";
  readability_summary := fun h => h;
  clean := fun _ d => d;
  get_formatted := fun _ _ _ => ("", "");
  StopWords := unit;
  stopwords_for := fun _ => tt;
  nlp_keywords := fun _ _ _ => [];
  nlp_summarize := fun _ _ _ _ => []
|}.

(** [Article(url_a, source_url="http://example.com", read_more_link=...)]
    in the second world. *)
Definition offline_article (read_more_link_ : string) : @Article rational offline_world :=
  match @__init__ rational offline_world url_a "" (Some "http://example.com")
          read_more_link_ demo_config with
  | Ok a => a
  | Raise _ =>
      @mkArticle rational offline_world demo_config tt "" "" "" "" "" "" "" [] [] ""
        "" [] [] [] [] [] None "" "" "" false NOT_STARTED None [] "" "" "" "" [] ""
        None None None None None
  end.

(** That article after [download(input_html=page_c)]. *)
Definition offline_given : @Article rational offline_world :=
  fst (final_state (download (offline_article "") [] (Some page_c) None 0 false)).

(** A parsed article of the second world: [doc] is [page_of name], the top
    node its second child, the complemented node as given. *)
Definition offline_parsed (name : string) (h : node_handle)
  : @Article rational offline_world :=
  set__top_node_complemented (Some h)
    (set_top_node (Some [1%nat])
       (set_doc (Some (page_of name)) (set_is_parsed true offline_given))).

(* ================================================================== *)
(** ** Python values: basic facts *)

Unset Implicit Arguments.

Lemma str_take_length (n : nat) (s : string) :
  String.length (str_take n s) = Nat.min n (String.length s).
Proof.
  revert s; induction n as [|n IH]; intros [|c r]; simpl; auto.
Qed.

Lemma str_slice_to_length (n : Z) (s : string) :
  0 <= n -> Z.of_nat (String.length (str_slice_to n s)) <= n.
Proof.
  intros Hn. unfold str_slice_to.
  destruct (0 <=? n) eqn:E; [|apply Z.leb_gt in E; lia].
  rewrite str_take_length. lia.
Qed.

Lemma clipped_length (limit : Z) (value : option string) :
  0 <= limit -> Z.of_nat (String.length (clipped limit value)) <= limit.
Proof.
  intros Hl. destruct value as [v|]; simpl; [|lia].
  destruct (str_truthy v); simpl; [|lia].
  now apply str_slice_to_length.
Qed.

(* ------------------------------------------------------------------ *)
(** *** Dicts *)

Section DictFacts.
Variable V : Type.
Implicit Types (d : dict V) (k : string) (v : V).


Lemma dict_get_set_same k v d : dict_get k (dict_set k v d) = Some v.
Proof.
  induction d as [|[k' v'] d IH]; simpl.
  - now rewrite String.eqb_refl.
  - destruct (String.eqb k k') eqn:E; simpl; rewrite E; auto.
Qed.

Lemma dict_get_set_other k k' v d :
  k <> k' -> dict_get k (dict_set k' v d) = dict_get k d.
Proof.
  intros Hne. induction d as [|[k2 v2] d IH]; simpl.
  - apply String.eqb_neq in Hne. now rewrite Hne.
  - destruct (String.eqb_spec k' k2) as [->|Hne2]; simpl.
    + apply String.eqb_neq in Hne. now rewrite Hne.
    + now rewrite IH.
Qed.




End DictFacts.

(* ================================================================== *)
(** ** Properties of the model *)

Section Properties.
Context {F : PyFloat} {W : Collaborators}.

(* ------------------------------------------------------------------ *)
(** *** The truncating setters *)

Lemma config_assign (x : assignment) (a : Article) : config (assign x a) = config a.
Proof. destruct x; reflexivity. Qed.

Lemma config_assign_all (xs : list assignment) (a : Article) :
  config (assign_all xs a) = config a.
Proof.
  unfold assign_all. revert a.
  induction xs as [|x xs IH]; intros a; simpl; [reflexivity|].
  rewrite IH. apply config_assign.
Qed.

(** Destructs the pairs the collaborators return. *)
Ltac split_calls :=
  repeat match goal with
         | |- context [let '(_, _) := ?e in _] => destruct e
         end.

Lemma parse_text_text_cleaned (title_ : string) (a : Article) :
  top_node (parse_text title_ a) <> None ->
  exists v, text_cleaned (parse_text title_ a)
            = clipped (max_text (config (parse_text title_ a))) v.
Proof.
  unfold parse_text. destruct (top_node a) eqn:Etop.
  - intros _. split_calls. eexists. reflexivity.
  - intros H. congruence.
Qed.




(* ------------------------------------------------------------------ *)
(** *** Download: termination *)

Lemma meta_refresh_target_counter (a : Article) (html_ : string) (rc : Z) (u : string) :
  meta_refresh_target a html_ rc = Some u ->
  rc < 1 /\ follow_meta_refresh (config a) = true /\
  extract_meta_refresh html_ = Some u /\ str_truthy u = true.
Proof.
  unfold meta_refresh_target.
  destruct (follow_meta_refresh (config a)); [|discriminate].
  destruct (extract_meta_refresh html_) as [v|] eqn:E; simpl; [|discriminate].
  destruct (str_truthy v) eqn:Ev; simpl; [|discriminate].
  destruct (rc <? 1) eqn:Erc; [|discriminate].
  intros H; inversion H; subst. apply Z.ltb_lt in Erc. auto.
Qed.

Lemma meta_refresh_target_capped (a : Article) (html_ : string) (rc : Z) :
  1 <= rc -> meta_refresh_target a html_ rc = None.
Proof.
  intros Hrc. destruct (meta_refresh_target a html_ rc) as [u|] eqn:E; [|reflexivity].
  apply meta_refresh_target_counter in E. lia.
Qed.

Lemma download_fuel_enough :
  forall (fuel : nat) (a : Article) (w : trace) (ih t : option string) (rc : Z)
         (irm : bool),
    (Z.to_nat (1 - rc) < fuel)%nat ->
    exists o, download_fuel fuel a w ih t rc irm = Some o.
Proof.
  induction fuel as [|fuel IH]; intros a w ih t rc irm Hfuel; [lia|].
  simpl. destruct (obtain_html a w ih) as [[[html_|] a1] w1]; [|eauto].
  destruct (meta_refresh_target a1 html_ rc) as [u|] eqn:Et.
  - apply meta_refresh_target_counter in Et. apply IH. lia.
  - destruct (follow_read_more a1 w1 html_ irm) as [e|[[h a2] w2]]; eauto.
Qed.

Lemma download_fuel_more :
  forall (fuel : nat) (a : Article) (w : trace) (ih t : option string) (rc : Z)
         (irm : bool) (o : outcome (Article * trace)),
    download_fuel fuel a w ih t rc irm = Some o ->
    forall fuel', (fuel <= fuel')%nat -> download_fuel fuel' a w ih t rc irm = Some o.
Proof.
  induction fuel as [|fuel IH]; intros a w ih t rc irm o Ho fuel' Hle;
    [discriminate|].
  destruct fuel' as [|fuel']; [lia|].
  simpl in *. destruct (obtain_html a w ih) as [[[html_|] a1] w1]; [|exact Ho].
  destruct (meta_refresh_target a1 html_ rc) as [u|]; [|exact Ho].
  eapply IH; [exact Ho | lia].
Qed.

(** [download] is [download_fuel] with any fuel from [download_depth] on. *)
Lemma download_fuel_total (fuel : nat) (a : Article) (w : trace)
    (ih t : option string) (rc : Z) (irm : bool) :
  (download_depth rc <= fuel)%nat ->
  download_fuel fuel a w ih t rc irm = Some (download a w ih t rc irm).
Proof.
  intros Hfuel. unfold download.
  destruct (download_fuel_enough (download_depth rc) a w ih t rc irm) as [o Ho].
  { unfold download_depth. lia. }
  rewrite Ho. eapply download_fuel_more; eauto.
Qed.

Lemma download_fuel_step (fuel : nat) (a : Article) (w : trace)
    (ih t : option string) (rc : Z) (irm : bool) :
  download_fuel (S fuel) a w ih t rc irm =
  match obtain_html a w ih with
  | (None, a1, w1) => Some (Return (a1, w1))
  | (Some html_, a1, w1) =>
      match meta_refresh_target a1 html_ rc with
      | Some u =>
          download_fuel fuel a1 (w1 ++ [FetchHtml u]) (Some (get_html w1 u)) None
            (rc + 1) false
      | None =>
          match follow_read_more a1 w1 html_ irm with
          | inl e => Some (Raised e (a1, w1))
          | inr (h, a2, w2) => Some (Return (finish_download t h a2, w2))
          end
      end
  end.
Proof. reflexivity. Qed.

(** One unfolding of [download]. *)
Lemma download_unfold (a : Article) (w : trace) (ih t : option string) (rc : Z)
    (irm : bool) :
  download a w ih t rc irm =
  match obtain_html a w ih with
  | (None, a1, w1) => Return (a1, w1)
  | (Some html_, a1, w1) =>
      match meta_refresh_target a1 html_ rc with
      | Some u =>
          download a1 (w1 ++ [FetchHtml u]) (Some (get_html w1 u)) None (rc + 1) false
      | None =>
          match follow_read_more a1 w1 html_ irm with
          | inl e => Raised e (a1, w1)
          | inr (h, a2, w2) => Return (finish_download t h a2, w2)
          end
      end
  end.
Proof.
  pose proof (download_fuel_total (S (download_depth (rc + 1))) a w ih t rc irm) as H.
  assert (Hd : (download_depth rc <= S (download_depth (rc + 1)))%nat)
    by (unfold download_depth; lia).
  specialize (H Hd). rewrite download_fuel_step in H.
  destruct (obtain_html a w ih) as [[[html_|] a1] w1].
  - destruct (meta_refresh_target a1 html_ rc) as [u|].
    + rewrite download_fuel_total in H by lia. now inversion H.
    + destruct (follow_read_more a1 w1 html_ irm) as [e|[[h a2] w2]];
        now inversion H.
  - now inversion H.
Qed.

(* ------------------------------------------------------------------ *)
(** *** Download: what it writes and what it accesses *)

Lemma hops_app (t1 t2 : trace) : hops (t1 ++ t2) = (hops t1 + hops t2)%nat.
Proof. unfold hops. now rewrite filter_app, length_app. Qed.

Lemma hops_cons_hop (u : string) (t : trace) : hops (FetchHtml u :: t) = S (hops t).
Proof. reflexivity. Qed.

Lemma _parse_scheme_http_effect (a : Article) (u : option string) (w : trace) :
  forall r a1 w1,
    _parse_scheme_http a u w = (r, a1, w1) ->
    outside_download a1 = outside_download a /\ url a1 = url a /\
    w1 = w ++ [Fetch (opt_or u (url a))].
Proof.
  intros r a1 w1. unfold _parse_scheme_http.
  destruct (get_html_status w (opt_or u (url a)) (config a)) as [h sc hist|msg].
  - destruct (400 <=? sc).
    + destruct (opt_truthy (_detect_protection h));
        intros H; inversion H; subst; auto.
    + intros H; inversion H; subst; auto.
  - intros H; inversion H; subst; auto.
Qed.

Lemma _parse_scheme_file_effect (a : Article) (p : string) (w : trace) :
  forall r a1 w1,
    _parse_scheme_file a p w = (r, a1, w1) ->
    outside_download a1 = outside_download a /\ url a1 = url a /\
    w1 = w ++ [ReadFile p].
Proof.
  intros r a1 w1. unfold _parse_scheme_file.
  destruct (read_file w p); intros H; inversion H; subst; auto.
Qed.

Lemma obtain_html_effect (a : Article) (w : trace) (ih : option string) :
  forall r a1 w1,
    obtain_html a w ih = (r, a1, w1) ->
    outside_download a1 = outside_download a /\ url a1 = url a /\
    exists added, w1 = w ++ added /\ hops added = O.
Proof.
  intros r a1 w1. unfold obtain_html. destruct ih as [given|].
  - intros H; inversion H; subst. repeat split. exists []. now rewrite app_nil_r.
  - destruct (String.eqb (urlparse_scheme (url a)) "file"); intros H.
    + apply _parse_scheme_file_effect in H as (H1 & H2 & H3).
      repeat split; auto. eexists; split; [exact H3|reflexivity].
    + apply _parse_scheme_http_effect in H as (H1 & H2 & H3).
      repeat split; auto. eexists; split; [exact H3|reflexivity].
Qed.

Lemma read_more_loop_effect (nodes : list Element) :
  forall a html_ w h a1 w1,
    read_more_loop nodes a html_ w = (h, a1, w1) ->
    outside_download a1 = outside_download a /\
    exists added, w1 = w ++ added /\ hops added = O.
Proof.
  induction nodes as [|n rest IH]; intros a html_ w h a1 w1; simpl.
  - intros H; inversion H; subst. split; [reflexivity|].
    exists []. now rewrite app_nil_r.
  - destruct (opt_truthy (elem_get "href" n)); [|apply IH].
    destruct (_parse_scheme_http a _ w) as [[[h'|] a2] w2] eqn:E;
      apply _parse_scheme_http_effect in E as (E1 & E2 & E3);
      intros H; inversion H; subst; (split; [exact E1|]);
      eexists; split; reflexivity.
Qed.

Lemma follow_read_more_effect (a : Article) (w : trace) (html_ : string) (irm : bool) :
  forall h a1 w1,
    follow_read_more a w html_ irm = inr (h, a1, w1) ->
    outside_download a1 = outside_download a /\
    exists added, w1 = w ++ added /\ hops added = O.
Proof.
  intros h a1 w1. unfold follow_read_more.
  destruct (negb irm && str_truthy (read_more_link a)).
  - destruct (fromstring html_) as [d|]; [|discriminate].
    intros H; inversion H as [H']. now apply read_more_loop_effect in H'.
  - intros H; inversion H; subst. split; [reflexivity|].
    exists []. now rewrite app_nil_r.
Qed.

Lemma finish_download_effect (t : option string) (h : string) (a : Article) :
  outside_download (finish_download t h a) = outside_download a /\
  download_state (finish_download t h a) = SUCCESS /\
  html (finish_download t h a) = h /\
  url (finish_download t h a) = url a.
Proof.
  unfold finish_download, set_html.
  destruct t; destruct h; simpl; repeat split; reflexivity.
Qed.

(** [download] writes nothing but [url], [title], [html], [history] and the
    download status; it only adds to the trace, and at most
    [1 - recursion_counter] of what it adds are meta-refresh hops. *)
Lemma download_effect :
  forall (n : nat) (rc : Z), (Z.to_nat (1 - rc) <= n)%nat ->
  forall (a : Article) (w : trace) (ih t : option string) (irm : bool),
    let s := final_state (download a w ih t rc irm) in
    outside_download (fst s) = outside_download a /\
    exists added, snd s = w ++ added /\ (hops added <= Z.to_nat (1 - rc))%nat.
Proof.
  induction n as [|n IH]; intros rc Hn a w ih t irm; cbv zeta;
    rewrite download_unfold;
    destruct (obtain_html a w ih) as [[[html_|] a1] w1] eqn:Eo;
    apply obtain_html_effect in Eo as (Eo1 & Eo2 & added1 & Eo3 & Eo4);
    try (simpl; split; [exact Eo1|]; exists added1; split; [exact Eo3|lia]).
  - rewrite meta_refresh_target_capped by lia.
    destruct (follow_read_more a1 w1 html_ irm) as [e|[[h a2] w2]] eqn:Er; simpl.
    + split; [exact Eo1|]. exists added1. split; [exact Eo3|lia].
    + apply follow_read_more_effect in Er as (Er1 & added2 & Er2 & Er3).
      destruct (finish_download_effect t h a2) as (Ef & _).
      split; [congruence|]. exists (added1 ++ added2).
      subst. rewrite app_assoc, hops_app. split; [reflexivity|lia].
  - destruct (meta_refresh_target a1 html_ rc) as [u|] eqn:Et.
    + apply meta_refresh_target_counter in Et as (Hrc & _).
      assert (Hn' : (Z.to_nat (1 - (rc + 1)) <= n)%nat) by lia.
      destruct (IH (rc + 1) Hn' a1 (w1 ++ [FetchHtml u]) (Some (get_html w1 u))
                   None false) as (I1 & added2 & I2 & I3).
      split; [congruence|]. exists (added1 ++ FetchHtml u :: added2).
      split.
      * rewrite I2. subst. now rewrite <- !app_assoc.
      * rewrite hops_app, hops_cons_hop. lia.
    + destruct (follow_read_more a1 w1 html_ irm) as [e|[[h a2] w2]] eqn:Er; simpl.
      * split; [exact Eo1|]. exists added1. split; [exact Eo3|lia].
      * apply follow_read_more_effect in Er as (Er1 & added2 & Er2 & Er3).
        destruct (finish_download_effect t h a2) as (Ef & _).
        split; [congruence|]. exists (added1 ++ added2).
        subst. rewrite app_assoc, hops_app. split; [reflexivity|lia].
Qed.

(** Attributes that [download] leaves alone, read off [outside_download]. *)
Lemma outside_download_keeps (a a1 : Article) :
  outside_download a1 = outside_download a ->
  config a1 = config a /\ read_more_link a1 = read_more_link a /\
  original_url a1 = original_url a /\ is_parsed a1 = is_parsed a.
Proof.
  intros H. repeat split.
  - exact (f_equal config H).
  - exact (f_equal read_more_link H).
  - exact (f_equal original_url H).
  - exact (f_equal is_parsed H).
Qed.


(* ------------------------------------------------------------------ *)
(** *** Download: the read-more link *)

Lemma read_more_loop_no_href (nodes : list Element) (a : Article) (html_ : string)
    (w : trace) :
  Forall (fun m => no_href m = true) nodes ->
  read_more_loop nodes a html_ w = (html_, a, w).
Proof.
  induction 1 as [|n rest Hn _ IH]; simpl; [reflexivity|].
  unfold no_href in Hn. apply negb_true_iff in Hn. now rewrite Hn.
Qed.

Lemma read_more_loop_first_href (pre : list Element) (n : Element)
    (post : list Element) (a : Article) (html_ : string) (w : trace) (h : string) :
  Forall (fun m => no_href m = true) pre ->
  elem_get "href" n = Some h -> str_truthy h = true ->
  read_more_loop (pre ++ n :: post) a html_ w =
  match _parse_scheme_http a (Some (prepare_url h (url a))) w with
  | (Some html', a2, w2) => (html', set_url (prepare_url h (url a)) a2, w2)
  | (None, a2, w2) => (html_, a2, w2)
  end.
Proof.
  intros Hpre Hn Hh. induction Hpre as [|m pre Hm _ IH]; simpl.
  - rewrite Hn. simpl. rewrite Hh. reflexivity.
  - unfold no_href in Hm. apply negb_true_iff in Hm. now rewrite Hm.
Qed.

(** C1 (amended). At the read-more step the resolver passes over the
    matched nodes that carry no usable [href] and re-fetches the first one
    that carries one, and only that one: whatever nodes follow it are not
    looked at, whether the re-fetch succeeds (HTML and [url] replaced) or
    fails (both kept). When no matched node carries a usable [href], nothing
    is fetched and the HTML and [url] keep their values. *)
Theorem read_more_first_usable_href :
  forall a w ih t rc html_ a1 w1 d,
    obtain_html a w ih = (Some html_, a1, w1) ->
    meta_refresh_target a1 html_ rc = None ->
    str_truthy (read_more_link a) = true ->
    fromstring html_ = Some d ->
    (forall pre n post h,
        xpath d (read_more_link a) = pre ++ n :: post ->
        Forall (fun m => no_href m = true) pre ->
        elem_get "href" n = Some h -> str_truthy h = true ->
        let new_url := prepare_url h (url a) in
        let fetched := _parse_scheme_http a1 (Some new_url) w1 in
        exists a',
          download a w ih t rc false = Return (a', snd fetched) /\
          snd fetched = w1 ++ [Fetch (opt_or (Some new_url) (url a))] /\
          match fst (fst fetched) with
          | Some html' => html a' = html' /\ url a' = new_url
          | None => html a' = html_ /\ url a' = url a
          end) /\
    (Forall (fun m => no_href m = true) (xpath d (read_more_link a)) ->
     exists a',
       download a w ih t rc false = Return (a', w1) /\
       html a' = html_ /\ url a' = url a).
Proof.
  intros a w ih t rc html_ a1 w1 d Ho Ht Hlink Hd.
  pose proof Ho as Ho'.
  apply obtain_html_effect in Ho' as (Hout & Hurl & _).
  apply outside_download_keeps in Hout as (_ & Hl & _).
  assert (Hstep : download a w ih t rc false =
                  match read_more_loop (xpath d (read_more_link a)) a1 html_ w1 with
                  | (h, a2, w2) => Return (finish_download t h a2, w2)
                  end).
  { rewrite download_unfold, Ho, Ht. unfold follow_read_more.
    rewrite Hl, Hlink, Hd. reflexivity. }
  split.
  - intros pre n post h Hx Hpre Hn Hh new_url fetched.
    rewrite Hstep, Hx, (read_more_loop_first_href pre n post a1 html_ w1 h Hpre Hn Hh).
    rewrite Hurl. fold new_url. fold fetched.
    destruct fetched as [[r a2] w2] eqn:Ef.
    apply _parse_scheme_http_effect in Ef as (_ & Eu & Ew).
    rewrite Hurl in Eu, Ew.
    destruct r as [html'|]; eexists; (split; [reflexivity|]); simpl;
      (split; [exact Ew|]).
    + destruct (finish_download_effect t html' (set_url new_url a2)) as (_ & _ & F3 & F4).
      split; [exact F3|]. rewrite F4. reflexivity.
    + destruct (finish_download_effect t html_ a2) as (_ & _ & F3 & F4).
      split; [exact F3|]. now rewrite F4.
  - intros Hnone. rewrite Hstep, (read_more_loop_no_href _ a1 html_ w1 Hnone).
    destruct (finish_download_effect t html_ a1) as (_ & _ & F3 & F4).
    eexists. split; [reflexivity|]. split; [exact F3|]. now rewrite F4.
Qed.

(* ------------------------------------------------------------------ *)
(** *** NLP: merging and ranking the keywords *)

Lemma merge_keywords_cons (kws : dict pyfloat) (k : string) (v : pyfloat)
    (rest : dict pyfloat) :
  merge_keywords kws ((k, v) :: rest) =
  merge_keywords
    (match dict_get k kws with
     | Some x => dict_set k (float_half (float_add x v)) kws
     | None => dict_set k v kws
     end) rest.
Proof. reflexivity. Qed.



Lemma insert_by_score_perm (x : string * pyfloat) (l : list (string * pyfloat)) :
  Permutation (insert_by_score x l) (x :: l).
Proof.
  induction l as [|y l IH]; simpl; [reflexivity|].
  destruct (float_ltb (snd x) (snd y)); [|reflexivity].
  rewrite IH. apply perm_swap.
Qed.

Lemma sorted_by_score_perm (l : list (string * pyfloat)) :
  Permutation (sorted_by_score l) l.
Proof.
  induction l as [|x l IH]; simpl; [reflexivity|].
  rewrite insert_by_score_perm. now constructor.
Qed.

Section Ranking.
Hypothesis ltb_asym : forall x y : pyfloat,
    float_ltb x y = true -> float_ltb y x = false.
Hypothesis ltb_negtrans : forall x y z : pyfloat,
    float_ltb x y = false -> float_ltb y z = false -> float_ltb x z = false.


End Ranking.

Lemma list_slice_to_prefix {A : Type} (n : Z) (l : list A) :
  exists dropped, l = list_slice_to n l ++ dropped.
Proof.
  unfold list_slice_to. destruct (0 <=? n); eexists; symmetry; apply firstn_skipn.
Qed.

Lemma list_slice_to_length {A : Type} (n : Z) (l : list A) :
  0 <= n -> Z.of_nat (List.length (list_slice_to n l)) <= n.
Proof.
  intros Hn. unfold list_slice_to.
  destruct (0 <=? n) eqn:E; [|apply Z.leb_gt in E; lia].
  rewrite length_firstn. lia.
Qed.



(* ------------------------------------------------------------------ *)
(** *** Parse *)

Lemma parse_with_document (a : Article) (d : Element) :
  download_state a = SUCCESS -> fromstring (html a) = Some d ->
  parse a = Return (parse_document d (set_clean_doc (Some d) (set_doc (Some d) a))).
Proof.
  intros Hs Hd. unfold parse, throw_if_not_downloaded_verbose. rewrite Hs.
  cbv zeta. change (doc (set_clean_doc _ (set_doc ?x _))) with x.
  change (doc (set_doc ?x _)) with x. now rewrite Hd.
Qed.

Lemma parse_without_document (a : Article) :
  download_state a = SUCCESS -> fromstring (html a) = None ->
  parse a = Return (set_is_parsed true (set_clean_doc None (set_doc None a))).
Proof.
  intros Hs Hd. unfold parse, throw_if_not_downloaded_verbose. rewrite Hs.
  cbv zeta. change (doc (set_clean_doc _ (set_doc ?x _))) with x.
  change (doc (set_doc ?x _)) with x. now rewrite Hd.
Qed.

Lemma parse_raises_iff (a : Article) :
  (download_state a = SUCCESS -> exists a', parse a = Return a') /\
  (download_state a <> SUCCESS ->
   exists msg, parse a = Raised (ArticleException msg) a).
Proof.
  split.
  - intros Hs. destruct (fromstring (html a)) as [d|] eqn:Hd.
    + eexists. now apply parse_with_document with (d := d).
    + eexists. now apply parse_without_document.
  - intros Hs. unfold parse, throw_if_not_downloaded_verbose.
    destruct (download_state a); [eauto | eauto | congruence].
Qed.

Lemma nlp_raises_iff (a : Article) :
  (download_state a = SUCCESS -> is_parsed a = true -> exists a', nlp a = Return a') /\
  (download_state a <> SUCCESS \/ is_parsed a = false ->
   exists msg, nlp a = Raised (ArticleException msg) a).
Proof.
  unfold nlp, throw_if_not_downloaded_verbose, throw_if_not_parsed_verbose. split.
  - intros Hs Hp. rewrite Hs, Hp. simpl. eauto.
  - intros [Hs|Hp].
    + destruct (download_state a); [eauto | eauto | congruence].
    + rewrite Hp. simpl. destruct (download_state a); eauto.
Qed.

Lemma set_is_parsed_keeps (b : bool) (x : Article) :
  top_node (set_is_parsed b x) = top_node x /\
  text_cleaned (set_is_parsed b x) = text_cleaned x /\
  config (set_is_parsed b x) = config x.
Proof. repeat split. Qed.

Lemma parse_document_text_cleaned (d : Element) (a : Article) :
  top_node (parse_document d a) <> None ->
  exists v, text_cleaned (parse_document d a)
            = clipped (max_text (config (parse_document d a))) v.
Proof.
  unfold parse_document. destruct (parse_metadata d a) as [title_ a1]. cbv zeta.
  destruct (set_is_parsed_keeps true
              (parse_text title_ (fetch_images (parse_videos (parse_nodes a1)))))
    as (-> & -> & ->).
  apply parse_text_text_cleaned.
Qed.

(** C4 (amended). Every assignment to [title], [text] or [summary], at any
    point of any sequence of assignments, stores the value cut to the
    configured limit ([value[:limit]], at most [limit] characters for a limit
    that is not negative). [text_cleaned] is a plain attribute: an assignment
    to it stores the value as given, and the clipping to [max_text] is done
    where [parse] computes it. *)
Theorem setters_clip_every_assignment :
  (forall (a : Article) (xs : list assignment) (x : assignment),
      let after := assign x (assign_all xs a) in
      match x with
      | AssignTitle v =>
          title after = clipped (max_title (config a)) v /\
          (0 <= max_title (config a) ->
           Z.of_nat (String.length (title after)) <= max_title (config a))
      | AssignText v =>
          text after = clipped (max_text (config a)) v /\
          (0 <= max_text (config a) ->
           Z.of_nat (String.length (text after)) <= max_text (config a))
      | AssignSummary v =>
          summary after = clipped (max_summary (config a)) v /\
          (0 <= max_summary (config a) ->
           Z.of_nat (String.length (summary after)) <= max_summary (config a))
      | AssignTextCleaned v => text_cleaned after = v
      end) /\
  (forall (a : Article) (d : Element),
      download_state a = SUCCESS -> fromstring (html a) = Some d ->
      let a' := final_state (parse a) in
      top_node a' <> None ->
      0 <= max_text (config a') ->
      Z.of_nat (String.length (text_cleaned a')) <= max_text (config a')).
Proof.
  split.
  - intros a xs x after. subst after.
    destruct x as [v|v|v|v]; simpl; rewrite ?config_assign_all.
    + split; [reflexivity|]. intros Hl. now apply clipped_length.
    + split; [reflexivity|]. intros Hl. now apply clipped_length.
    + reflexivity.
    + split; [reflexivity|]. intros Hl. now apply clipped_length.
  - intros a d Hs Hd. rewrite (parse_with_document a d Hs Hd).
    unfold final_state. cbv zeta. intros Htop Hl.
    destruct (parse_document_text_cleaned d _ Htop) as [v Hv].
    rewrite Hv. now apply clipped_length.
Qed.

Lemma __init___fields (url_ title_ : string) (source_url_ : option string)
    (rml : string) (cfg : Configuration) (a0 : Article) :
  __init__ url_ title_ source_url_ rml cfg = Ok a0 ->
  derived_fields_empty a0 /\ original_url a0 = url a0 /\
  url a0 = prepare_url url_ (source_url a0) /\
  download_state a0 = NOT_STARTED /\ is_parsed a0 = false /\
  read_more_link a0 = rml /\ config a0 = cfg /\ html a0 = "".
Proof.
  unfold __init__.
  destruct source_url_ as [[|c s]|]; simpl.
  - destruct (get_scheme url_) as [[|c s]|]; simpl; intros H; inversion H; subst;
      unfold derived_fields_empty; simpl; repeat split.
  - intros H; inversion H; subst. unfold derived_fields_empty; simpl; repeat split.
  - discriminate.
Qed.

(** C5. After a successful download whose HTML gives no tree, [parse]
    returns without raising, with [is_parsed] set and nothing else written
    but [doc] and [clean_doc], both [None]: on an article that was constructed
    and downloaded, every derived field is still empty. [parse] raises exactly
    when the download state is not SUCCESS, and [nlp] exactly when it is not
    SUCCESS or the article is not parsed; what they raise is an
    [ArticleException] and the object is left as it was. *)
Theorem parse_unparseable_document :
  (forall a,
      download_state a = SUCCESS -> fromstring (html a) = None ->
      parse a = Return (set_is_parsed true (set_clean_doc None (set_doc None a)))) /\
  (forall url_ title_ source_url_ rml cfg a0 w ih t rc irm,
      __init__ url_ title_ source_url_ rml cfg = Ok a0 ->
      let a1 := fst (final_state (download a0 w ih t rc irm)) in
      download_state a1 = SUCCESS -> fromstring (html a1) = None ->
      exists a2,
        parse a1 = Return a2 /\ is_parsed a2 = true /\ derived_fields_empty a2) /\
  (forall a,
      (download_state a = SUCCESS -> exists a', parse a = Return a') /\
      (download_state a <> SUCCESS ->
       exists msg, parse a = Raised (ArticleException msg) a)) /\
  (forall a,
      (download_state a = SUCCESS -> is_parsed a = true ->
       exists a', nlp a = Return a') /\
      (download_state a <> SUCCESS \/ is_parsed a = false ->
       exists msg, nlp a = Raised (ArticleException msg) a)).
Proof.
  split; [|split; [|split]].
  - exact parse_without_document.
  - intros url_ title_ source_url_ rml cfg a0 w ih t rc irm Hinit a1 Hs Hd.
    apply __init___fields in Hinit as (Hempty & _).
    destruct (download_effect (Z.to_nat (1 - rc)) rc (Nat.le_refl _) a0 w ih t irm)
      as (Hout & _).
    fold a1 in Hout.
    assert (Hempty1 : derived_fields_empty a1).
    { change (derived_fields_empty (outside_download a1)). rewrite Hout. exact Hempty. }
    rewrite (parse_without_document a1 Hs Hd). eexists. split; [reflexivity|].
    split; [reflexivity|].
    unfold derived_fields_empty in *. simpl. tauto.
  - exact parse_raises_iff.
  - exact nlp_raises_iff.
Qed.

(* ------------------------------------------------------------------ *)
(** *** Download: a failed response *)

(** What [_parse_scheme_http] records for a status of 400 or more. The
    message is formatted from the parameter [url], which is [None] when
    [download] fetches the article's own URL. *)
Lemma failed_response_message (a : Article) (u : option string) (w : trace)
    (h : string) (sc : Z) (hist : list string) :
  get_html_status w (opt_or u (url a)) (config a) = Response h sc hist ->
  400 <= sc ->
  exists a',
    _parse_scheme_http a u w = (None, a', w ++ [Fetch (opt_or u (url a))]) /\
    download_state a' = FAILED_RESPONSE /\
    download_exception_msg a' =
    Some (match _detect_protection h with
          | Some vendor =>
              "Website protected with " ++ vendor ++ ", url: " ++ fmt_opt u
          | None => "Status code " ++ str_of_int sc ++ " for url " ++ fmt_opt u
          end)%string.
Proof.
  intros Hget Hsc. unfold _parse_scheme_http. rewrite Hget.
  apply Z.leb_le in Hsc. rewrite Hsc.
  assert (Hv : forall p, _detect_protection h = Some p -> str_truthy p = true).
  { unfold _detect_protection. intros p.
    repeat match goal with
           | |- context [if ?c then _ else _] => destruct c
           end; intros Hp; inversion Hp; reflexivity. }
  destruct (_detect_protection h) as [p|] eqn:Ep.
  - simpl opt_truthy. rewrite (Hv p eq_refl).
    eexists. split; [reflexivity|]. split; reflexivity.
  - simpl opt_truthy. eexists. split; [reflexivity|]. split; reflexivity.
Qed.

(* ------------------------------------------------------------------ *)
(** *** Validity *)

Lemma str_truthy_eqb (s : string) : negb (str_truthy s) = String.eqb s "".
Proof. now destruct s. Qed.

Lemma first_match_decides (pre : list (bool * bool)) (v : bool)
    (post : list (bool * bool)) (otherwise : bool) :
  Forall (fun r => fst r = false) pre ->
  first_match (pre ++ (true, v) :: post) otherwise = v.
Proof.
  induction 1 as [|[c v'] pre Hc _ IH]; simpl; [reflexivity|].
  simpl in Hc. now rewrite Hc.
Qed.

Lemma first_match_otherwise (rules : list (bool * bool)) (otherwise : bool) :
  Forall (fun r => fst r = false) rules -> first_match rules otherwise = otherwise.
Proof.
  induction 1 as [|[c v'] pre Hc _ IH]; simpl; [reflexivity|].
  simpl in Hc. now rewrite Hc.
Qed.

Lemma is_valid_body_refines (a : Article) : is_valid_body a = is_valid_body_spec a.
Proof.
  unfold is_valid_body, is_valid_body_spec.
  destruct (is_parsed a); simpl negb; cbv iota; [|reflexivity].
  unfold validity_rules, first_match, word_count, sentence_count, title_token_count.
  rewrite !str_truthy_eqb.
  repeat match goal with
         | |- context [if ?c then _ else _] => destruct c
         end; reflexivity.
Qed.

(** C7. [is_valid_body] raises before parsing and otherwise decides by the
    rules of the spec taken in their order: the verdict is that of the first
    rule whose condition holds, whatever the rules after it say, and the
    article is valid when no condition holds. *)
Theorem is_valid_body_priority_order :
  forall a,
    is_valid_body a = is_valid_body_spec a /\
    (is_parsed a = false ->
     is_valid_body a = Raise (ArticleException must_parse_msg)) /\
    (is_parsed a = true ->
     forall pre verdict post,
       validity_rules a = pre ++ (true, verdict) :: post ->
       Forall (fun r => fst r = false) pre ->
       is_valid_body a = Ok verdict) /\
    (is_parsed a = true ->
     Forall (fun r => fst r = false) (validity_rules a) ->
     is_valid_body a = Ok true).
Proof.
  intros a. rewrite is_valid_body_refines. unfold is_valid_body_spec.
  split; [reflexivity|]. split; [|split].
  - intros ->. reflexivity.
  - intros -> pre verdict post Hrules Hpre.
    now rewrite Hrules, first_match_decides.
  - intros -> Hnone. now rewrite first_match_otherwise.
Qed.

(* ------------------------------------------------------------------ *)
(** *** Pickling *)

Lemma Element_induction (P : Element -> Prop) :
  (forall t at_ tx cs, Forall P cs -> P (Elem t at_ tx cs)) ->
  forall e, P e.
Proof.
  intros H. fix IH 1. intros [t at_ tx cs]. apply H.
  induction cs as [|c cs IHcs]; constructor; [apply IH | exact IHcs].
Qed.

Lemma child_paths_in (ls : list (list path)) :
  forall (i : nat) (p : path),
    In p (child_paths i ls) <->
    exists k ps q, nth_error ls k = Some ps /\ In q ps /\ p = (i + k)%nat :: q.
Proof.
  induction ls as [|ps ls IH]; intros i p; simpl.
  - split; [tauto|]. intros (k & ps & q & Hk & _). now destruct k.
  - rewrite in_app_iff, in_map_iff, IH. split.
    + intros [(q & <- & Hq)|(k & ps' & q & Hk & Hq & ->)].
      * exists O, ps, q. rewrite Nat.add_0_r. auto.
      * exists (S k), ps', q. repeat split; auto. f_equal. lia.
    + intros ([|k] & ps' & q & Hk & Hq & ->); simpl in Hk.
      * inversion Hk; subst. left. exists q. rewrite Nat.add_0_r. auto.
      * right. exists k, ps', q. repeat split; auto. f_equal. lia.
Qed.

(** [all_paths] lists the nodes of the tree, and nothing else. *)
Lemma all_paths_nodes (d : Element) :
  forall p, In p (all_paths d) <-> exists n, node_at d p = Some n.
Proof.
  induction d as [t at_ tx cs IH] using Element_induction. intros p.
  simpl all_paths. simpl In. rewrite child_paths_in. split.
  - intros [<-|(k & ps & q & Hk & Hq & ->)]; [simpl; eauto|].
    rewrite nth_error_map in Hk. simpl.
    destruct (nth_error cs k) as [c|] eqn:Ec; [|discriminate].
    inversion Hk; subst. rewrite Forall_forall in IH.
    apply (IH c); [now apply nth_error_In with k | exact Hq].
  - destruct p as [|k q]; [auto|]. simpl.
    destruct (nth_error cs k) as [c|] eqn:Ec; [|intros [n Hn]; discriminate].
    intros Hn. right. exists k, (all_paths c), q.
    rewrite nth_error_map, Ec. repeat split.
    rewrite Forall_forall in IH. apply (IH c); [now apply nth_error_In with k | exact Hn].
Qed.

Lemma first_node_filter (f : path -> bool) (l : list path) :
  match first_node (filter f l) with
  | Some p =>
      exists before after,
        l = before ++ p :: after /\ f p = true /\
        forall q, In q before -> f q = false
  | None => forall q, In q l -> f q = false
  end.
Proof.
  induction l as [|x l IH]; simpl; [tauto|].
  destruct (f x) eqn:Ex; simpl.
  - exists [], l. repeat split; [exact Ex|]. intros q [].
  - destruct (first_node (filter f l)) as [p|].
    + destruct IH as (before & after & -> & Hp & Hbefore).
      exists (x :: before), after. repeat split; [exact Hp|].
      intros q [<-|Hq]; auto.
    + intros q [<-|Hq]; auto.
Qed.

Lemma first_node_in_document_order (attribs : list (string * string)) (d : Element) :
  first_in_document_order attribs d (first_node (get_elements_by_attribs d attribs)).
Proof.
  unfold first_in_document_order, get_elements_by_attribs.
  apply (first_node_filter (carries attribs d) (all_paths d)).
Qed.

(** C8. After [__setstate__], [clean_doc] and [clean_top_node] are [None]
    whatever the state dict held. From a state taken in the parsed state,
    whose stored HTML parses again, [top_node] and the complemented node are
    each the first node in document order of the re-parsed [doc] that carries
    its sentinel attribute, and [None], without an exception, when no node
    carries it. A state dict of [__getstate__] with the parsed flag set holds
    the stored HTML. *)
Theorem restore_rebinds_nodes :
  (forall state a,
      __setstate__ state = Ok a -> clean_doc a = None /\ clean_top_node a = None) /\
  (forall state,
      st___parsed_state state = false ->
      exists a,
        __setstate__ state = Ok a /\ doc a = None /\ top_node a = None /\
        _top_node_complemented a = None) /\
  (forall state doc_html d,
      st___parsed_state state = true ->
      st__doc_html state = Some doc_html ->
      fromstring doc_html = Some d ->
      exists a top complemented,
        __setstate__ state = Ok a /\ doc a = Some d /\
        top_node a = top /\
        _top_node_complemented a = option_map InDoc complemented /\
        first_in_document_order top_node_sentinel d top /\
        first_in_document_order complemented_sentinel d complemented) /\
  (forall a a' state,
      __getstate__ a = (a', Ok state) ->
      st___parsed_state state = true ->
      st__doc_html state = Some (node_to_string (doc a')) /\
      download_state a = SUCCESS /\ top_node a <> None).
Proof.
  split; [|split; [|split]].
  - intros state a. unfold __setstate__.
    destruct (st___parsed_state state).
    + destruct (st__doc_html state) as [h|]; [|discriminate].
      cbv zeta. change (doc (set_doc ?x _)) with x.
      destruct (fromstring h) as [d|]; [|discriminate].
      destruct (first_node (get_elements_by_attribs d top_node_sentinel));
        destruct (first_node (get_elements_by_attribs d complemented_sentinel));
        intros H; inversion H; subst; split; reflexivity.
    + intros H; inversion H; subst; split; reflexivity.
  - intros state Hp. unfold __setstate__. rewrite Hp.
    eexists. split; [reflexivity|]. repeat split.
  - intros state doc_html d Hp Hh Hd. unfold __setstate__. rewrite Hp, Hh.
    cbv zeta. change (doc (set_doc ?x _)) with x. rewrite Hd.
    pose proof (first_node_in_document_order top_node_sentinel d) as Htop.
    pose proof (first_node_in_document_order complemented_sentinel d) as Hcomp.
    destruct (first_node (get_elements_by_attribs d top_node_sentinel)) as [p|];
      destruct (first_node (get_elements_by_attribs d complemented_sentinel))
        as [q|];
      eexists; eexists; eexists; (split; [reflexivity|]);
      (split; [reflexivity|]); (split; [reflexivity|]);
      (split; [|split; [exact Htop | exact Hcomp]]); reflexivity.
  - intros a a' state. unfold __getstate__.
    destruct (download_state a) eqn:Es;
      try (intros H; inversion H; subst; discriminate).
    destruct (top_node a) as [p|] eqn:Et;
      [|intros H; inversion H; subst; discriminate].
    cbv zeta. change (_top_node_complemented (set_doc _ ?x)) with (_top_node_complemented x).
    destruct (_top_node_complemented a) as [[c|q]|];
      intros H; inversion H; subst; intros _;
      (split; [reflexivity|split; [reflexivity|discriminate]]).
Qed.

(* ------------------------------------------------------------------ *)
(** *** The original URL *)













(* ------------------------------------------------------------------ *)
(** *** The html setter *)


End Properties.

(* ================================================================== *)
(** ** Further properties of the model *)

(* ------------------------------------------------------------------ *)
(** *** Strings *)

Lemma str_app_assoc (s1 s2 s3 : string) :
  ((s1 ++ s2) ++ s3 = s1 ++ s2 ++ s3)%string.
Proof. induction s1 as [|c s1 IH]; simpl; [reflexivity|now rewrite IH]. Qed.

Lemma str_app_length (s1 s2 : string) :
  String.length (s1 ++ s2) = (String.length s1 + String.length s2)%nat.
Proof. induction s1 as [|c s1 IH]; simpl; [reflexivity|now rewrite IH]. Qed.

Lemma prefix_app (n post : string) : String.prefix n (n ++ post) = true.
Proof.
  induction n as [|c n IH]; simpl; [now destruct post|].
  destruct (ascii_dec c c); [exact IH|congruence].
Qed.

Lemma prefix_split (n h : string) :
  String.prefix n h = true -> exists post, h = (n ++ post)%string.
Proof.
  revert h. induction n as [|c n IH]; intros h.
  - intros _. now exists h.
  - destruct h as [|b h]; simpl; [discriminate|].
    destruct (ascii_dec c b) as [->|]; [|discriminate].
    intros H. destruct (IH h H) as [post ->]. now exists post.
Qed.

Lemma str_contains_nil (n : string) : str_contains n "" = String.prefix n "".
Proof. unfold str_contains. now destruct (String.prefix n ""). Qed.

Lemma str_contains_cons (n : string) (c : ascii) (h : string) :
  str_contains n (String c h) = String.prefix n (String c h) || str_contains n h.
Proof. reflexivity. Qed.

(** [str_contains] decides occurrence as a substring. *)
Lemma str_contains_occurs (n h : string) :
  str_contains n h = true <-> occurs_in n h.
Proof.
  unfold occurs_in. split.
  - induction h as [|c h IH].
    + rewrite str_contains_nil. intros E.
      apply prefix_split in E as [post ->]. now exists "", post.
    + rewrite str_contains_cons, orb_true_iff. intros [E|H].
      * apply prefix_split in E as [post E]. exists "", post. exact E.
      * destruct (IH H) as (pre & post & ->). now exists (String c pre), post.
  - intros (pre & post & ->). induction pre as [|c pre IH].
    + change ("" ++ n ++ post)%string with (n ++ post)%string.
      destruct (n ++ post)%string as [|b r] eqn:E.
      * rewrite str_contains_nil, <- E. apply prefix_app.
      * rewrite str_contains_cons, <- E, prefix_app. reflexivity.
    + change (String c pre ++ n ++ post)%string
        with (String c (pre ++ n ++ post)%string).
      rewrite str_contains_cons, IH. apply orb_true_r.
Qed.

Lemma occurs_in_wider (n h before after : string) :
  occurs_in n h -> occurs_in n (before ++ h ++ after).
Proof.
  intros (pre & post & ->). exists (before ++ pre)%string, (post ++ after)%string.
  now rewrite !str_app_assoc.
Qed.

Section Further.
Context {F : PyFloat} {W : Collaborators}.

(* ------------------------------------------------------------------ *)
(** *** Construction *)

(** X1. The constructor accepts every string as source URL: it raises,
    with "input url bad format", only for a source URL that is [None]. An
    empty source URL is replaced by scheme, "://" and domain of the article
    URL, the scheme being "http" when the URL has none; any other is kept.
    The article starts out not downloaded, not parsed, with [url] and
    [original_url] equal and the title cut to [max_title]. *)
Theorem constructor_accepts_every_source_string :
  forall url_ title_ rml cfg,
    __init__ url_ title_ None rml cfg = Raise (ArticleException "input url bad format") /\
    forall source,
    exists a0,
      __init__ url_ title_ (Some source) rml cfg = Ok a0 /\
      source_url a0 <> "" /\
      (source <> "" -> source_url a0 = source) /\
      (source = "" ->
       source_url a0
       = ((match get_scheme url_ with Some sc => sc | None => "http" end)
          ++ "://" ++ get_domain url_)%string) /\
      url a0 = prepare_url url_ (source_url a0) /\
      original_url a0 = url a0 /\
      title a0 = clipped (max_title cfg) (Some title_) /\
      download_state a0 = NOT_STARTED /\ is_parsed a0 = false /\
      download_exception_msg a0 = None /\ html a0 = "".
Proof.
  intros url_ title_ rml cfg. split; [reflexivity|].
  intros [|c s]; unfold __init__.
  - destruct (get_scheme url_) as [[|b sc]|]; simpl;
      eexists; (split; [reflexivity|]); simpl;
      repeat split; try reflexivity; try discriminate; congruence.
  - eexists. split; [reflexivity|]. simpl.
    repeat split; try reflexivity; try discriminate.
Qed.

(* ------------------------------------------------------------------ *)
(** *** The protection detector and the media test *)

(** X2. [_detect_protection] answers with one of three vendor names or
    with [None]; it answers "Cloudflare" exactly when one of the three
    Cloudflare markers occurs in the body, whatever else occurs, and [None]
    exactly when none of the five markers occurs. A body that is detected
    stays detected inside any larger body, and stays "Cloudflare" if it was. *)
Theorem detect_protection_by_markers :
  forall body,
    (forall vendor,
        _detect_protection body = Some vendor ->
        In vendor ["Cloudflare"; "CloudFront"; "PerimeterX"]) /\
    (_detect_protection body = Some "Cloudflare" <->
     exists m, In m cloudflare_markers /\ occurs_in m body) /\
    (_detect_protection body = None <->
     forall m, In m (cloudflare_markers ++ ["CloudFront"; "perimeterx"]) ->
               ~ occurs_in m body) /\
    (forall before after,
        (_detect_protection body = Some "Cloudflare" ->
         _detect_protection (before ++ body ++ after) = Some "Cloudflare") /\
        (_detect_protection body <> None ->
         _detect_protection (before ++ body ++ after) <> None)).
Proof.
  assert (Hcf : forall b,
             _detect_protection b = Some "Cloudflare" <->
             exists m, In m cloudflare_markers /\ occurs_in m b).
  { intros b. unfold _detect_protection, cloudflare_markers. split.
    - destruct (str_contains "cloudflare" b) eqn:E1.
      { intros _. eexists. split; [left; reflexivity|]. now apply str_contains_occurs. }
      destruct (str_contains "/cdn-cgi/challenge-platform/h/b/orchestrate/chl_page" b)
        eqn:E2.
      { intros _. eexists. split; [right; left; reflexivity|].
        now apply str_contains_occurs. }
      destruct (str_contains "cloud-flare" b) eqn:E3.
      { intros _. eexists. split; [right; right; left; reflexivity|].
        now apply str_contains_occurs. }
      destruct (str_contains "CloudFront" b); [discriminate|].
      destruct (str_contains "perimeterx" b); discriminate.
    - intros (m & Hm & Hocc). apply str_contains_occurs in Hocc.
      destruct Hm as [<-|[<-|[<-|[]]]]; rewrite Hocc;
        repeat match goal with
               | |- context [if ?c then _ else _] => destruct c
               end; reflexivity. }
  assert (Hnone : forall b,
             _detect_protection b = None <->
             forall m, In m (cloudflare_markers ++ ["CloudFront"; "perimeterx"]) ->
                       ~ occurs_in m b).
  { intros b. unfold _detect_protection, cloudflare_markers. simpl. split.
    - destruct (str_contains "cloudflare" b) eqn:E1; [discriminate|].
      destruct (str_contains "/cdn-cgi/challenge-platform/h/b/orchestrate/chl_page" b)
        eqn:E2; [discriminate|].
      destruct (str_contains "cloud-flare" b) eqn:E3; [discriminate|].
      destruct (str_contains "CloudFront" b) eqn:E4; [discriminate|].
      destruct (str_contains "perimeterx" b) eqn:E5; [discriminate|].
      intros _ m Hm Hocc. apply str_contains_occurs in Hocc.
      destruct Hm as [<-|[<-|[<-|[<-|[<-|[]]]]]]; congruence.
    - intros Hno.
      assert (Hc : forall m,
                 In m ["cloudflare";
                       "/cdn-cgi/challenge-platform/h/b/orchestrate/chl_page";
                       "cloud-flare"; "CloudFront"; "perimeterx"] ->
                 str_contains m b = false).
      { intros m Hm. destruct (str_contains m b) eqn:E; [|reflexivity].
        exfalso. apply (Hno m Hm). now apply str_contains_occurs. }
      rewrite !Hc by (simpl; tauto). reflexivity. }
  intros body. split; [|split; [apply Hcf|split; [apply Hnone|]]].
  - intros vendor. unfold _detect_protection.
    repeat match goal with
           | |- context [if ?c then _ else _] => destruct c
           end; intros H; inversion H; simpl; tauto.
  - intros before after. split.
    + rewrite !Hcf. intros (m & Hm & Hocc). exists m. split; [exact Hm|].
      now apply occurs_in_wider.
    + intros Hsome Hnone'. apply Hsome. apply Hnone. intros m Hm Hocc.
      rewrite Hnone in Hnone'. apply (Hnone' m Hm). now apply occurs_in_wider.
Qed.

(** X3. [is_media_news] holds exactly when one of the seven markers occurs
    in the URL, letter case included. *)
Theorem is_media_news_by_markers :
  forall a,
    is_media_news a = true <-> exists m, In m safe_urls /\ occurs_in m (url a).
Proof.
  intros a. unfold is_media_news. rewrite existsb_exists.
  split; intros (m & Hm & H); exists m; (split; [exact Hm|]);
    now apply str_contains_occurs.
Qed.

(* ------------------------------------------------------------------ *)
(** *** Download *)

(** Induction over the calls of [download]: the failed fetch, the followed
    meta-refresh, the failed parse before the read-more step, and the
    stored HTML. *)
Lemma download_cases
    (P : Article -> trace -> option string -> option string -> Z -> bool
         -> outcome (Article * trace) -> Prop) :
  (forall a w ih t rc irm a1 w1,
      obtain_html a w ih = (None, a1, w1) ->
      P a w ih t rc irm (Return (a1, w1))) ->
  (forall a w ih t rc irm h a1 w1 u,
      obtain_html a w ih = (Some h, a1, w1) ->
      meta_refresh_target a1 h rc = Some u ->
      P a1 (w1 ++ [FetchHtml u]) (Some (get_html w1 u)) None (rc + 1) false
        (download a1 (w1 ++ [FetchHtml u]) (Some (get_html w1 u)) None (rc + 1) false) ->
      P a w ih t rc irm
        (download a1 (w1 ++ [FetchHtml u]) (Some (get_html w1 u)) None (rc + 1) false)) ->
  (forall a w ih t rc irm h a1 w1 e,
      obtain_html a w ih = (Some h, a1, w1) ->
      meta_refresh_target a1 h rc = None ->
      follow_read_more a1 w1 h irm = inl e ->
      P a w ih t rc irm (Raised e (a1, w1))) ->
  (forall a w ih t rc irm h a1 w1 h' a2 w2,
      obtain_html a w ih = (Some h, a1, w1) ->
      meta_refresh_target a1 h rc = None ->
      follow_read_more a1 w1 h irm = inr (h', a2, w2) ->
      P a w ih t rc irm (Return (finish_download t h' a2, w2))) ->
  forall a w ih t rc irm, P a w ih t rc irm (download a w ih t rc irm).
Proof.
  intros Hfail Hhop Hraise Hdone.
  enough (H : forall n rc, (Z.to_nat (1 - rc) <= n)%nat ->
              forall a w ih t irm, P a w ih t rc irm (download a w ih t rc irm)).
  { intros a w ih t rc irm. now apply (H (Z.to_nat (1 - rc))). }
  induction n as [|n IH]; intros rc Hn a w ih t irm; rewrite download_unfold;
    destruct (obtain_html a w ih) as [[[h|] a1] w1] eqn:Eo;
    try (now apply Hfail);
    destruct (meta_refresh_target a1 h rc) as [u|] eqn:Et.
  - apply meta_refresh_target_counter in Et. lia.
  - destruct (follow_read_more a1 w1 h irm) as [e|[[h' a2] w2]] eqn:Er;
      [now apply Hraise with h | now apply Hdone with h a1 w1].
  - apply Hhop with h; try assumption. apply IH.
    apply meta_refresh_target_counter in Et. lia.
  - destruct (follow_read_more a1 w1 h irm) as [e|[[h' a2] w2]] eqn:Er;
      [now apply Hraise with h | now apply Hdone with h a1 w1].
Qed.

(** Fetching and the read-more loop leave [title] and [html] alone. *)
Lemma _parse_scheme_http_keeps (a : Article) (u : option string) (w : trace) :
  forall r a1 w1,
    _parse_scheme_http a u w = (r, a1, w1) ->
    title a1 = title a /\ html a1 = html a /\
    (r <> None -> download_state a1 = download_state a /\
                  download_exception_msg a1 = download_exception_msg a) /\
    (r = None -> download_state a1 = FAILED_RESPONSE).
Proof.
  intros r a1 w1. unfold _parse_scheme_http.
  destruct (get_html_status w (opt_or u (url a)) (config a)) as [h sc hist|msg].
  - destruct (400 <=? sc).
    + destruct (opt_truthy (_detect_protection h));
        intros H; inversion H; subst; repeat split; congruence.
    + intros H; inversion H; subst; repeat split; congruence.
  - intros H; inversion H; subst; repeat split; congruence.
Qed.

Lemma obtain_html_keeps (a : Article) (w : trace) (ih : option string) :
  forall r a1 w1,
    obtain_html a w ih = (r, a1, w1) ->
    title a1 = title a /\ html a1 = html a /\
    (r <> None -> download_state a1 = download_state a /\
                  download_exception_msg a1 = download_exception_msg a) /\
    (r = None -> download_state a1 = FAILED_RESPONSE /\ ih = None).
Proof.
  intros r a1 w1. unfold obtain_html. destruct ih as [given|].
  - intros H; inversion H; subst. repeat split; congruence.
  - destruct (String.eqb (urlparse_scheme (url a)) "file").
    + unfold _parse_scheme_file. destruct (read_file w (urlparse_path (url a)));
        intros H; inversion H; subst; repeat split; congruence.
    + intros H. apply _parse_scheme_http_keeps in H as (H1 & H2 & H3 & H4).
      split; [exact H1|]. split; [exact H2|]. split; [exact H3|].
      intros Hr. split; [now apply H4|reflexivity].
Qed.

Lemma read_more_loop_keeps (nodes : list Element) :
  forall a h w h' a1 w1,
    read_more_loop nodes a h w = (h', a1, w1) ->
    title a1 = title a /\ html a1 = html a.
Proof.
  induction nodes as [|n rest IH]; intros a h w h' a1 w1; simpl.
  - intros H; inversion H; subst. split; reflexivity.
  - destruct (opt_truthy (elem_get "href" n)); [|apply IH].
    destruct (_parse_scheme_http a _ w) as [[[b|] a2] w2] eqn:E;
      apply _parse_scheme_http_keeps in E as (E1 & E2 & _);
      intros H; inversion H; subst; split; assumption.
Qed.

Lemma follow_read_more_keeps (a : Article) (w : trace) (h : string) (irm : bool) :
  forall h' a1 w1,
    follow_read_more a w h irm = inr (h', a1, w1) ->
    title a1 = title a /\ html a1 = html a.
Proof.
  intros h' a1 w1. unfold follow_read_more.
  destruct (negb irm && str_truthy (read_more_link a)).
  - destruct (fromstring h) as [d|]; [|discriminate].
    intros H; inversion H as [H']. now apply read_more_loop_keeps in H'.
  - intros H; inversion H; subst. split; reflexivity.
Qed.

(** X4. When the fetch of the article's URL fails, by an exception of the
    transport or by a status of 400 or more, [download] returns (it does not
    raise) after that one access, with the state FAILED_RESPONSE and a
    message, and with [html], [title], [url] and [is_parsed] as they were:
    a [title] argument is not applied. *)
Theorem download_failed_fetch :
  forall a w t rc irm,
    urlparse_scheme (url a) <> "file" ->
    (exists msg, get_html_status w (url a) (config a) = RequestException msg) \/
    (exists h sc hist,
        get_html_status w (url a) (config a) = Response h sc hist /\ 400 <= sc) ->
    exists a',
      download a w None t rc irm = Return (a', w ++ [Fetch (url a)]) /\
      download_state a' = FAILED_RESPONSE /\
      download_exception_msg a' <> None /\
      html a' = html a /\ title a' = title a /\ url a' = url a /\
      is_parsed a' = is_parsed a.
Proof.
  intros a w t rc irm Hscheme Hfail. apply String.eqb_neq in Hscheme.
  rewrite download_unfold. unfold obtain_html. rewrite Hscheme.
  destruct Hfail as [[msg Hget]|(h & sc & hist & Hget & Hsc)].
  - unfold _parse_scheme_http. simpl opt_or. rewrite Hget.
    eexists. split; [reflexivity|]. simpl. repeat split. discriminate.
  - destruct (failed_response_message a None w h sc hist Hget Hsc)
      as (a' & Hp & Hs & Hm).
    rewrite Hp. exists a'. split; [reflexivity|].
    pose proof Hp as Hk. apply _parse_scheme_http_keeps in Hk as (K1 & K2 & _).
    apply _parse_scheme_http_effect in Hp as (Hout & Hu & _).
    apply outside_download_keeps in Hout as (_ & _ & _ & Hparsed).
    repeat split; try assumption. rewrite Hm. discriminate.
Qed.

(** X5. For a URL of scheme "file", [download] reads the file and does not
    touch the network. A read that fails gives FAILED_RESPONSE with the
    error's [strerror] as message (which may be [None]) and leaves [html];
    a read that succeeds, with nothing to follow in the content, stores the
    content and gives SUCCESS. *)
Theorem download_file_scheme :
  forall a w t rc irm,
    urlparse_scheme (url a) = "file" ->
    let file := urlparse_path (url a) in
    (forall strerror,
        read_file w file = OSError strerror ->
        exists a',
          download a w None t rc irm = Return (a', w ++ [ReadFile file]) /\
          download_state a' = FAILED_RESPONSE /\
          download_exception_msg a' = strerror /\
          html a' = html a /\ title a' = title a) /\
    (forall content,
        read_file w file = FileContent content ->
        meta_refresh_target a content rc = None ->
        irm = true \/ read_more_link a = "" ->
        exists a',
          download a w None t rc irm = Return (a', w ++ [ReadFile file]) /\
          download_state a' = SUCCESS /\ html a' = content /\ url a' = url a).
Proof.
  intros a w t rc irm Hscheme file. apply String.eqb_eq in Hscheme.
  split.
  - intros strerror Hread. rewrite download_unfold. unfold obtain_html.
    rewrite Hscheme. unfold _parse_scheme_file. fold file. rewrite Hread.
    eexists. split; [reflexivity|]. repeat split.
  - intros content Hread Hmeta Hrm. rewrite download_unfold. unfold obtain_html.
    rewrite Hscheme. unfold _parse_scheme_file. fold file. rewrite Hread, Hmeta.
    assert (Hr : follow_read_more a (w ++ [ReadFile file]) content irm
                 = inr (content, a, w ++ [ReadFile file])).
    { unfold follow_read_more. destruct Hrm as [-> | ->]; [reflexivity|].
      simpl. now rewrite andb_false_r. }
    rewrite Hr. destruct (finish_download_effect t content a) as (_ & F2 & F3 & F4).
    eexists. split; [reflexivity|]. repeat split; assumption.
Qed.

(** X6. A call of [download] that returns never leaves the article in
    NOT_STARTED: the state is SUCCESS, or it is FAILED_RESPONSE after a
    failed fetch, which can only be when no [input_html] was given and which
    leaves [html] and [title] as they were. *)
Theorem download_settles_the_state :
  forall a w ih t rc irm a' w',
    download a w ih t rc irm = Return (a', w') ->
    download_state a' = SUCCESS \/
    (download_state a' = FAILED_RESPONSE /\ ih = None /\
     html a' = html a /\ title a' = title a).
Proof.
  intros a w ih t rc irm.
  apply (download_cases
           (fun a w ih t rc irm o =>
              forall a' w', o = Return (a', w') ->
                download_state a' = SUCCESS \/
                (download_state a' = FAILED_RESPONSE /\ ih = None /\
                 html a' = html a /\ title a' = title a))).
  - clear. intros a w ih t rc irm a1 w1 Ho a' w' H. inversion H; subst.
    apply obtain_html_keeps in Ho as (K1 & K2 & _ & K4).
    destruct (K4 eq_refl). right. auto.
  - clear. intros a w ih t rc irm h a1 w1 u Ho Ht IH a' w' H.
    destruct (IH a' w' H) as [Hs|(_ & Hih & _)]; [now left|discriminate].
  - clear. intros; discriminate.
  - clear. intros a w ih t rc irm h a1 w1 h' a2 w2 _ _ _ a' w' H.
    inversion H; subst. left. apply finish_download_effect.
Qed.

(** X7. Without a read-more selector [download] always returns, and it
    returns with [url] as it was: following a meta-refresh does not move
    [url] to the target. *)
Theorem download_without_read_more_keeps_url :
  forall a w ih t rc irm,
    read_more_link a = "" ->
    exists a' w',
      download a w ih t rc irm = Return (a', w') /\ url a' = url a.
Proof.
  intros a w ih t rc irm.
  apply (download_cases
           (fun a w ih t rc irm o =>
              read_more_link a = "" ->
              exists a' w', o = Return (a', w') /\ url a' = url a)).
  - clear. intros a w ih t rc irm a1 w1 Ho _.
    apply obtain_html_effect in Ho as (_ & Hu & _). eauto.
  - clear. intros a w ih t rc irm h a1 w1 u Ho _ IH Hrm.
    apply obtain_html_effect in Ho as (Hout & Hu & _).
    apply outside_download_keeps in Hout as (_ & Hl & _).
    destruct IH as (a' & w' & Hd & Hurl); [congruence|].
    exists a', w'. split; [exact Hd|congruence].
  - clear. intros a w ih t rc irm h a1 w1 e Ho _ Hr Hrm.
    apply obtain_html_effect in Ho as (Hout & _).
    apply outside_download_keeps in Hout as (_ & Hl & _).
    unfold follow_read_more in Hr. rewrite Hl, Hrm in Hr. simpl in Hr.
    rewrite andb_false_r in Hr. discriminate.
  - clear. intros a w ih t rc irm h a1 w1 h' a2 w2 Ho _ Hr Hrm.
    apply obtain_html_effect in Ho as (Hout & Hu & _).
    apply outside_download_keeps in Hout as (_ & Hl & _).
    unfold follow_read_more in Hr. rewrite Hl, Hrm in Hr. simpl in Hr.
    rewrite andb_false_r in Hr. inversion Hr; subst.
    destruct (finish_download_effect t h' a2) as (_ & _ & _ & F4).
    eexists. eexists. split; [reflexivity|]. congruence.
Qed.

Lemma download_without_title_keeps_title :
  forall a w ih rc irm,
    title (fst (final_state (download a w ih None rc irm))) = title a.
Proof.
  intros a w ih rc irm.
  enough (H : forall t, t = None ->
                title (fst (final_state (download a w ih t rc irm))) = title a)
    by now apply H.
  intros t.
  apply (download_cases
           (fun a w ih t rc irm o =>
              t = None -> title (fst (final_state o)) = title a)).
  - clear. intros a w ih t rc irm a1 w1 Ho _.
    now apply obtain_html_keeps in Ho as (K1 & _).
  - clear. intros a w ih t rc irm h a1 w1 u Ho _ IH _.
    apply obtain_html_keeps in Ho as (K1 & _). rewrite IH; auto.
  - clear. intros a w ih t rc irm h a1 w1 e Ho _ _ _.
    now apply obtain_html_keeps in Ho as (K1 & _).
  - clear. intros a w ih t rc irm h a1 w1 h' a2 w2 Ho _ Hr ->.
    apply obtain_html_keeps in Ho as (K1 & _).
    apply follow_read_more_keeps in Hr as (R1 & _).
    unfold final_state, fst, finish_download, set_html, title in *.
    destruct (html_value_truthy (HStr h')); simpl; congruence.
Qed.

(** X8. When [download] follows a meta-refresh, the recursive call is made
    without the caller's [title] and [ignore_read_more]: the outcome is the
    one for no title and [ignore_read_more=False], and the article keeps its
    title. *)
Theorem meta_refresh_drops_title_and_ignore_read_more :
  forall a w ih t rc irm h a1 w1 u,
    obtain_html a w ih = (Some h, a1, w1) ->
    meta_refresh_target a1 h rc = Some u ->
    download a w ih t rc irm = download a w ih None rc false /\
    title (fst (final_state (download a w ih t rc irm))) = title a.
Proof.
  intros a w ih t rc irm h a1 w1 u Ho Ht.
  assert (Heq : download a w ih t rc irm = download a w ih None rc false).
  { rewrite !download_unfold, Ho, Ht. reflexivity. }
  split; [exact Heq|]. rewrite Heq. apply download_without_title_keeps_title.
Qed.

(** X9. When the re-fetch of the read-more link fails, [download] still
    returns with SUCCESS, on the HTML and the [url] it had, and the failure
    is to be seen only in [download_exception_msg], which is set although
    the state is SUCCESS. *)
Theorem failed_read_more_ends_in_success :
  forall a w ih t rc html_ a1 w1 d pre n post h,
    obtain_html a w ih = (Some html_, a1, w1) ->
    meta_refresh_target a1 html_ rc = None ->
    str_truthy (read_more_link a) = true ->
    fromstring html_ = Some d ->
    xpath d (read_more_link a) = pre ++ n :: post ->
    Forall (fun m => no_href m = true) pre ->
    elem_get "href" n = Some h -> str_truthy h = true ->
    let target := opt_or (Some (prepare_url h (url a))) (url a) in
    (exists msg, get_html_status w1 target (config a) = RequestException msg) \/
    (exists b sc hist,
        get_html_status w1 target (config a) = Response b sc hist /\ 400 <= sc) ->
    exists a',
      download a w ih t rc false = Return (a', w1 ++ [Fetch target]) /\
      download_state a' = SUCCESS /\
      download_exception_msg a' <> None /\
      html a' = html_ /\ url a' = url a.
Proof.
  intros a w ih t rc html_ a1 w1 d pre n post h Ho Ht Hlink Hd Hx Hpre Hn Hh
    target Hfail.
  pose proof Ho as Ho'.
  apply obtain_html_effect in Ho' as (Hout & Hurl & _).
  apply outside_download_keeps in Hout as (Hcfg & Hl & _).
  assert (Hfetch : exists a2,
             _parse_scheme_http a1 (Some (prepare_url h (url a1))) w1
             = (None, a2, w1 ++ [Fetch target]) /\
             download_exception_msg a2 <> None /\ url a2 = url a1).
  { unfold target in *. rewrite <- Hurl, <- Hcfg in *.
    destruct Hfail as [[msg Hget]|(b & sc & hist & Hget & Hsc)].
    - unfold _parse_scheme_http. rewrite Hget.
      eexists. split; [reflexivity|]. split; [discriminate|reflexivity].
    - destruct (failed_response_message a1 _ w1 b sc hist Hget Hsc)
        as (a2 & Hp & _ & Hm).
      exists a2. split; [exact Hp|]. split; [rewrite Hm; discriminate|].
      now apply _parse_scheme_http_effect in Hp as (_ & Hu & _). }
  destruct Hfetch as (a2 & Hp & Hmsg & Hu2).
  rewrite download_unfold, Ho, Ht. unfold follow_read_more.
  rewrite Hl, Hlink, Hd, Hx. simpl negb. simpl andb.
  rewrite (read_more_loop_first_href pre n post a1 html_ w1 h Hpre Hn Hh), Hp.
  eexists. split; [reflexivity|].
  unfold finish_download, set_html.
  destruct (html_value_truthy (HStr html_)) eqn:Ev;
    destruct t; simpl; repeat split; try assumption; try congruence;
    destruct html_; simpl in Ev; congruence.
Qed.

(** X10. Given the HTML by the caller, with no meta-refresh to follow in it
    and no read-more selector in play, [download] touches nothing outside:
    it stores the HTML, sets SUCCESS, applies the [title] argument cut to
    [max_title] if there is one, and leaves [url] and also an earlier
    [download_exception_msg] as they were. *)
Theorem download_of_given_html :
  forall a w h t rc irm,
    meta_refresh_target a h rc = None ->
    irm = true \/ read_more_link a = "" ->
    exists a',
      download a w (Some h) t rc irm = Return (a', w) /\
      download_state a' = SUCCESS /\ html a' = h /\ url a' = url a /\
      title a' = match t with
                 | Some forced => clipped (max_title (config a)) (Some forced)
                 | None => title a
                 end /\
      download_exception_msg a' = download_exception_msg a.
Proof.
  intros a w h t rc irm Hmeta Hrm.
  rewrite download_unfold. simpl obtain_html. cbv iota beta. rewrite Hmeta.
  assert (Hr : follow_read_more a w h irm = inr (h, a, w)).
  { unfold follow_read_more. destruct Hrm as [-> | ->]; [reflexivity|].
    simpl. now rewrite andb_false_r. }
  rewrite Hr. destruct (finish_download_effect t h a) as (_ & F2 & F3 & F4).
  eexists. split; [reflexivity|]. split; [exact F2|]. split; [exact F3|].
  split; [exact F4|].
  unfold finish_download, set_html.
  destruct (html_value_truthy (HStr h)); destruct t; simpl; split; reflexivity.
Qed.

(** X11. [download] writes [url], [title], [html], [history] and the
    download status, and nothing else: what an earlier [parse] or [nlp] left
    in the article, [is_parsed] included, is still there after a new
    download, whether it returns or raises. It only adds to the trace, and
    of what it adds at most [1 - recursion_counter] accesses are
    meta-refresh hops, none for a counter of 1 or more. *)
Theorem download_leaves_parse_results :
  forall a w ih t rc irm,
    let a' := fst (final_state (download a w ih t rc irm)) in
    let w' := snd (final_state (download a w ih t rc irm)) in
    outside_download a' = outside_download a /\
    is_parsed a' = is_parsed a /\ text a' = text a /\
    text_cleaned a' = text_cleaned a /\ authors a' = authors a /\
    keywords a' = keywords a /\ summary a' = summary a /\
    doc a' = doc a /\ top_node a' = top_node a /\
    original_url a' = original_url a /\ config a' = config a /\
    exists added,
      w' = w ++ added /\ (hops added <= Z.to_nat (1 - rc))%nat /\
      (1 <= rc -> hops added = O).
Proof.
  intros a w ih t rc irm a' w'.
  destruct (download_effect (Z.to_nat (1 - rc)) rc (Nat.le_refl _) a w ih t irm)
    as (Hout & added & Hw & Hh).
  fold a' in Hout. fold w' in Hw.
  split; [exact Hout|].
  split; [exact (f_equal is_parsed Hout)|].
  split; [exact (f_equal _text Hout)|].
  split; [exact (f_equal text_cleaned Hout)|].
  split; [exact (f_equal authors Hout)|].
  split; [exact (f_equal keywords Hout)|].
  split; [exact (f_equal _summary Hout)|].
  split; [exact (f_equal doc Hout)|].
  split; [exact (f_equal top_node Hout)|].
  split; [exact (f_equal original_url Hout)|].
  split; [exact (f_equal config Hout)|].
  exists added. split; [exact Hw|]. split; [exact Hh|]. intros Hrc. lia.
Qed.

(* ------------------------------------------------------------------ *)
(** *** Parse *)

Ltac split_pairs :=
  repeat match goal with
         | |- context [let '(_, _) := ?e in _] => destruct e
         end.

Ltac split_branches :=
  repeat match goal with
         | |- context [if ?b then _ else _] => destruct b
         | |- context [match ?x with Some _ => _ | None => _ end] => destruct x
         end.

Ltac stagewise := split_pairs; split_branches; split_pairs; simpl; try reflexivity.

Lemma parse_metadata_outside (d : Element) (a : Article) :
  outside_parse (snd (parse_metadata d a)) = outside_parse a.
Proof. unfold parse_metadata. stagewise. Qed.

Lemma parse_nodes_outside (a : Article) : outside_parse (parse_nodes a) = outside_parse a.
Proof. unfold parse_nodes. stagewise. Qed.

Lemma parse_videos_outside (a : Article) : outside_parse (parse_videos a) = outside_parse a.
Proof. unfold parse_videos. stagewise. Qed.

Lemma fetch_images_outside (a : Article) : outside_parse (fetch_images a) = outside_parse a.
Proof. reflexivity. Qed.

Lemma parse_text_outside (title_ : string) (a : Article) :
  outside_parse (parse_text title_ a) = outside_parse a.
Proof. unfold parse_text. stagewise. Qed.

Lemma set_is_parsed_outside (b : bool) (a : Article) :
  outside_parse (set_is_parsed b a) = outside_parse a.
Proof. reflexivity. Qed.

Lemma parse_document_outside (d : Element) (a : Article) :
  outside_parse (parse_document d a) = outside_parse a.
Proof.
  unfold parse_document.
  pose proof (parse_metadata_outside d a) as H.
  destruct (parse_metadata d a) as [title_ a1]. cbv zeta.
  rewrite set_is_parsed_outside, parse_text_outside, fetch_images_outside,
    parse_videos_outside, parse_nodes_outside.
  exact H.
Qed.

Lemma parse_document_is_parsed (d : Element) (a : Article) :
  is_parsed (parse_document d a) = true.
Proof.
  unfold parse_document. destruct (parse_metadata d a) as [title_ a1]. reflexivity.
Qed.


Lemma parse_metadata_title_authors (d : Element) (a : Article) :
  exists t authors_,
    _title (snd (parse_metadata d a)) = clipped (max_title (config a)) (Some t) /\
    authors (snd (parse_metadata d a))
    = list_slice_to (max_authors (config a)) authors_.
Proof.
  unfold parse_metadata. split_pairs. split_branches; split_pairs; simpl;
    eexists; eexists; split; reflexivity.
Qed.

(** The fields of the first stage that the later stages leave alone. *)
Lemma parse_nodes_carries (a : Article) :
  _title (parse_nodes a) = _title a /\ authors (parse_nodes a) = authors a /\
  config (parse_nodes a) = config a /\ _text (parse_nodes a) = _text a /\
  text_cleaned (parse_nodes a) = text_cleaned a /\
  article_html (parse_nodes a) = article_html a.
Proof. unfold parse_nodes. split_pairs. simpl. repeat split. Qed.

Lemma parse_videos_carries (a : Article) :
  _title (parse_videos a) = _title a /\ authors (parse_videos a) = authors a /\
  config (parse_videos a) = config a /\ _text (parse_videos a) = _text a /\
  text_cleaned (parse_videos a) = text_cleaned a /\
  article_html (parse_videos a) = article_html a /\
  top_node (parse_videos a) = top_node a.
Proof. unfold parse_videos. split_pairs. simpl. repeat split. Qed.

Lemma fetch_images_carries (a : Article) :
  _title (fetch_images a) = _title a /\ authors (fetch_images a) = authors a /\
  config (fetch_images a) = config a /\ _text (fetch_images a) = _text a /\
  text_cleaned (fetch_images a) = text_cleaned a /\
  article_html (fetch_images a) = article_html a /\
  top_node (fetch_images a) = top_node a /\ movies (fetch_images a) = movies a.
Proof. repeat split. Qed.

Lemma parse_text_carries (title_ : string) (a : Article) :
  _title (parse_text title_ a) = _title a /\
  authors (parse_text title_ a) = authors a /\
  config (parse_text title_ a) = config a /\
  top_node (parse_text title_ a) = top_node a /\
  movies (parse_text title_ a) = movies a.
Proof.
  unfold parse_text. destruct (top_node a) eqn:E; [|now rewrite E].
  split_pairs. simpl. now rewrite E.
Qed.

Lemma parse_metadata_texts (d : Element) (a : Article) :
  _text (snd (parse_metadata d a)) = _text a /\
  text_cleaned (snd (parse_metadata d a)) = text_cleaned a /\
  article_html (snd (parse_metadata d a)) = article_html a.
Proof. unfold parse_metadata. split_pairs. split_branches; simpl; repeat split. Qed.

Lemma parse_metadata_limits (d : Element) (a : Article) :
  set_language "" (config (snd (parse_metadata d a))) = set_language "" (config a).
Proof. exact (f_equal config (parse_metadata_outside d a)). Qed.

Lemma parse_text_texts (title_ : string) (a : Article) :
  top_node a <> None ->
  exists v1 v2,
    _text (parse_text title_ a) = clipped (max_text (config a)) v1 /\
    text_cleaned (parse_text title_ a) = clipped (max_text (config a)) v2.
Proof.
  unfold parse_text. destruct (top_node a); [intros _|congruence].
  split_pairs. eexists. eexists. split; reflexivity.
Qed.

Lemma set_is_parsed_texts (b : bool) (a : Article) :
  is_parsed (set_is_parsed b a) = b /\ _text (set_is_parsed b a) = _text a /\
  text_cleaned (set_is_parsed b a) = text_cleaned a /\
  article_html (set_is_parsed b a) = article_html a.
Proof. repeat split. Qed.

Lemma parse_text_without_top_node (title_ : string) (a : Article) :
  top_node a = None -> parse_text title_ a = a.
Proof. unfold parse_text. now intros ->. Qed.

Lemma set_movies_no_empty_url (videos : list (option Video)) (a : Article) :
  Forall (fun u => u <> "") (movies (set_movies videos a)).
Proof.
  unfold set_movies. simpl. induction videos as [|o videos IH]; simpl;
    [constructor|].
  destruct o as [[[s|]]|]; simpl; try exact IH.
  destruct (str_truthy s) eqn:E; simpl; [|exact IH].
  constructor; [|exact IH]. intros ->. discriminate.
Qed.

Lemma parse_videos_movies (a : Article) :
  Forall (fun u => u <> "") (movies (parse_videos a)).
Proof.
  unfold parse_videos. destruct (get_videos _ _ _) as [videos ex].
  apply set_movies_no_empty_url.
Qed.

(** What [parse_document] is made of, for an article [a1] and title [t]
    that the first stage gave. *)
Lemma parse_document_stages (d : Element) (a : Article) :
  parse_document d a =
  set_is_parsed true
    (parse_text (fst (parse_metadata d a))
       (fetch_images (parse_videos (parse_nodes (snd (parse_metadata d a)))))).
Proof. unfold parse_document. now destruct (parse_metadata d a). Qed.

(** X13. When the HTML gives a tree, [parse] leaves a title of at most
    [max_title] characters, at most [max_authors] authors and, when a top
    node is found, a text and a cleaned text of at most [max_text]
    characters (for limits that are not negative); no movie URL is empty. *)
Theorem parse_respects_the_limits :
  forall a d,
    download_state a = SUCCESS -> fromstring (html a) = Some d ->
    let a' := final_state (parse a) in
    (0 <= max_title (config a) ->
     Z.of_nat (String.length (title a')) <= max_title (config a)) /\
    (0 <= max_authors (config a) ->
     Z.of_nat (List.length (authors a')) <= max_authors (config a)) /\
    (top_node a' <> None -> 0 <= max_text (config a) ->
     Z.of_nat (String.length (text a')) <= max_text (config a) /\
     Z.of_nat (String.length (text_cleaned a')) <= max_text (config a)) /\
    Forall (fun u => u <> "") (movies a').
Proof.
  intros a d Hs Hd a'. subst a'. rewrite (parse_with_document a d Hs Hd).
  unfold final_state. rewrite parse_document_stages.
  set (a0 := set_clean_doc (Some d) (set_doc (Some d) a)).
  set (t := fst (parse_metadata d a0)).
  set (a1 := snd (parse_metadata d a0)).
  set (a4 := fetch_images (parse_videos (parse_nodes a1))).
  pose proof (parse_text_carries t a4) as Ht.
  pose proof (fetch_images_carries (parse_videos (parse_nodes a1))) as Hi.
  pose proof (parse_videos_carries (parse_nodes a1)) as Hv.
  pose proof (parse_nodes_carries a1) as Hn.
  fold a4 in Hi. destruct Ht as (Ht1 & Ht2 & Ht3 & Ht4 & Ht5).
  destruct Hi as (Hi1 & Hi2 & Hi3 & Hi4 & Hi5 & Hi6 & Hi7 & Hi8).
  destruct Hv as (Hv1 & Hv2 & Hv3 & Hv4 & Hv5 & Hv6 & Hv7).
  destruct Hn as (Hn1 & Hn2 & Hn3 & Hn4 & Hn5 & Hn6).
  destruct (parse_metadata_title_authors d a0) as (t0 & au & Htitle & Hauthors).
  fold a1 in Htitle, Hauthors.
  pose proof (parse_metadata_limits d a0) as Hlim. fold a1 in Hlim.
  assert (Hcfg : config a4 = config a1) by congruence.
  change (config a0) with (config a) in *.
  split; [|split; [|split]].
  - intros Hl. unfold title. simpl _title. rewrite Ht1, Hi1, Hv1, Hn1, Htitle.
    now apply clipped_length.
  - intros Hl. simpl authors. rewrite Ht2, Hi2, Hv2, Hn2, Hauthors.
    now apply list_slice_to_length.
  - simpl top_node. rewrite Ht4. intros Htop Hl.
    destruct (parse_text_texts t a4 Htop) as (v1 & v2 & H1 & H2).
    unfold text. simpl _text. simpl text_cleaned. rewrite H1, H2, Hcfg.
    assert (Hm : max_text (config a1) = max_text (config a))
      by exact (f_equal max_text Hlim).
    rewrite Hm. split; now apply clipped_length.
  - simpl movies. rewrite Ht5, Hi8. apply parse_videos_movies.
Qed.

(** X14. When the HTML gives a tree but no top node is found in it, [parse]
    does not touch [text], [text_cleaned] and [article_html]: they keep what
    an earlier parse left in them. *)
Theorem parse_without_top_node_keeps_the_texts :
  forall a d,
    download_state a = SUCCESS -> fromstring (html a) = Some d ->
    let a' := final_state (parse a) in
    top_node a' = None ->
    is_parsed a' = true /\ text a' = text a /\ text_cleaned a' = text_cleaned a /\
    article_html a' = article_html a.
Proof.
  intros a d Hs Hd a'. subst a'. rewrite (parse_with_document a d Hs Hd).
  unfold final_state. rewrite parse_document_stages.
  set (a0 := set_clean_doc (Some d) (set_doc (Some d) a)).
  set (t := fst (parse_metadata d a0)).
  set (a1 := snd (parse_metadata d a0)).
  set (a4 := fetch_images (parse_videos (parse_nodes a1))).
  pose proof (parse_text_carries t a4) as Ht.
  destruct Ht as (Ht1 & Ht2 & Ht3 & Ht4 & Ht5).
  simpl top_node. rewrite Ht4. intros Htop.
  rewrite (parse_text_without_top_node t a4 Htop).
  pose proof (fetch_images_carries (parse_videos (parse_nodes a1))) as Hi.
  pose proof (parse_videos_carries (parse_nodes a1)) as Hv.
  pose proof (parse_nodes_carries a1) as Hn.
  pose proof (parse_metadata_texts d a0) as Hm.
  fold a4 in Hi. fold a1 in Hm.
  destruct Hi as (Hi1 & Hi2 & Hi3 & Hi4 & Hi5 & Hi6 & Hi7 & Hi8).
  destruct Hv as (Hv1 & Hv2 & Hv3 & Hv4 & Hv5 & Hv6 & Hv7).
  destruct Hn as (Hn1 & Hn2 & Hn3 & Hn4 & Hn5 & Hn6).
  destruct Hm as (Hm1 & Hm2 & Hm3).
  assert (H01 : _text a0 = _text a) by reflexivity.
  assert (H02 : text_cleaned a0 = text_cleaned a) by reflexivity.
  assert (H03 : article_html a0 = article_html a) by reflexivity.
  destruct (set_is_parsed_texts true a4) as (Hp0 & Hp1 & Hp2 & Hp3).
  unfold text. rewrite Hp0, Hp1, Hp2, Hp3.
  split; [reflexivity|]. repeat split; congruence.
Qed.

Lemma parse_metadata_language (d : Element) (a : Article) :
  let a1 := snd (parse_metadata d a) in
  (language (config a1) = language (config a) \/
   (use_meta_language (config a) = true /\
    In (language (config a1)) get_available_languages /\
    meta_lang a1 = language (config a1))) /\
  (meta_lang a1 = meta_lang a \/ In (meta_lang a1) get_available_languages).
Proof.
  unfold parse_metadata. split_pairs.
  match goal with
  | |- context [existsb ?f ?l] => destruct (existsb f l) eqn:Ex
  end.
  - apply existsb_exists in Ex as (x & Hx & Heq). apply String.eqb_eq in Heq.
    subst x. simpl.
    match goal with
    | |- context [use_meta_language ?c] => destruct (use_meta_language c) eqn:Eu
    end; split_pairs; simpl; split; auto.
  - split_pairs. simpl. split; auto.
Qed.

Lemma later_stages_keep_meta_lang (title_ : string) (a : Article) :
  meta_lang (set_is_parsed true
               (parse_text title_ (fetch_images (parse_videos (parse_nodes a)))))
  = meta_lang a.
Proof.
  assert (H1 : forall x, meta_lang (parse_nodes x) = meta_lang x)
    by (intros x; unfold parse_nodes; split_pairs; reflexivity).
  assert (H2 : forall x, meta_lang (parse_videos x) = meta_lang x)
    by (intros x; unfold parse_videos; split_pairs; reflexivity).
  assert (H3 : forall x, meta_lang (fetch_images x) = meta_lang x)
    by reflexivity.
  assert (H4 : forall x, meta_lang (parse_text title_ x) = meta_lang x)
    by (intros x; unfold parse_text; destruct (top_node x); split_pairs;
        reflexivity).
  assert (H5 : forall x, meta_lang (set_is_parsed true x) = meta_lang x)
    by reflexivity.
  now rewrite H5, H4, H3, H2, H1.
Qed.

Lemma later_stages_keep_config (title_ : string) (a : Article) :
  config (set_is_parsed true
            (parse_text title_ (fetch_images (parse_videos (parse_nodes a)))))
  = config a.
Proof.
  destruct (set_is_parsed_keeps true
              (parse_text title_ (fetch_images (parse_videos (parse_nodes a)))))
    as (_ & _ & ->).
  destruct (parse_text_carries title_
              (fetch_images (parse_videos (parse_nodes a)))) as (_ & _ & -> & _).
  destruct (fetch_images_carries (parse_videos (parse_nodes a)))
    as (_ & _ & -> & _).
  destruct (parse_videos_carries (parse_nodes a)) as (_ & _ & -> & _).
  now destruct (parse_nodes_carries a) as (_ & _ & -> & _).
Qed.

(** X15. [parse] changes the configured language only to the language the
    metadata names, only if that language is one of the available ones and
    [use_meta_language] is set; [meta_lang] too is only ever set to an
    available language. *)
Theorem parse_adopts_only_available_languages :
  forall a,
    let a' := final_state (parse a) in
    (language (config a') = language (config a) \/
     (use_meta_language (config a) = true /\
      In (language (config a')) get_available_languages /\
      meta_lang a' = language (config a'))) /\
    (meta_lang a' = meta_lang a \/ In (meta_lang a') get_available_languages).
Proof.
  intros a a'. subst a'. destruct (download_state a) eqn:Es.
  - destruct (proj2 (parse_raises_iff a)) as [msg ->]; [congruence|]. simpl. auto.
  - destruct (proj2 (parse_raises_iff a)) as [msg ->]; [congruence|]. simpl. auto.
  - destruct (fromstring (html a)) as [d|] eqn:Ed.
    + rewrite (parse_with_document a d Es Ed). unfold final_state.
      rewrite parse_document_stages.
      rewrite later_stages_keep_meta_lang, later_stages_keep_config.
      pose proof (parse_metadata_language d
                    (set_clean_doc (Some d) (set_doc (Some d) a))) as H.
      cbv zeta in H.
      assert (Hc : config (set_clean_doc (Some d) (set_doc (Some d) a)) = config a)
        by reflexivity.
      assert (Hm : meta_lang (set_clean_doc (Some d) (set_doc (Some d) a))
                   = meta_lang a) by reflexivity.
      rewrite Hc, Hm in H. exact H.
    + rewrite (parse_without_document a Es Ed). simpl. auto.
Qed.

(* ------------------------------------------------------------------ *)
(** *** NLP *)

Lemma dict_set_keys_in {V : Type} (k k' : string) (v : V) (d : dict V) :
  In k (dict_keys (dict_set k' v d)) <-> k = k' \/ In k (dict_keys d).
Proof.
  induction d as [|[k2 v2] d IH]; simpl.
  - intuition.
  - destruct (String.eqb_spec k' k2) as [->|Hne]; simpl.
    + intuition (subst; auto).
    + rewrite IH. intuition (subst; auto).
Qed.

Lemma merge_keywords_keys (title_kw kws : dict pyfloat) (k : string) :
  In k (dict_keys (merge_keywords kws title_kw)) <->
  In k (dict_keys kws) \/ In k (dict_keys title_kw).
Proof.
  revert kws. induction title_kw as [|[k1 v1] rest IH]; intros kws.
  - simpl. tauto.
  - rewrite merge_keywords_cons, IH. simpl.
    destruct (dict_get k1 kws); rewrite dict_set_keys_in; intuition.
Qed.

Lemma list_slice_to_all {A : Type} (n : Z) (l : list A) :
  Z.of_nat (List.length l) <= n -> list_slice_to n l = l.
Proof.
  intros Hn. unfold list_slice_to.
  destruct (0 <=? n) eqn:E; [|apply Z.leb_gt in E; lia].
  apply firstn_all2. lia.
Qed.

Lemma ranked_keywords_keys (text_kw title_kw : dict pyfloat) (limit : Z) (k : string) :
  (In k (dict_keys (ranked_keywords text_kw title_kw limit)) ->
   In k (dict_keys text_kw) \/ In k (dict_keys title_kw)) /\
  (Z.of_nat (List.length (merge_keywords text_kw title_kw)) <= limit ->
   In k (dict_keys text_kw) \/ In k (dict_keys title_kw) ->
   In k (dict_keys (ranked_keywords text_kw title_kw limit))).
Proof.
  unfold ranked_keywords.
  set (merged := merge_keywords text_kw title_kw).
  assert (Hperm : Permutation (dict_keys (sorted_by_score merged)) (dict_keys merged))
    by (apply Permutation_map, sorted_by_score_perm).
  split.
  - intros Hk. apply merge_keywords_keys. fold merged.
    apply (Permutation_in _ Hperm).
    destruct (list_slice_to_prefix limit (sorted_by_score merged)) as [dropped Hd].
    rewrite Hd. unfold dict_keys. rewrite map_app. apply in_or_app. now left.
  - intros Hl Hk. rewrite list_slice_to_all.
    + apply (Permutation_in _ (Permutation_sym Hperm)).
      now apply merge_keywords_keys.
    + rewrite (Permutation_length (sorted_by_score_perm merged)). exact Hl.
Qed.

(** X16. When [nlp] returns it has written [keywords], [keyword_scores] and
    [summary] and nothing else; there are at most [max_keywords] keywords,
    and the summary is the sentences of the summarizer joined by newlines and
    cut to [max_summary] characters (for limits that are not negative). *)
Theorem nlp_writes_keywords_and_summary :
  forall a a',
    nlp a = Return a' ->
    outside_nlp a' = outside_nlp a /\
    text a' = text a /\ title a' = title a /\ html a' = html a /\
    is_parsed a' = true /\ download_state a' = SUCCESS /\
    summary a'
    = clipped (max_summary (config a))
        (Some (str_join newline
                 (nlp_summarize (title a) (text a)
                    (stopwords_for (language (config a)))
                    (max_summary_sent (config a))))) /\
    (0 <= max_summary (config a) ->
     Z.of_nat (String.length (summary a')) <= max_summary (config a)) /\
    (0 <= max_keywords (config a) ->
     Z.of_nat (List.length (keywords a')) <= max_keywords (config a)).
Proof.
  intros a a'. unfold nlp, throw_if_not_downloaded_verbose,
    throw_if_not_parsed_verbose.
  destruct (download_state a) eqn:Es; try discriminate.
  destruct (is_parsed a) eqn:Ep; simpl negb; cbv iota; [|discriminate].
  intros H. inversion H; subst; clear H. cbv zeta.
  split; [reflexivity|]. split; [reflexivity|]. split; [reflexivity|].
  split; [reflexivity|]. split; [exact Ep|]. split; [exact Es|].
  split; [reflexivity|]. split.
  - intros Hl.
    exact (clipped_length (max_summary (config a))
             (Some (str_join newline
                      (nlp_summarize (title a) (text a)
                         (stopwords_for (language (config a)))
                         (max_summary_sent (config a))))) Hl).
  - intros Hl.
    set (ranked := ranked_keywords
                     (nlp_keywords (text a) (stopwords_for (language (config a)))
                        (max_keywords (config a)))
                     (nlp_keywords (title a) (stopwords_for (language (config a)))
                        (max_keywords (config a)))
                     (max_keywords (config a))).
    assert (Hk : Z.of_nat (List.length (map fst ranked)) <= max_keywords (config a)).
    { rewrite length_map. unfold ranked, ranked_keywords.
      now apply list_slice_to_length. }
    exact Hk.
Qed.

(** X17. [nlp] invents no keyword: every keyword is a key of the text's or
    of the title's keyword scores; and when [max_keywords] is not less than
    the number of merged entries, every such key is a keyword. *)
Theorem nlp_keywords_come_from_the_candidates :
  forall a a',
    nlp a = Return a' ->
    let limit := max_keywords (config a) in
    let stopwords := stopwords_for (language (config a)) in
    let text_kw := nlp_keywords (text a) stopwords limit in
    let title_kw := nlp_keywords (title a) stopwords limit in
    (forall k, In k (keywords a') ->
               In k (dict_keys text_kw) \/ In k (dict_keys title_kw)) /\
    (Z.of_nat (List.length (merge_keywords text_kw title_kw)) <= limit ->
     forall k, In k (dict_keys text_kw) \/ In k (dict_keys title_kw) ->
               In k (keywords a')).
Proof.
  intros a a'. unfold nlp, throw_if_not_downloaded_verbose,
    throw_if_not_parsed_verbose.
  destruct (download_state a) eqn:Es; try discriminate.
  destruct (is_parsed a) eqn:Ep; simpl negb; cbv iota; [|discriminate].
  intros H. inversion H; subst; clear H. cbv zeta. simpl keywords. split.
  - intros k Hk. now apply (ranked_keywords_keys _ _ _ k) in Hk.
  - intros Hl k Hk. now apply (ranked_keywords_keys _ _ _ k).
Qed.

(* ------------------------------------------------------------------ *)
(** *** Validity *)

(** X18. An article without text: when the URL is not a media URL and the
    minimum word count is at least 1 it is invalid, whatever its metadata
    type and title; but with metadata type "article" and a minimum word
    count below 1 it is valid, for the empty text counts as one word. *)
Theorem is_valid_body_of_empty_text :
  forall a,
    is_parsed a = true -> text a = "" ->
    (is_media_news a = false -> 1 <= min_word_count (config a) ->
     is_valid_body a = Ok false) /\
    (meta_data_type (extractor a) = "article" -> min_word_count (config a) < 1 ->
     is_valid_body a = Ok true).
Proof.
  intros a Hp Ht. unfold is_valid_body. rewrite Hp, Ht. simpl negb. cbv iota zeta.
  simpl str_split. simpl List.length. simpl str_truthy. split.
  - intros Hm Hw. rewrite Hm. simpl.
    destruct (min_word_count (config a) <? 1) eqn:E; [apply Z.ltb_lt in E; lia|].
    now rewrite andb_false_r.
  - intros Hty Hw. rewrite Hty. simpl.
    apply Z.ltb_lt in Hw. now rewrite Hw.
Qed.

(** X19. What a verdict of valid tells: the article is of metadata type
    "article" with more words than the minimum, or else it has a title of
    two words or more, at least the minimum of words and of sentences, a
    non-empty [html], and text unless its URL is a media URL. *)
Theorem valid_body_meets_the_thresholds :
  forall a,
    is_valid_body a = Ok true ->
    is_parsed a = true /\
    ((meta_data_type (extractor a) = "article" /\
      min_word_count (config a) < word_count a) \/
     ((is_media_news a = true \/ text a <> "") /\
      2 <= title_token_count a /\
      min_word_count (config a) <= word_count a /\
      min_sent_count (config a) <= sentence_count a /\
      html a <> "")).
Proof.
  intros a. rewrite is_valid_body_refines. unfold is_valid_body_spec.
  destruct (is_parsed a); [|discriminate]. intros H. inversion H as [Hv]. clear H.
  split; [reflexivity|]. unfold validity_rules, first_match in Hv.
  destruct (String.eqb (meta_data_type (extractor a)) "article"
            && (min_word_count (config a) <? word_count a)) eqn:E1.
  { apply andb_true_iff in E1 as (Ety & Ew). left.
    split; [now apply String.eqb_eq|now apply Z.ltb_lt]. }
  destruct (negb (is_media_news a) && String.eqb (text a) "") eqn:E2;
    [discriminate|].
  destruct (title_token_count a <? 2) eqn:E3; [discriminate|].
  destruct (word_count a <? min_word_count (config a)) eqn:E4; [discriminate|].
  destruct (sentence_count a <? min_sent_count (config a)) eqn:E5; [discriminate|].
  destruct (String.eqb (html a) "") eqn:E6; [discriminate|].
  right. apply Z.ltb_ge in E3, E4, E5. apply String.eqb_neq in E6.
  repeat split; try assumption.
  apply andb_false_iff in E2 as [E2|E2].
  - left. now apply negb_false_iff.
  - right. now apply String.eqb_neq.
Qed.

(* ------------------------------------------------------------------ *)
(** *** Pickling: marking a node and finding it again *)

Lemma nth_error_replace_same {A : Type} (l : list A) :
  forall i x c, nth_error l i = Some c -> nth_error (replace_nth i x l) i = Some x.
Proof.
  induction l as [|h l IH]; intros [|i] x c; simpl; try discriminate; auto.
  apply IH.
Qed.

Lemma nth_error_replace_other {A : Type} (l : list A) :
  forall i j x, i <> j -> nth_error (replace_nth i x l) j = nth_error l j.
Proof.
  induction l as [|h l IH]; intros [|i] [|j] x Hij; simpl; auto; try congruence.
Qed.

Lemma map_replace_nth {A B : Type} (f : A -> B) (l : list A) :
  forall i x, map f (replace_nth i x l) = replace_nth i (f x) (map f l).
Proof.
  induction l as [|h l IH]; intros [|i] x; simpl; auto. now rewrite IH.
Qed.

Lemma replace_nth_same {A : Type} (l : list A) :
  forall i c, nth_error l i = Some c -> replace_nth i c l = l.
Proof.
  induction l as [|h l IH]; intros [|i] c; simpl; try discriminate.
  - now intros [= ->].
  - intros H. now rewrite (IH i c H).
Qed.

(** Marking a node leaves the shape of the tree as it is. *)
Lemma all_paths_set_attr_at (name value : string) (p : path) :
  forall d, all_paths (set_attr_at name value p d) = all_paths d.
Proof.
  induction p as [|i p IH]; intros [t at_ tx cs]; simpl; [reflexivity|].
  destruct (nth_error cs i) as [c|] eqn:Ec; [|reflexivity].
  simpl. rewrite map_replace_nth, IH. f_equal. f_equal.
  apply replace_nth_same. now rewrite nth_error_map, Ec.
Qed.

(** It sets the attribute on that node... *)
Lemma attribs_at_set_same (name value : string) (p : path) :
  forall d,
    attribs_at (set_attr_at name value p d) p
    = option_map (dict_set name value) (attribs_at d p).
Proof.
  unfold attribs_at.
  induction p as [|i p IH]; intros [t at_ tx cs]; simpl; [reflexivity|].
  destruct (nth_error cs i) as [c|] eqn:Ec; simpl.
  - rewrite (nth_error_replace_same cs i _ c Ec). apply IH.
  - now rewrite Ec.
Qed.

(** ... and leaves the attributes of every other node. *)
Lemma attribs_at_set_other (name value : string) (p : path) :
  forall d r,
    r <> p -> attribs_at (set_attr_at name value p d) r = attribs_at d r.
Proof.
  unfold attribs_at.
  induction p as [|i p IH]; intros [t at_ tx cs] r Hr.
  - destruct r as [|j r]; [congruence|]. reflexivity.
  - simpl set_attr_at. destruct (nth_error cs i) as [c|] eqn:Ec; [|reflexivity].
    destruct r as [|j r]; [reflexivity|]. simpl.
    destruct (Nat.eq_dec i j) as [<-|Hij].
    + rewrite (nth_error_replace_same cs i _ c Ec), Ec.
      apply IH. congruence.
    + now rewrite nth_error_replace_other.
Qed.

Lemma carries_by_attribs (attribs : list (string * string)) (d : Element) (r : path) :
  carries attribs d r
  = match attribs_at d r with
    | Some at_ =>
        forallb (fun kv => match dict_get (fst kv) at_ with
                           | Some v => String.eqb v (snd kv)
                           | None => false
                           end) attribs
    | None => false
    end.
Proof.
  unfold carries, attribs_at. destruct (node_at d r) as [n|]; reflexivity.
Qed.

Lemma carries_marked (k v : string) (p : path) (d : Element) :
  In p (all_paths d) -> carries [(k, v)] (set_attr_at k v p d) p = true.
Proof.
  intros Hp. apply all_paths_nodes in Hp as [n Hn].
  rewrite carries_by_attribs, attribs_at_set_same. unfold attribs_at.
  rewrite Hn. simpl. now rewrite dict_get_set_same, String.eqb_refl.
Qed.

Lemma carries_elsewhere (attribs : list (string * string)) (k v : string)
    (p r : path) (d : Element) :
  r <> p -> carries attribs (set_attr_at k v p d) r = carries attribs d r.
Proof.
  intros Hr. now rewrite !carries_by_attribs, attribs_at_set_other.
Qed.

Lemma carries_other_key (k v k' v' : string) (p r : path) (d : Element) :
  k <> k' -> carries [(k, v)] (set_attr_at k' v' p d) r = carries [(k, v)] d r.
Proof.
  intros Hk. destruct (list_eq_dec Nat.eq_dec r p) as [->|Hr].
  - rewrite !carries_by_attribs, attribs_at_set_same.
    destruct (attribs_at d p) as [at_|]; [|reflexivity]. simpl.
    now rewrite dict_get_set_other.
  - now apply carries_elsewhere.
Qed.

Lemma first_node_only (f : path -> bool) (l : list path) (p : path) :
  In p l -> f p = true -> (forall r, f r = true -> r = p) ->
  first_node (filter f l) = Some p.
Proof.
  intros Hin Hp Honly. pose proof (first_node_filter f l) as H.
  destruct (first_node (filter f l)) as [p'|].
  - destruct H as (_ & _ & _ & Hp' & _). f_equal. now apply Honly.
  - rewrite (H p Hin) in Hp. discriminate.
Qed.

Lemma first_node_nowhere (f : path -> bool) (l : list path) :
  (forall r, f r = false) -> first_node (filter f l) = None.
Proof.
  intros Hno. pose proof (first_node_filter f l) as H.
  destruct (first_node (filter f l)) as [p'|]; [|reflexivity].
  destruct H as (_ & _ & _ & Hp' & _). rewrite Hno in Hp'. discriminate.
Qed.


Lemma __setstate___attributes (st : Snapshot) (a' : Article) :
  __setstate__ st = Ok a' ->
  state_dict a' (st___parsed_state st) (st__doc_html st) = st /\
  extractor a' = ContentExtractor (st_config st).
Proof.
  unfold __setstate__. destruct st. cbv beta iota zeta delta [st___parsed_state st__doc_html].
  destruct st___parsed_state0.
  - destruct st__doc_html0 as [h|]; [|discriminate].
    change (doc (set_doc ?x _)) with x.
    destruct (fromstring h) as [d|]; [|discriminate].
    destruct (first_node (get_elements_by_attribs d top_node_sentinel));
      destruct (first_node (get_elements_by_attribs d complemented_sentinel));
      intros [= <-]; split; reflexivity.
  - intros [= <-]. split; reflexivity.
Qed.

Lemma __getstate___attributes (a a1 : Article) (st : Snapshot) :
  __getstate__ a = (a1, Ok st) ->
  (exists flag doc_html, st = state_dict a flag doc_html) /\
  state_dict a1 false None = state_dict a false None /\
  top_node a1 = top_node a /\ extractor a1 = extractor a /\
  clean_doc a1 = clean_doc a /\ clean_top_node a1 = clean_top_node a.
Proof.
  unfold __getstate__.
  destruct (download_state a) eqn:Es;
    try (intros [= <- <-]; split; [eexists; eexists; reflexivity|repeat split]).
  destruct (top_node a) as [p|] eqn:Et;
    [|intros [= <- <-]; split; [eexists; eexists; reflexivity|repeat split; auto]].
  cbv zeta.
  change (_top_node_complemented (set_doc _ ?x)) with (_top_node_complemented x).
  destruct (_top_node_complemented a) as [[c|q]|]; [| |discriminate];
    intros [= <- <-]; (split; [eexists; eexists; reflexivity|]);
    repeat split; auto.
Qed.

Lemma state_dict_flags (a a' : Article) (f f2 f' : bool) (h h2 h' : option string) :
  state_dict a' f h = state_dict a f2 h2 ->
  state_dict a' f' h' = state_dict a f' h'.
Proof.
  destruct a, a'. unfold state_dict. cbn. intros H. injection H as ->.
  intros. subst. reflexivity.
Qed.

(** X20. Pickling and unpickling gives back every attribute that the state
    dict holds (the 31 that [__getstate__] does not pop), with a new
    extractor made from the configuration, and with [clean_doc] and
    [clean_top_node] empty; taking the state changes none of these
    attributes on the live object. *)
Theorem pickle_round_trip_restores_the_attributes :
  forall a a1 st a',
    __getstate__ a = (a1, Ok st) -> __setstate__ st = Ok a' ->
    state_dict a' false None = state_dict a false None /\
    extractor a' = ContentExtractor (config a) /\
    clean_doc a' = None /\ clean_top_node a' = None /\
    state_dict a1 false None = state_dict a false None /\
    top_node a1 = top_node a /\ extractor a1 = extractor a.
Proof.
  intros a a1 st a' Hg Hs.
  destruct (__getstate___attributes a a1 st Hg)
    as ((flag & doc_html & Hst) & Hlive & Htop & Hex & _).
  destruct (__setstate___attributes st a' Hs) as (Hattr & Hextractor).
  assert (Hclean : clean_doc a' = None /\ clean_top_node a' = None).
  { revert Hs. unfold __setstate__. destruct (st___parsed_state st).
    - destruct (st__doc_html st) as [h|]; [|discriminate]. cbv zeta.
      change (doc (set_doc ?x _)) with x.
      destruct (fromstring h) as [d|]; [|discriminate].
      destruct (first_node (get_elements_by_attribs d top_node_sentinel));
        destruct (first_node (get_elements_by_attribs d complemented_sentinel));
        intros [= <-]; split; reflexivity.
    - intros [= <-]. split; reflexivity. }
  destruct Hclean as (Hcd & Hct).
  rewrite Hst in Hattr at 3. split.
  - exact (state_dict_flags a a' _ _ false _ _ None Hattr).
  - rewrite Hst in Hextractor. repeat split; auto.
Qed.


(** The document that [__getstate__] serialises: [doc] with the top node
    marked and, when the complemented node is one of [doc], that node
    marked too. *)
Lemma __getstate___of_parsed (a : Article) (d : Element) (p : path) (h : node_handle) :
  download_state a = SUCCESS -> doc a = Some d -> top_node a = Some p ->
  _top_node_complemented a = Some h ->
  exists a1,
    __getstate__ a
    = (a1, Ok (state_dict a1 true (Some (node_to_string (doc a1))))) /\
    doc a1
    = Some match h with
           | InDoc q =>
               set_attr_at "__newspaper_top_node_complemented" "xxx" q
                 (set_attr_at "__newspaper_top_node" "xxx" p d)
           | OffTree _ => set_attr_at "__newspaper_top_node" "xxx" p d
           end.
Proof.
  intros Es Hd Ht Hc. unfold __getstate__. rewrite Es, Ht. cbv zeta.
  change (_top_node_complemented (set_doc _ ?x)) with (_top_node_complemented x).
  rewrite Hc, Hd. destruct h as [c|q]; eexists; split; reflexivity.
Qed.

Lemma __setstate___of_parsed (a : Article) (s : string) (d : Element) :
  fromstring s = Some d ->
  exists a',
    __setstate__ (state_dict a true (Some s)) = Ok a' /\
    doc a' = Some d /\
    top_node a' = first_node (get_elements_by_attribs d top_node_sentinel) /\
    _top_node_complemented a'
    = option_map InDoc (first_node (get_elements_by_attribs d complemented_sentinel)) /\
    download_state a' = download_state a.
Proof.
  intros Hd. unfold __setstate__.
  cbv beta iota zeta delta [st___parsed_state st__doc_html state_dict].
  change (doc (set_doc ?x _)) with x. rewrite Hd.
  destruct (first_node (get_elements_by_attribs d top_node_sentinel));
    destruct (first_node (get_elements_by_attribs d complemented_sentinel));
    eexists; (split; [reflexivity|]); repeat split.
Qed.

Lemma pickle_round_trip (a : Article) (d : Element) (p : path) (h : node_handle) :
  download_state a = SUCCESS -> doc a = Some d -> top_node a = Some p ->
  _top_node_complemented a = Some h ->
  In p (all_paths d) ->
  (forall r, carries top_node_sentinel d r = false) ->
  let d' := match h with
            | InDoc q =>
                set_attr_at "__newspaper_top_node_complemented" "xxx" q
                  (set_attr_at "__newspaper_top_node" "xxx" p d)
            | OffTree _ => set_attr_at "__newspaper_top_node" "xxx" p d
            end in
  fromstring (node_to_string (Some d')) = Some d' ->
  exists a1 st a',
    __getstate__ a = (a1, Ok st) /\ __setstate__ st = Ok a' /\
    doc a1 = Some d' /\ doc a' = Some d' /\ all_paths d' = all_paths d /\
    top_node a' = Some p /\ download_state a' = SUCCESS /\
    ((forall r, carries complemented_sentinel d r = false) ->
     _top_node_complemented a'
     = match h with
       | InDoc q => if in_dec (list_eq_dec Nat.eq_dec) q (all_paths d)
                    then Some (InDoc q) else None
       | OffTree _ => None
       end).
Proof.
  intros Es Hd Ht Hc Hp Hfresh d' Hround.
  destruct (__getstate___of_parsed a d p h Es Hd Ht Hc) as (a1 & Hg & Hd1).
  fold d' in Hd1.
  assert (Es1 : download_state a1 = SUCCESS).
  { destruct (__getstate___attributes a a1 _ Hg) as (_ & Hlive & _).
    apply (f_equal st_download_state) in Hlive. simpl in Hlive. congruence. }
  rewrite Hd1 in Hg.
  destruct (__setstate___of_parsed a1 _ d' Hround)
    as (a' & Hs & Hd' & Htop & Hcomp & Es').
  assert (Hshape : all_paths d' = all_paths d).
  { subst d'. destruct h; now rewrite ?all_paths_set_attr_at. }
  assert (Hmark : forall r,
             carries top_node_sentinel d' r = true -> r = p).
  { intros r Hr. destruct (list_eq_dec Nat.eq_dec r p) as [|Hne]; [assumption|].
    assert (Hr' : carries top_node_sentinel
                    (set_attr_at "__newspaper_top_node" "xxx" p d) r = true).
    { subst d'. destruct h; [exact Hr|].
      unfold top_node_sentinel in *. rewrite carries_other_key in Hr;
        [exact Hr|discriminate]. }
    rewrite carries_elsewhere, Hfresh in Hr' by assumption. discriminate. }
  assert (Hmarked : carries top_node_sentinel d' p = true).
  { subst d'. unfold top_node_sentinel. destruct h.
    - now apply carries_marked.
    - rewrite carries_other_key by discriminate. now apply carries_marked. }
  exists a1, (state_dict a1 true (Some (node_to_string (Some d')))), a'.
  split; [exact Hg|]. split; [exact Hs|]. split; [exact Hd1|].
  split; [exact Hd'|]. split; [exact Hshape|]. split; [|split].
  - rewrite Htop. unfold get_elements_by_attribs.
    apply first_node_only; [now rewrite Hshape|exact Hmarked|exact Hmark].
  - congruence.
  - intros Hfresh'. rewrite Hcomp. unfold get_elements_by_attribs.
    subst d'. destruct h as [c|q].
    + rewrite first_node_nowhere; [reflexivity|]. intros r.
      unfold complemented_sentinel.
      rewrite carries_other_key by discriminate. apply Hfresh'.
    + destruct (in_dec (list_eq_dec Nat.eq_dec) q (all_paths d)) as [Hq|Hq].
      * rewrite (first_node_only _ _ q); [reflexivity| | |].
        -- now rewrite Hshape.
        -- unfold complemented_sentinel. apply carries_marked.
           now rewrite all_paths_set_attr_at.
        -- intros r Hr.
           destruct (list_eq_dec Nat.eq_dec r q) as [|Hne]; [assumption|].
           rewrite carries_elsewhere in Hr by assumption.
           unfold complemented_sentinel in Hr.
           rewrite carries_other_key in Hr by discriminate.
           unfold complemented_sentinel in Hfresh'.
           rewrite Hfresh' in Hr. discriminate.
      * rewrite first_node_nowhere; [reflexivity|]. intros r.
        destruct (list_eq_dec Nat.eq_dec r q) as [->|Hne].
        -- unfold carries.
           destruct (node_at _ q) as [n|] eqn:En; [|reflexivity].
           exfalso. apply Hq. rewrite <- Hshape.
           apply all_paths_nodes. now exists n.
        -- rewrite carries_elsewhere by assumption.
           unfold complemented_sentinel.
           rewrite carries_other_key by discriminate. apply Hfresh'.
Qed.


(** X21. Pickling an article whose top node is a node of [doc], when no
    node of [doc] carries the top-node marker yet and the marked document
    parses back from its serialisation: the restored article has the marked
    document as [doc], of the shape of the old one, and its [top_node] is the
    node at the place of the old top node; a complemented node that is a node
    of [doc] comes back too. Taking the state leaves the markers in the
    [doc] of the live object. *)
Theorem pickle_round_trip_recovers_the_nodes :
  forall a d p h,
    download_state a = SUCCESS -> doc a = Some d -> top_node a = Some p ->
    _top_node_complemented a = Some h ->
    In p (all_paths d) ->
    (forall r, carries top_node_sentinel d r = false) ->
    let d' := match h with
              | InDoc q =>
                  set_attr_at "__newspaper_top_node_complemented" "xxx" q
                    (set_attr_at "__newspaper_top_node" "xxx" p d)
              | OffTree _ => set_attr_at "__newspaper_top_node" "xxx" p d
              end in
    fromstring (node_to_string (Some d')) = Some d' ->
    exists a1 st a',
      __getstate__ a = (a1, Ok st) /\ __setstate__ st = Ok a' /\
      doc a1 = Some d' /\ doc a' = Some d' /\ all_paths d' = all_paths d /\
      top_node a' = Some p /\
      (forall q,
          h = InDoc q -> In q (all_paths d) ->
          (forall r, carries complemented_sentinel d r = false) ->
          _top_node_complemented a' = Some (InDoc q)).
Proof.
  intros a d p h Es Hd Ht Hc Hp Hfresh d' Hround.
  destruct (pickle_round_trip a d p h Es Hd Ht Hc Hp Hfresh Hround)
    as (a1 & st & a' & Hg & Hs & Hd1 & Hd' & Hshape & Htop & _ & Hcomp).
  exists a1, st, a'. repeat (split; [assumption|]).
  intros q -> Hq Hfresh'. rewrite (Hcomp Hfresh').
  destruct (in_dec (list_eq_dec Nat.eq_dec) q (all_paths d)); [reflexivity|tauto].
Qed.

(** X22. A complemented node that is not a node of [doc] is lost by
    pickling: the restored article has a top node and no complemented node,
    and taking its state again raises [AttributeError]. *)
Theorem restored_article_cannot_be_pickled_again :
  forall a d p c,
    download_state a = SUCCESS -> doc a = Some d -> top_node a = Some p ->
    _top_node_complemented a = Some (OffTree c) ->
    In p (all_paths d) ->
    (forall r, carries top_node_sentinel d r = false) ->
    (forall r, carries complemented_sentinel d r = false) ->
    let d' := set_attr_at "__newspaper_top_node" "xxx" p d in
    fromstring (node_to_string (Some d')) = Some d' ->
    exists a1 st a',
      __getstate__ a = (a1, Ok st) /\ __setstate__ st = Ok a' /\
      top_node a' = Some p /\ _top_node_complemented a' = None /\
      snd (__getstate__ a')
      = Raise (AttributeError "'NoneType' object has no attribute 'set'").
Proof.
  intros a d p c Es Hd Ht Hc Hp Hfresh Hfresh' d' Hround.
  destruct (pickle_round_trip a d p (OffTree c) Es Hd Ht Hc Hp Hfresh Hround)
    as (a1 & st & a' & Hg & Hs & _ & _ & _ & Htop & Es' & Hcomp).
  specialize (Hcomp Hfresh').
  exists a1, st, a'. repeat (split; [assumption|]).
  unfold __getstate__. rewrite Es', Htop. cbv zeta.
  change (_top_node_complemented (set_doc _ ?x)) with (_top_node_complemented x).
  now rewrite Hcomp.
Qed.

(* ------------------------------------------------------------------ *)
(** *** Build *)

Lemma parse_after_failed_download (a : Article) :
  download_state a = FAILED_RESPONSE ->
  parse a
  = Raised (ArticleException
              ("Article `download()` failed with "
               ++ fmt_opt (download_exception_msg a) ++ " on URL " ++ url a)%string) a.
Proof.
  intros Hs. unfold parse, throw_if_not_downloaded_verbose. now rewrite Hs.
Qed.

(** X23. [build] on an article whose fetch fails ends in [parse]: it raises
    [ArticleException] with the failure and the URL in the message, after
    the one access, with nothing parsed. For a status of 400 or more the
    failure reads "Status code N for url None", or names the protection. *)
Theorem build_stops_at_a_failed_download :
  forall a w failure,
    urlparse_scheme (url a) <> "file" ->
    get_html_status w (url a) (config a) = RequestException failure \/
    (exists h sc hist,
        get_html_status w (url a) (config a) = Response h sc hist /\ 400 <= sc /\
        failure = match _detect_protection h with
                  | Some vendor =>
                      "Website protected with " ++ vendor ++ ", url: None"
                  | None => "Status code " ++ str_of_int sc ++ " for url None"
                  end%string) ->
    exists a',
      build a w
      = Raised (ArticleException
                  ("Article `download()` failed with " ++ failure
                   ++ " on URL " ++ url a)%string) (a', w ++ [Fetch (url a)]) /\
      download_state a' = FAILED_RESPONSE /\
      is_parsed a' = is_parsed a /\ html a' = html a.
Proof.
  intros a w failure Hscheme Hfail. apply String.eqb_neq in Hscheme.
  assert (Hd : exists a',
             _parse_scheme_http a None w = (None, a', w ++ [Fetch (url a)]) /\
             download_state a' = FAILED_RESPONSE /\
             download_exception_msg a' = Some failure).
  { destruct Hfail as [Hget|(h & sc & hist & Hget & Hsc & ->)].
    - unfold _parse_scheme_http. simpl opt_or. rewrite Hget.
      eexists. split; [reflexivity|]. split; reflexivity.
    - destruct (failed_response_message a None w h sc hist Hget Hsc)
        as (a' & Hp & Hs & Hm).
      exists a'. split; [exact Hp|]. split; [exact Hs|]. rewrite Hm.
      now destruct (_detect_protection h). }
  destruct Hd as (a' & Hp & Hs & Hm). exists a'.
  pose proof Hp as Hk. apply _parse_scheme_http_keeps in Hk as (_ & Hhtml & _).
  pose proof Hp as He. apply _parse_scheme_http_effect in He as (Hout & Hu & _).
  apply outside_download_keeps in Hout as (_ & _ & _ & Hparsed).
  unfold build. rewrite download_unfold. unfold obtain_html.
  rewrite Hscheme, Hp, (parse_after_failed_download a' Hs), Hm, Hu.
  repeat split; assumption.
Qed.

(** X24. Once [download] has returned with SUCCESS, [build] cannot fail:
    [parse] and [nlp] both return, no further access is made, and the
    article ends parsed, on the HTML and the URL of the download. *)
Theorem build_succeeds_after_a_successful_download :
  forall a w a1 w1,
    download a w None None 0 false = Return (a1, w1) ->
    download_state a1 = SUCCESS ->
    exists a2 a3,
      parse a1 = Return a2 /\ nlp a2 = Return a3 /\
      build a w = Return (a3, w1) /\
      is_parsed a3 = true /\ download_state a3 = SUCCESS /\
      html a3 = html a1 /\ url a3 = url a1.
Proof.
  intros a w a1 w1 Hd Hs.
  destruct (proj1 (parse_raises_iff a1) Hs) as [a2 Hp].
  assert (Hframe : is_parsed a2 = true /\ download_state a2 = SUCCESS /\
                   html a2 = html a1 /\ url a2 = url a1).
  { revert Hp. destruct (fromstring (html a1)) as [d|] eqn:Ed.
    - rewrite (parse_with_document a1 d Hs Ed). intros [= <-].
      pose proof (parse_document_outside d
                    (set_clean_doc (Some d) (set_doc (Some d) a1))) as Hout.
      split; [apply parse_document_is_parsed|].
      pose proof (f_equal download_state Hout) as Hst.
      pose proof (f_equal _html Hout) as Hh.
      pose proof (f_equal url Hout) as Hu.
      unfold html. split; [exact (eq_trans Hst Hs)|]. split; [exact Hh|exact Hu].
    - rewrite (parse_without_document a1 Hs Ed). intros [= <-]. repeat split.
      exact Hs. }
  destruct Hframe as (Hparsed & Hs2 & Hh & Hu).
  destruct (proj1 (nlp_raises_iff a2) Hs2 Hparsed) as [a3 Hn].
  exists a2, a3. split; [exact Hp|]. split; [exact Hn|].
  split; [unfold build; now rewrite Hd, Hp, Hn|].
  revert Hn. unfold nlp, throw_if_not_downloaded_verbose,
    throw_if_not_parsed_verbose. rewrite Hs2, Hparsed. simpl negb. cbv iota zeta.
  intros [= <-]. repeat split; assumption.
Qed.


(* ------------------------------------------------------------------ *)
(** *** Comparison and printing *)

Lemma str_leb_trans (a b c : string) :
  String.leb a b = true -> String.leb b c = true -> String.leb a c = true.
Proof.
  unfold String.leb. revert b c.
  induction a as [|x a IH]; intros [|y b] [|z c]; simpl; try congruence.
  unfold Ascii.compare.
  destruct (N.compare_spec (N_of_ascii x) (N_of_ascii y)) as [Hxy|Hxy|Hxy];
    destruct (N.compare_spec (N_of_ascii y) (N_of_ascii z)) as [Hyz|Hyz|Hyz];
    destruct (N.compare_spec (N_of_ascii x) (N_of_ascii z)) as [Hxz|Hxz|Hxz];
    try congruence; try lia.
  apply IH.
Qed.

Lemma str_leb_false (a b : string) :
  String.leb a b = false -> String.leb b a = true.
Proof.
  intros H. destruct (String.leb_total a b) as [H'|H']; congruence.
Qed.

Lemma insert_str_perm (x : string) (l : list string) :
  Permutation (insert_str x l) (x :: l).
Proof.
  induction l as [|y l IH]; simpl; [reflexivity|].
  destruct (String.leb x y); [reflexivity|].
  rewrite IH. apply perm_swap.
Qed.

Lemma sorted_str_perm (l : list string) : Permutation (sorted_str l) l.
Proof.
  induction l as [|x l IH]; simpl; [reflexivity|].
  rewrite insert_str_perm. now constructor.
Qed.

Lemma insert_str_comm (x y : string) (l : list string) :
  insert_str x (insert_str y l) = insert_str y (insert_str x l).
Proof.
  induction l as [|h l IH]; simpl.
  - destruct (String.leb x y) eqn:Exy, (String.leb y x) eqn:Eyx; try reflexivity.
    + now rewrite (String.leb_antisym x y Exy Eyx).
    + apply str_leb_false in Exy. congruence.
  - destruct (String.leb y h) eqn:Eyh, (String.leb x h) eqn:Exh; simpl;
      rewrite ?Eyh, ?Exh.
    + destruct (String.leb x y) eqn:Exy, (String.leb y x) eqn:Eyx; try reflexivity.
      * now rewrite (String.leb_antisym x y Exy Eyx).
      * apply str_leb_false in Exy. congruence.
    + destruct (String.leb x y) eqn:Exy; [|reflexivity].
      rewrite (str_leb_trans x y h Exy Eyh) in Exh. discriminate.
    + destruct (String.leb y x) eqn:Eyx; [|reflexivity].
      rewrite (str_leb_trans y x h Eyx Exh) in Eyh. discriminate.
    + now rewrite IH.
Qed.

Lemma sorted_str_of_perm (l1 l2 : list string) :
  Permutation l1 l2 -> sorted_str l1 = sorted_str l2.
Proof.
  induction 1 as [|x l l' _ IH|x y l|l l' l'' _ IH1 _ IH2]; simpl.
  - reflexivity.
  - now rewrite IH.
  - apply insert_str_comm.
  - congruence.
Qed.

Lemma sorted_str_eq_iff (l1 l2 : list string) :
  sorted_str l1 = sorted_str l2 <-> Permutation l1 l2.
Proof.
  split; [|apply sorted_str_of_perm].
  intros H. rewrite <- (sorted_str_perm l1), H. apply sorted_str_perm.
Qed.

Lemma list_str_eqb_eq (l1 l2 : list string) :
  list_str_eqb l1 l2 = true <-> l1 = l2.
Proof.
  revert l2. induction l1 as [|x l1 IH]; intros [|y l2]; simpl;
    try (split; [discriminate|congruence]); [tauto|].
  rewrite andb_true_iff, String.eqb_eq, IH. split.
  - now intros [-> ->].
  - intros [= -> ->]. tauto.
Qed.

Lemma opt_str_eqb_eq (o1 o2 : option string) :
  opt_str_eqb o1 o2 = true <-> o1 = o2.
Proof.
  destruct o1 as [x|], o2 as [y|]; simpl;
    try (split; [discriminate|congruence]); [|tauto].
  rewrite String.eqb_eq. split; congruence.
Qed.

(** X25. Two articles are equal exactly when they agree on [url], [title],
    [text], [top_image] and [publish_date], and their [movies], [authors],
    [keywords] and [images] hold the same entries the same number of times,
    in whatever order; no other attribute is looked at. *)
Theorem articles_equal_up_to_list_order :
  forall a other,
    __eq__ a other = true <->
    url a = url other /\ title a = title other /\ text a = text other /\
    top_image a = top_image other /\
    Permutation (movies a) (movies other) /\
    Permutation (authors a) (authors other) /\
    Permutation (keywords a) (keywords other) /\
    Permutation (images a) (images other) /\
    publish_date a = publish_date other.
Proof.
  intros a other. unfold __eq__.
  rewrite !andb_true_iff, !String.eqb_eq, !list_str_eqb_eq, !sorted_str_eq_iff,
    opt_str_eqb_eq.
  tauto.
Qed.

Lemma str_take_all (n : nat) (s : string) :
  (String.length s <= n)%nat -> str_take n s = s.
Proof.
  revert s. induction n as [|n IH]; intros [|c r]; simpl; auto; try lia.
  intros H. rewrite IH; [reflexivity|lia].
Qed.

Lemma str_take_split (n : nat) (s : string) :
  (n <= String.length s)%nat ->
  exists rest,
    s = (str_take n s ++ rest)%string /\
    String.length rest = (String.length s - n)%nat.
Proof.
  revert s. induction n as [|n IH]; intros s Hn.
  - exists s. split; [now destruct s|lia].
  - destruct s as [|c r]; [simpl in Hn; lia|].
    destruct (IH r) as (rest & Hr & Hl); [simpl in Hn; lia|].
    exists rest. simpl. split; [now rewrite <- Hr|exact Hl].
Qed.

Lemma str_take_app (n : nat) (s rest : string) :
  (n <= String.length s)%nat -> str_take n (s ++ rest) = str_take n s.
Proof.
  revert s. induction n as [|n IH]; intros s Hn; [reflexivity|].
  destruct s as [|c r]; [simpl in Hn; lia|].
  simpl. rewrite IH; [reflexivity|simpl in Hn; lia].
Qed.

(** X26. [__str__] prints a text of at most 100 characters whole. Of a
    longer text it prints the first 50 characters, " [...] ", and then the
    text without its last 50 characters, which begins with the same 50
    characters again: the end of the text is not printed. *)
Theorem str_of_a_long_text_repeats_its_head :
  forall a,
    (Z.of_nat (String.length (text a)) <= 100 ->
     __str__ a
     = ("__Title__: " ++ title a ++ newline ++ newline ++ " " ++ text a)%string) /\
    (100 < Z.of_nat (String.length (text a)) ->
     exists head middle tail,
       text a = (head ++ middle ++ tail)%string /\
       String.length head = 50%nat /\ String.length tail = 50%nat /\
       __str__ a
       = ("__Title__: " ++ title a ++ newline ++ newline ++ " "
          ++ head ++ " [...] " ++ head ++ middle)%string).
Proof.
  intros a. unfold __str__. split.
  - intros Hl. apply Z.ltb_ge in Hl. rewrite Hl. now rewrite str_app_assoc.
  - intros Hl. pose proof Hl as Hb. apply Z.ltb_lt in Hb. rewrite Hb.
    set (n := String.length (text a)) in *.
    destruct (str_take_split (n - 50) (text a)) as (tail & Ht & Htl);
      [unfold n; lia|].
    set (body := str_take (n - 50) (text a)) in *.
    assert (Hbody : String.length body = (n - 50)%nat).
    { unfold body. rewrite str_take_length. unfold n. lia. }
    destruct (str_take_split 50 body) as (middle & Hm & Hml); [lia|].
    exists (str_take 50 body), middle, tail.
    assert (Hhead : str_take 50 (text a) = str_take 50 body).
    { rewrite Ht at 1. apply str_take_app. lia. }
    assert (Hneg : str_slice_to (-50) (text a) = body).
    { unfold str_slice_to. destruct (0 <=? -50) eqn:E; [discriminate|].
      unfold body, n. f_equal. lia. }
    assert (Hpos : str_slice_to 50 (text a) = str_take 50 body).
    { unfold str_slice_to. simpl. exact Hhead. }
    split; [|split; [|split]].
    + rewrite <- str_app_assoc, <- Hm. exact Ht.
    + rewrite str_take_length. lia.
    + fold n in Htl. lia.
    + rewrite Hneg, Hpos. rewrite Hm at 2. now rewrite !str_app_assoc.
Qed.

End Further.

(* ================================================================== *)
(** ** The model at work in the small world *)

#[local] Existing Instance rational.
#[local] Existing Instance demo_world.

(* ------------------------------------------------------------------ *)
(** *** Download *)

(** C1 as stated fails. The selector matches two nodes, the first without
    an [href], the second with one: [download] goes on to the second node,
    fetches its target, and replaces both the HTML and [url]. *)
Lemma read_more_skips_node_without_href :
  let a := demo_article url_a more_selector in
  let r := final_state (download a [] (Some page_preview) None 0 false) in
  xpath preview_doc (read_more_link a)
  = [ Elem "a" [("class", "more")] "more" [];
      Elem "a" [("class", "more"); ("href", url_full)] "full" [] ] /\
  elem_get "href" (Elem "a" [("class", "more")] "more" []) = None /\
  snd r = [Fetch url_full] /\
  url (fst r) = url_full /\ url (fst r) <> url a /\
  html (fst r) = page_full /\ html (fst r) <> page_preview.
Proof.
  vm_compute. repeat split; discriminate.
Qed.

(** C1 (amended), on the same call: the one re-fetch is that of the second
    node, the first to carry an [href]. *)
Lemma read_more_first_usable_href_witness :
  let a := demo_article url_a more_selector in
  (obtain_html a [] (Some page_preview) = (Some page_preview, a, []) /\
   meta_refresh_target a page_preview 0 = None /\
   str_truthy (read_more_link a) = true /\
   fromstring page_preview = Some preview_doc) /\
  exists a',
    download a [] (Some page_preview) None 0 false = Return (a', [Fetch url_full]) /\
    html a' = page_full /\ url a' = url_full.
Proof.
  intros a. split; [repeat split|].
  destruct (read_more_first_usable_href a [] (Some page_preview) None 0
              page_preview a [] preview_doc eq_refl eq_refl eq_refl eq_refl)
    as [Hfirst _].
  destruct (Hfirst [Elem "a" [("class", "more")] "more" []]
              (Elem "a" [("class", "more"); ("href", url_full)] "full" [])
              [] url_full eq_refl)
    as (a' & Hd & _ & Hm).
  - repeat constructor.
  - reflexivity.
  - reflexivity.
  - exists a'. split; [exact Hd|exact Hm].
Defined.


(** C6 fails on the code. [download] fetches the article's own URL, the
    answer is a 404 without a vendor marker, and the recorded message ends in
    [None] where the claim has the fetched URL: [_parse_scheme_http] formats
    its parameter [url], which [download] leaves at [None], and not the
    [url or self.url] it fetched. *)
Lemma status_message_names_no_url :
  let a := demo_article url_missing "" in
  let r := final_state (download a [] None None 0 false) in
  url a = url_missing /\
  get_html_status [] (url a) (config a) = Response "not found" 404 [] /\
  snd r = [Fetch url_missing] /\
  download_state (fst r) = FAILED_RESPONSE /\
  download_exception_msg (fst r) = Some "Status code 404 for url None" /\
  download_exception_msg (fst r)
  <> Some "Status code 404 for url http://example.com/missing".
Proof. vm_compute. repeat split. discriminate. Qed.


(* ------------------------------------------------------------------ *)
(** *** Keywords *)




(** The same example in binary64 arithmetic, with room for ten keywords and
    for two. *)
Example keyword_merge_on_binary64 :
  ranked_keywords (F := binary64)
    [("a", 0.8%float); ("b", 0.4%float)] [("a", 0.2%float); ("c", 0.5%float)] 10
  = [("a", 0.5%float); ("c", 0.5%float); ("b", 0.4%float)] /\
  ranked_keywords (F := binary64)
    [("a", 0.8%float); ("b", 0.4%float)] [("a", 0.2%float); ("c", 0.5%float)] 2
  = [("a", 0.5%float); ("c", 0.5%float)].
Proof. split; vm_compute; reflexivity. Qed.

(* ------------------------------------------------------------------ *)
(** *** Truncation *)

(** C4 as stated fails for [text_cleaned]: with [max_text] at 10, a value
    of 16 characters assigned after a shorter one is stored whole. *)
Lemma text_cleaned_assignment_is_not_clipped :
  let a := assign (AssignTextCleaned "0123456789abcdef")
             (assign (AssignTextCleaned "short") demo_parsed) in
  max_text (config a) = 10 /\
  text_cleaned a = "0123456789abcdef" /\
  max_text (config a) < Z.of_nat (String.length (text_cleaned a)).
Proof. vm_compute. repeat split. Qed.

(** C4 (amended): a long title assigned after a short one is cut to the 20
    characters of [max_title], and [parse] stores a [text_cleaned] within
    the 10 characters of [max_text]. *)
Lemma setters_clip_every_assignment_witness :
  (0 <= max_title (config demo_parsed) /\
   download_state demo_downloaded = SUCCESS /\
   fromstring (html demo_downloaded) = Some (Elem "html" [] page_full []) /\
   top_node (final_state (parse demo_downloaded)) <> None /\
   0 <= max_text (config (final_state (parse demo_downloaded)))) /\
  title (assign (AssignTitle (Some "a title of more than twenty characters"))
           (assign_all [AssignTitle (Some "short")] demo_parsed))
  = "a title of more than" /\
  Z.of_nat (String.length
              (title (assign (AssignTitle (Some "a title of more than twenty characters"))
                        (assign_all [AssignTitle (Some "short")] demo_parsed))))
  <= 20 /\
  Z.of_nat (String.length (text_cleaned (final_state (parse demo_downloaded)))) <= 10.
Proof.
  assert (H0 : 0 <= max_title (config demo_parsed)) by (vm_compute; discriminate).
  assert (Htop : top_node (final_state (parse demo_downloaded)) <> None)
    by (vm_compute; discriminate).
  assert (Hmax : 0 <= max_text (config (final_state (parse demo_downloaded))))
    by (vm_compute; discriminate).
  split; [repeat split; assumption|].
  destruct (@setters_clip_every_assignment rational demo_world) as (Hset & Hparse).
  destruct (Hset demo_parsed [AssignTitle (Some "short")]
              (AssignTitle (Some "a title of more than twenty characters")))
    as (Heq & Hlen).
  split; [exact Heq|]. split; [exact (Hlen H0)|].
  exact (Hparse demo_downloaded (Elem "html" [] page_full []) eq_refl eq_refl Htop Hmax).
Defined.

(* ------------------------------------------------------------------ *)
(** *** Parse and validity *)

(** C5, on a fresh article downloaded from the empty string, which gives
    no tree. *)
Lemma parse_unparseable_document_witness :
  let a0 := demo_article url_a "" in
  let a1 := fst (final_state (download a0 [] (Some "") None 1 false)) in
  (__init__ url_a "" (Some "http://example.com") "" demo_config = Ok a0 /\
   download_state a1 = SUCCESS /\ fromstring (html a1) = None) /\
  exists a2,
    parse a1 = Return a2 /\ is_parsed a2 = true /\ derived_fields_empty a2.
Proof.
  intros a0 a1. split; [repeat split|].
  destruct (@parse_unparseable_document rational demo_world) as (_ & Hfresh & _).
  exact (Hfresh url_a "" (Some "http://example.com") "" demo_config a0 []
           (Some "") None 1 false eq_refl eq_refl eq_refl).
Defined.

(** C7, on the parsed article: its type is "article" but its three words
    do not exceed the minimum of three, it has text, a title of several
    words and words enough for rule 4 to pass, and one sentence where two are
    asked for: rule 5 decides. Before parsing the classifier raises. *)
Lemma is_valid_body_priority_order_witness :
  (is_parsed demo_parsed = true /\
   validity_rules demo_parsed
   = [(false, true); (false, false); (false, false); (false, false)]
       ++ (true, false) :: [(false, false)] /\
   Forall (fun r => fst r = false)
     [(false, true); (false, false); (false, false); (false, false)] /\
   is_parsed demo_downloaded = false) /\
  is_valid_body demo_parsed = Ok false /\
  is_valid_body demo_downloaded = Raise (ArticleException must_parse_msg).
Proof.
  assert (Hpre : Forall (fun r : bool * bool => fst r = false)
                   [(false, true); (false, false); (false, false); (false, false)])
    by (repeat constructor).
  split; [repeat split; exact Hpre|].
  destruct (is_valid_body_priority_order demo_parsed) as (_ & _ & Hrule & _).
  destruct (is_valid_body_priority_order demo_downloaded) as (_ & Hraise & _).
  split.
  - exact (Hrule eq_refl
             [(false, true); (false, false); (false, false); (false, false)]
             false [(false, false)] eq_refl Hpre).
  - exact (Hraise eq_refl).
Defined.

(* ------------------------------------------------------------------ *)
(** *** Pickling *)

(** C8, on a state whose stored HTML has two nodes with the top-node
    sentinel and none with the other: [top_node] is the first of the two and
    the complemented node stays [None]. *)
Lemma restore_rebinds_nodes_witness :
  (st___parsed_state demo_state = true /\
   st__doc_html demo_state = Some page_marked /\
   fromstring page_marked = Some marked_doc /\
   all_paths marked_doc = [[]; [0%nat]; [1%nat]] /\
   carries top_node_sentinel marked_doc [1%nat] = true) /\
  exists a,
    __setstate__ demo_state = Ok a /\ doc a = Some marked_doc /\
    top_node a = Some [0%nat] /\ _top_node_complemented a = None /\
    clean_doc a = None /\ clean_top_node a = None.
Proof.
  split; [repeat split|].
  destruct (@restore_rebinds_nodes rational demo_world)
    as (Hclean & _ & Hparsed & _).
  destruct (Hparsed demo_state page_marked marked_doc eq_refl eq_refl eq_refl)
    as (a & top & complemented & Hset & Hdoc & Htop & Hcomp & _).
  destruct (Hclean demo_state a Hset) as (Hc1 & Hc2).
  exists a. split; [exact Hset|]. split; [exact Hdoc|].
  assert (Ha : match __setstate__ demo_state with Ok x => x | Raise _ => a end = a)
    by now rewrite Hset.
  rewrite <- Ha. repeat split.
Defined.

(* ------------------------------------------------------------------ *)
(** *** The original URL *)



(* ------------------------------------------------------------------ *)
(** *** Further properties, in the two small worlds *)

(** X4, on the URL that answers 404: the title that is passed is not
    applied. *)
Lemma download_failed_fetch_witness :
  let a := demo_article url_missing "" in
  (urlparse_scheme (url a) <> "file" /\
   get_html_status [] (url a) (config a) = Response "not found" 404 []) /\
  exists a',
    download a [] None (Some "A title") 0 false = Return (a', [Fetch url_missing]) /\
    download_state a' = FAILED_RESPONSE /\ title a' = "" /\ html a' = "".
Proof.
  intros a. split; [split; [discriminate|reflexivity]|].
  destruct (@download_failed_fetch rational demo_world a [] (Some "A title") 0 false)
    as (a' & Hd & Hs & _ & Hh & Ht & _).
  - discriminate.
  - right. exists "not found", 404, []. split; [reflexivity|discriminate].
  - exists a'. split; [exact Hd|]. split; [exact Hs|]. split; [exact Ht|exact Hh].
Defined.

(** X5, on a file that cannot be read. *)
Lemma download_file_scheme_witness :
  let a := demo_article "file:///tmp/story.html" "" in
  (urlparse_scheme (url a) = "file" /\
   read_file [] (urlparse_path (url a)) = OSError (Some "No such file or directory")) /\
  exists a',
    download a [] None None 0 false
    = Return (a', [ReadFile "file:///tmp/story.html"]) /\
    download_state a' = FAILED_RESPONSE /\
    download_exception_msg a' = Some "No such file or directory".
Proof.
  intros a. split; [split; reflexivity|].
  destruct (@download_file_scheme rational demo_world a [] None 0 false eq_refl)
    as (Hfail & _).
  destruct (Hfail (Some "No such file or directory") eq_refl)
    as (a' & Hd & Hs & Hm & _).
  exists a'. split; [exact Hd|]. split; [exact Hs|exact Hm].
Defined.

(** X6, on the download of [url_full]. *)
Lemma download_settles_the_state_witness :
  download (demo_article url_full "") [] None None 0 false
  = Return (demo_downloaded, [Fetch url_full]) /\
  (download_state demo_downloaded = SUCCESS \/
   (download_state demo_downloaded = FAILED_RESPONSE /\ @None string = None /\
    html demo_downloaded = html (demo_article url_full "") /\
    title demo_downloaded = title (demo_article url_full ""))).
Proof.
  split; [reflexivity|].
  exact (@download_settles_the_state rational demo_world (demo_article url_full "")
           [] None None 0 false demo_downloaded [Fetch url_full] eq_refl).
Defined.

(** X7, on the chain of meta-refreshes that starts at [url_a]. *)
Lemma download_without_read_more_keeps_url_witness :
  let a := demo_article url_a "" in
  read_more_link a = "" /\
  exists a' w',
    download a [] None None 0 false = Return (a', w') /\ url a' = url_a.
Proof.
  intros a. split; [reflexivity|].
  exact (@download_without_read_more_keeps_url rational demo_world a [] None None 0
           false eq_refl).
Defined.

(** X8, on the same chain, with a title and [ignore_read_more] given. *)
Lemma meta_refresh_drops_title_and_ignore_read_more_witness :
  let a := demo_article url_a "" in
  (obtain_html a [] None = (Some page_a, set_history [] a, [Fetch url_a]) /\
   meta_refresh_target (set_history [] a) page_a 0 = Some url_b) /\
  download a [] None (Some "Forced") 0 true = download a [] None None 0 false /\
  title (fst (final_state (download a [] None (Some "Forced") 0 true))) = "".
Proof.
  intros a. split; [split; reflexivity|].
  exact (@meta_refresh_drops_title_and_ignore_read_more rational demo_world a []
           None (Some "Forced") 0 true page_a (set_history [] a) [Fetch url_a] url_b
           eq_refl eq_refl).
Defined.

(** X9, in the second world: the read-more link of the preview is found and
    its fetch fails. *)
Lemma failed_read_more_ends_in_success_witness :
  let a := offline_article more_selector in
  (obtain_html a [] (Some page_preview) = (Some page_preview, a, []) /\
   @fromstring rational offline_world page_preview = Some preview_doc /\
   @get_html_status rational offline_world [] url_full (config a)
   = RequestException "connection refused") /\
  exists a',
    download a [] (Some page_preview) None 0 false = Return (a', [Fetch url_full]) /\
    download_state a' = SUCCESS /\
    download_exception_msg a' <> None /\
    html a' = page_preview /\ url a' = url_a.
Proof.
  intros a. split; [repeat split|].
  assert (Hpre : Forall (fun m => no_href m = true)
                   [Elem "a" [("class", "more")] "more" []])
    by (repeat constructor).
  exact (@failed_read_more_ends_in_success rational offline_world a []
           (Some page_preview) None 0 page_preview a [] preview_doc
           [Elem "a" [("class", "more")] "more" []]
           (Elem "a" [("class", "more"); ("href", url_full)] "full" [])
           [] url_full eq_refl eq_refl eq_refl eq_refl eq_refl Hpre eq_refl eq_refl
           (or_introl (ex_intro _ "connection refused" eq_refl))).
Defined.

(** X10, on a page given by the caller with a title longer than
    [max_title]. *)
Lemma download_of_given_html_witness :
  let a := demo_article url_a "" in
  meta_refresh_target a page_c 0 = None /\
  exists a',
    download a [] (Some page_c) (Some "A title of more than twenty characters") 0 false
    = Return (a', []) /\
    download_state a' = SUCCESS /\ html a' = page_c /\ url a' = url_a /\
    title a' = "A title of more than".
Proof.
  intros a. split; [reflexivity|].
  destruct (@download_of_given_html rational demo_world a [] page_c
              (Some "A title of more than twenty characters") 0 false eq_refl
              (or_intror eq_refl))
    as (a' & Hd & Hs & Hh & Hu & Ht & _).
  exists a'. repeat split; assumption.
Defined.

(** X13, on the parse of the downloaded article: the title is cut to 20
    characters, one author is kept, the texts are cut to 10 characters. *)
Lemma parse_respects_the_limits_witness :
  (download_state demo_downloaded = SUCCESS /\
   fromstring (html demo_downloaded) = Some (Elem "html" [] page_full [])) /\
  title demo_parsed = "A headline that is l" /\
  authors demo_parsed = ["Ada"] /\
  text demo_parsed = "The full s" /\
  Z.of_nat (String.length (title demo_parsed)) <= 20 /\
  Z.of_nat (List.length (authors demo_parsed)) <= 1 /\
  Z.of_nat (String.length (text demo_parsed)) <= 10 /\
  Z.of_nat (String.length (text_cleaned demo_parsed)) <= 10 /\
  Forall (fun u => u <> "") (movies demo_parsed).
Proof.
  split; [split; reflexivity|].
  destruct (@parse_respects_the_limits rational demo_world demo_downloaded
              (Elem "html" [] page_full []) eq_refl eq_refl)
    as (Ht & Ha & Htx & Hm).
  split; [reflexivity|]. split; [reflexivity|]. split; [reflexivity|].
  split; [apply Ht; discriminate|]. split; [apply Ha; discriminate|].
  destruct Htx as (Htext & Hclean); [discriminate|discriminate|].
  split; [exact Htext|]. split; [exact Hclean|exact Hm].
Defined.

(** X14, in the second world, where no top node is found. *)
Lemma parse_without_top_node_keeps_the_texts_witness :
  let a := set_text (Some "Earlier") offline_given in
  (download_state a = SUCCESS /\
   @fromstring rational offline_world (html a) = Some (Elem "html" [] page_c []) /\
   top_node (final_state (parse a)) = None) /\
  is_parsed (final_state (parse a)) = true /\
  text (final_state (parse a)) = "Earlier".
Proof.
  intros a. split; [repeat split|].
  destruct (@parse_without_top_node_keeps_the_texts rational offline_world a
              (Elem "html" [] page_c []) eq_refl eq_refl eq_refl)
    as (Hp & Ht & _).
  split; [exact Hp|exact Ht].
Defined.

(** X16, on the parsed article: two keywords, a summary of 15 characters. *)
Lemma nlp_writes_keywords_and_summary_witness :
  let a' := final_state (nlp demo_parsed) in
  nlp demo_parsed = Return a' /\
  keywords a' = ["a"; "c"] /\ summary a' = "The full story." /\
  text a' = text demo_parsed /\
  Z.of_nat (String.length (summary a')) <= 15 /\
  Z.of_nat (List.length (keywords a')) <= 2.
Proof.
  intros a'. split; [reflexivity|].
  destruct (@nlp_writes_keywords_and_summary rational demo_world demo_parsed a'
              eq_refl)
    as (_ & Ht & _ & _ & _ & _ & _ & Hs & Hk).
  split; [reflexivity|]. split; [reflexivity|]. split; [exact Ht|].
  split; [apply Hs; discriminate|apply Hk; discriminate].
Defined.

(** X17, on the same call: the keyword "a" is a key of the text's scores. *)
Lemma nlp_keywords_come_from_the_candidates_witness :
  let a' := final_state (nlp demo_parsed) in
  (nlp demo_parsed = Return a' /\ In "a" (keywords a')) /\
  (In "a" (dict_keys demo_text_keywords) \/ In "a" (dict_keys demo_title_keywords)).
Proof.
  intros a'. split; [split; [reflexivity|now left]|].
  destruct (@nlp_keywords_come_from_the_candidates rational demo_world demo_parsed
              a' eq_refl) as (Hfrom & _).
  exact (Hfrom "a" (or_introl eq_refl)).
Defined.

(** X18, on a parsed article without text. *)
Lemma is_valid_body_of_empty_text_witness :
  let a := set_is_parsed true (demo_article url_a "") in
  (is_parsed a = true /\ text a = "" /\ is_media_news a = false /\
   min_word_count (config a) = 3) /\
  is_valid_body a = Ok false.
Proof.
  intros a. split; [repeat split|].
  destruct (@is_valid_body_of_empty_text rational demo_world a eq_refl eq_refl)
    as (Hinvalid & _).
  apply Hinvalid; [reflexivity|discriminate].
Defined.

(** X19, on a parsed article whose text has six words. *)
Lemma valid_body_meets_the_thresholds_witness :
  let a := set_text (Some "a b c d e f") demo_parsed in
  is_valid_body a = Ok true /\
  is_parsed a = true /\
  ((meta_data_type (extractor a) = "article" /\
    min_word_count (config a) < word_count a) \/
   ((is_media_news a = true \/ text a <> "") /\
    2 <= title_token_count a /\
    min_word_count (config a) <= word_count a /\
    min_sent_count (config a) <= sentence_count a /\
    html a <> "")).
Proof.
  intros a. split; [reflexivity|].
  exact (@valid_body_meets_the_thresholds rational demo_world a eq_refl).
Defined.

(** X20, on the parsed article. *)
Lemma pickle_round_trip_restores_the_attributes_witness :
  exists a1 st a',
    __getstate__ demo_parsed = (a1, Ok st) /\ __setstate__ st = Ok a' /\
    state_dict a' false None = state_dict demo_parsed false None /\
    title a' = "A headline that is l" /\
    clean_doc a' = None /\ clean_top_node a' = None.
Proof.
  set (a1 := fst (__getstate__ demo_parsed)).
  set (st := match snd (__getstate__ demo_parsed) with
             | Ok s => s
             | Raise _ => demo_state
             end).
  set (a' := match __setstate__ st with Ok x => x | Raise _ => demo_parsed end).
  destruct (@pickle_round_trip_restores_the_attributes rational demo_world
              demo_parsed a1 st a' eq_refl eq_refl)
    as (Hattr & _ & Hcd & Hct & _).
  exists a1, st, a'. split; [reflexivity|]. split; [reflexivity|].
  split; [exact Hattr|]. split; [reflexivity|]. split; [exact Hcd|exact Hct].
Defined.

(** X21, in the second world: both nodes are nodes of [doc] and both are
    found again. *)
Lemma pickle_round_trip_recovers_the_nodes_witness :
  let a := offline_parsed "both" (InDoc [0%nat]) in
  (download_state a = SUCCESS /\ doc a = Some (page_of "both") /\
   top_node a = Some [1%nat] /\
   all_paths (page_of "both") = [[]; [0%nat]; [1%nat]] /\
   @fromstring rational offline_world
     (@node_to_string rational offline_world (Some stored_both))
   = Some stored_both) /\
  exists a1 st a',
    __getstate__ a = (a1, Ok st) /\
    @__setstate__ rational offline_world st = Ok a' /\
    doc a1 = Some stored_both /\ doc a' = Some stored_both /\
    top_node a' = Some [1%nat] /\
    _top_node_complemented a' = Some (InDoc [0%nat]).
Proof.
  intros a. split; [repeat split|].
  assert (Htop : forall r, carries top_node_sentinel (page_of "both") r = false).
  { intros [|[|[|[|i]]] [|[|j] r]]; reflexivity. }
  assert (Hcomp : forall r, carries complemented_sentinel (page_of "both") r = false).
  { intros [|[|[|[|i]]] [|[|j] r]]; reflexivity. }
  destruct (@pickle_round_trip_recovers_the_nodes rational offline_world a
              (page_of "both") [1%nat] (InDoc [0%nat]) eq_refl eq_refl eq_refl
              eq_refl (or_intror (or_intror (or_introl eq_refl))) Htop eq_refl)
    as (a1 & st & a' & Hg & Hs & Hd1 & Hd' & _ & Ht & Hc).
  exists a1, st, a'. split; [exact Hg|]. split; [exact Hs|].
  split; [exact Hd1|]. split; [exact Hd'|]. split; [exact Ht|].
  exact (Hc [0%nat] eq_refl (or_intror (or_introl eq_refl)) Hcomp).
Defined.

(** X22, in the second world: the complemented node is not a node of
    [doc]. *)
Lemma restored_article_cannot_be_pickled_again_witness :
  let a := offline_parsed "top" (OffTree (Elem "div" [] "story" [])) in
  (download_state a = SUCCESS /\ doc a = Some (page_of "top") /\
   top_node a = Some [1%nat] /\
   @fromstring rational offline_world
     (@node_to_string rational offline_world (Some stored_top))
   = Some stored_top) /\
  exists a1 st a',
    __getstate__ a = (a1, Ok st) /\
    @__setstate__ rational offline_world st = Ok a' /\
    top_node a' = Some [1%nat] /\ _top_node_complemented a' = None /\
    snd (__getstate__ a')
    = Raise (AttributeError "'NoneType' object has no attribute 'set'").
Proof.
  intros a. split; [repeat split|].
  assert (Htop : forall r, carries top_node_sentinel (page_of "top") r = false).
  { intros [|[|[|[|i]]] [|[|j] r]]; reflexivity. }
  assert (Hcomp : forall r, carries complemented_sentinel (page_of "top") r = false).
  { intros [|[|[|[|i]]] [|[|j] r]]; reflexivity. }
  exact (@restored_article_cannot_be_pickled_again rational offline_world a
           (page_of "top") [1%nat] (Elem "div" [] "story" []) eq_refl eq_refl
           eq_refl eq_refl (or_intror (or_intror (or_introl eq_refl))) Htop Hcomp
           eq_refl).
Defined.

(** X23, on the URL that answers 404. *)
Lemma build_stops_at_a_failed_download_witness :
  let a := demo_article url_missing "" in
  (urlparse_scheme (url a) <> "file" /\
   get_html_status [] (url a) (config a) = Response "not found" 404 [] /\
   _detect_protection "not found" = None) /\
  exists a',
    build a []
    = Raised (ArticleException
                "Article `download()` failed with Status code 404 for url None on URL http://example.com/missing")
        (a', [Fetch url_missing]) /\
    download_state a' = FAILED_RESPONSE /\ is_parsed a' = false.
Proof.
  intros a. split; [split; [discriminate|split; reflexivity]|].
  destruct (@build_stops_at_a_failed_download rational demo_world a []
              "Status code 404 for url None")
    as (a' & Hb & Hs & Hp & _).
  - discriminate.
  - right. exists "not found", 404, []. split; [reflexivity|].
    split; [discriminate|reflexivity].
  - exists a'. split; [exact Hb|]. split; [exact Hs|exact Hp].
Defined.

(** X24, on [url_full]. *)
Lemma build_succeeds_after_a_successful_download_witness :
  let a := demo_article url_full "" in
  (download a [] None None 0 false = Return (demo_downloaded, [Fetch url_full]) /\
   download_state demo_downloaded = SUCCESS) /\
  exists a2 a3,
    parse demo_downloaded = Return a2 /\ nlp a2 = Return a3 /\
    build a [] = Return (a3, [Fetch url_full]) /\
    is_parsed a3 = true /\ html a3 = page_full /\ url a3 = url_full.
Proof.
  intros a. split; [split; reflexivity|].
  destruct (@build_succeeds_after_a_successful_download rational demo_world a []
              demo_downloaded [Fetch url_full] eq_refl eq_refl)
    as (a2 & a3 & Hp & Hn & Hb & Hparsed & _ & Hh & Hu).
  exists a2, a3. repeat split; assumption.
Defined.
